(** * AI interview platform backend: interview lifecycle and generators

    A shallow embedding of [backend/server.py]: the question and feedback
    generators, the token helpers and the authentication gate, and the
    routes register, upload-resume, start-interview, submit-response and
    interview/{id}, written as programs of a small state-and-exception
    monad over the three database collections; further down, the routes
    login, health and interview-history, and sequences of requests over
    all of them.

    Conventions.
    - A Python [str] is a list of Unicode code points ([N]).
    - [uuid.uuid4()], [datetime.utcnow()], the chat client, the password
      hasher, the PDF reader and the JWT library are external: they are
      fields of an environment [Env]. What depends on the moment of the
      call is indexed by a logical instant, and every such consultation
      advances the instant ([tick]) by one, so two draws made during one
      run are made at distinct instants.
    - A collection is the list of its documents in natural order.
    - A raised Python exception leaves the effects made before it in
      place: the monad returns the final world also on the error path. *)

From Stdlib Require Import String Ascii ZArith NArith Lia List Sorted.
From Stdlib Require Import DecimalString DecimalNat.
From stdpp Require Import base option list gmap sorting.
Import ListNotations.

#[local] Open Scope nat_scope.

(** ** Python strings *)

Definition char := N.
Definition str := list char.

(** A source literal (all literals of the program are ASCII). *)
Definition lit (s : string) : str := map N_of_ascii (list_ascii_of_string s).

Definition nl : str := [10%N].

(** [str.isspace] on one code point (CPython's [_PyUnicode_IsWhitespace]). *)
Definition isspace (c : char) : bool :=
  ((9 <=? c) && (c <=? 13) || (28 <=? c) && (c <=? 32)
   || (c =? 133) || (c =? 160) || (c =? 5760)
   || (8192 <=? c) && (c <=? 8202)
   || (c =? 8232) || (c =? 8233) || (c =? 8239) || (c =? 8287)
   || (c =? 12288))%N.

Fixpoint lstrip (s : str) : str :=
  match s with
  | c :: s' => if isspace c then lstrip s' else s
  | [] => []
  end.

Definition rstrip (s : str) : str := rev (lstrip (rev s)).

(** [s.strip()] *)
Definition strip (s : str) : str := rstrip (lstrip s).

(** [s.split('\n')]: never empty, keeps empty pieces. *)
Fixpoint split_nl (s : str) : list str :=
  match s with
  | [] => [[]]
  | c :: s' =>
      if (c =? 10)%N then [] :: split_nl s'
      else match split_nl s' with
           | w :: ws => (c :: w) :: ws
           | [] => [[c]]
           end
  end.

(** [s.startswith('#')] *)
Definition startswith_hash (s : str) : bool :=
  match s with
  | c :: _ => (c =? 35)%N
  | [] => false
  end.

(** Truth value of a string: non-empty. *)
Definition truthy (s : str) : bool :=
  match s with [] => false | _ :: _ => true end.

(** [str(n)] for a non-negative integer. *)
Definition str_of_nat (n : nat) : str :=
  lit (NilEmpty.string_of_uint (Nat.to_uint n)).

(** Lines joined by a newline, as in a triple-quoted literal. *)
Fixpoint unlines (ls : list str) : str :=
  match ls with
  | [] => []
  | [l] => l
  | l :: ls' => l ++ nl ++ unlines ls'
  end.

(** ** Documents *)

(** Times are microseconds since the epoch. *)
Definition datetime := Z.
Definition days (n : Z) : Z := (n * 86400000000)%Z.

Inductive PyVal :=
| PyStr (s : str)
| PyDatetime (t : datetime)
| PyNone.

#[global] Instance PyVal_eq_dec : EqDecision PyVal.
Proof. solve_decision. Defined.

Definition str_eqb (a b : str) : bool := bool_decide (a = b).
Definition val_eqb (a b : PyVal) : bool := bool_decide (a = b).

Record Question := {
  q_id : str;
  q_question : str;
  q_type : str;
  q_topic : str;
}.

Record Response := {
  r_question_id : str;
  r_answer : str;
  r_submitted_at : datetime;
}.

Record InterviewDoc := {
  iv_id : str;
  iv_user_id : PyVal;
  iv_job_role : str;
  iv_experience_level : str;
  iv_interview_type : str;
  iv_status : str;
  iv_questions : list Question;
  iv_responses : list Response;
  iv_feedback : option str;
  iv_created_at : datetime;
  iv_completed_at : option datetime;
}.

Record UserDoc := {
  u_id : str;
  u_email : str;
  u_name : str;
  u_password : str;
  u_created_at : datetime;
}.

Record ResumeDoc := {
  rs_id : str;
  rs_user_id : PyVal;
  rs_filename : str;
  rs_text_content : str;
  rs_uploaded_at : datetime;
}.

(** Request bodies. *)
Record UserRegistration := {
  reg_email : str;
  reg_password : str;
  reg_name : str;
}.

Record InterviewRequest := {
  req_job_role : str;
  req_experience_level : str;
  req_interview_type : str;
}.

Record InterviewResponse := {
  rsp_question_id : str;
  rsp_answer : str;
}.

(** Response bodies. *)
Record TokenResponse := {
  tr_access_token : str;
  tr_token_type : str;
  tr_user_id : str;
  tr_user_email : str;
  tr_user_name : str;
}.

Record UploadResult := {
  up_message : str;
  up_resume_id : str;
  up_text_preview : str;
}.

Record StartResult := {
  st_interview_id : str;
  st_questions : list Question;
  st_total_questions : nat;
}.

(** The body of submit-response: [feedback] is present only in the
    completed answer, [next_question] only in the other. *)
Record SubmitResult := {
  sr_message : str;
  sr_completed : bool;
  sr_feedback : option str;
  sr_next_question : option nat;
}.

(** An uploaded file. *)
Record UploadFile := {
  file_filename : str;
  file_content : list N;
}.

(** The chat client as configured by [LlmChat(...).with_model(...)]. *)
Record LlmChat := {
  chat_api_key : PyVal;
  chat_session_id : str;
  chat_system_message : str;
  chat_provider : str;
  chat_model : str;
}.

(** ** The outside world *)

(** What one call of the generation service does: it returns the reply
    text, or raises an exception with the given message. Building the
    client and the message happens inside the same [try], so a failure
    there counts as [Raised] too. A reply is a string, as the client's
    contract says. *)
Inductive LlmOutcome :=
| Reply (text : str)
| Raised (msg : str).

Record Env := {
  (** [os.environ.get('GEMINI_API_KEY')] *)
  GEMINI_API_KEY : PyVal;
  (** [str(uuid.uuid4())] *)
  uuid4_at : nat -> str;
  (** [datetime.utcnow()] *)
  utcnow_at : nat -> datetime;
  (** [await chat.send_message(UserMessage(text))] *)
  send_message_at : nat -> LlmChat -> str -> LlmOutcome;
  (** [pwd_context.hash] (salted, hence dependent on the instant). *)
  hash_at : nat -> str -> str;
  (** [jwt.encode(payload, key, algorithm)] *)
  jwt_encode : gmap str PyVal -> str -> str -> str;
  (** [jwt.decode(token, key, algorithms)]: the payload, or [None] when a
      [PyJWTError] is raised (the expiry check reads the clock). *)
  jwt_decode_at : nat -> str -> str -> list str -> option (gmap str PyVal);
  (** [PyPDF2.PdfReader(f)] and the concatenated [extract_text()] of its
      pages: the text, or the message of the exception raised. *)
  pdf_extract_text : list N -> str + str;
}.

Record World := {
  db_users : list UserDoc;
  db_resumes : list ResumeDoc;
  db_interviews : list InterviewDoc;
  tick : nat;
  stdout : list str;
}.

Definition set_users (f : list UserDoc -> list UserDoc) (w : World) : World :=
  {| db_users := f (db_users w); db_resumes := db_resumes w;
     db_interviews := db_interviews w; tick := tick w; stdout := stdout w |}.

Definition set_resumes (f : list ResumeDoc -> list ResumeDoc) (w : World) : World :=
  {| db_users := db_users w; db_resumes := f (db_resumes w);
     db_interviews := db_interviews w; tick := tick w; stdout := stdout w |}.

Definition set_interviews (f : list InterviewDoc -> list InterviewDoc)
    (w : World) : World :=
  {| db_users := db_users w; db_resumes := db_resumes w;
     db_interviews := f (db_interviews w); tick := tick w; stdout := stdout w |}.

Definition set_tick (n : nat) (w : World) : World :=
  {| db_users := db_users w; db_resumes := db_resumes w;
     db_interviews := db_interviews w; tick := n; stdout := stdout w |}.

Definition set_stdout (f : list str -> list str) (w : World) : World :=
  {| db_users := db_users w; db_resumes := db_resumes w;
     db_interviews := db_interviews w; tick := tick w; stdout := f (stdout w) |}.

(** ** Exceptions and the monad *)

Inductive Exc :=
| HTTPException (status_code : Z) (detail : str)
| PyJWTError
| LlmError (msg : str)
| TypeError.

(** [except Exception] catches every exception of the model. *)
Definition is_Exception (e : Exc) : bool := true.

(** [except jwt.PyJWTError] *)
Definition is_PyJWTError (e : Exc) : bool :=
  match e with PyJWTError => true | _ => false end.

(** [str(e)]; only the message of a failed generation call is ever
    printed. *)
Definition str_of_exc (e : Exc) : str :=
  match e with
  | HTTPException c d => d
  | PyJWTError => []
  | LlmError m => m
  | TypeError => lit "'NoneType' object is not subscriptable"
  end.

Definition M (A : Type) : Type := World -> (Exc + A) * World.

Definition ret {A} (a : A) : M A := fun w => (inr a, w).

Definition bind {A B} (m : M A) (k : A -> M B) : M B :=
  fun w => match m w with
           | (inr a, w') => k a w'
           | (inl e, w') => (inl e, w')
           end.

Definition raise {A} (e : Exc) : M A := fun w => (inl e, w).

(** [try: body except <class> as e: handler e] *)
Definition try_except {A} (body : M A) (catches : Exc -> bool)
    (handler : Exc -> M A) : M A :=
  fun w => match body w with
           | (inl e, w') => if catches e then handler e w' else (inl e, w')
           | r => r
           end.

Declare Scope py_scope.
Delimit Scope py_scope with py.
Notation "'let*' x ':=' c 'in' k" := (bind c (fun x => k))
  (at level 10, x name, c at level 100, k at level 200) : py_scope.
#[local] Open Scope py_scope.

Definition get_world : M World := fun w => (inr w, w).
Definition modify (f : World -> World) : M unit := fun w => (inr tt, f w).

(** One consultation of the outside world. *)
Definition consult {A} (f : nat -> A) : M A :=
  fun w => (inr (f (tick w)), set_tick (S (tick w)) w).

Definition print (s : str) : M unit := modify (set_stdout (fun o => o ++ [s])).

(** *** Collections *)

(** [find_one(filter)]: the first matching document in natural order. *)
Fixpoint find_one {A} (p : A -> bool) (docs : list A) : option A :=
  match docs with
  | [] => None
  | d :: ds => if p d then Some d else find_one p ds
  end.

(** [find_one(filter, sort=[(key, -1)])]: a matching document of greatest
    key; among equal keys the first in natural order. *)
Fixpoint find_one_latest {A} (p : A -> bool) (key : A -> Z) (docs : list A)
    : option A :=
  match docs with
  | [] => None
  | d :: ds =>
      match find_one_latest p key ds with
      | Some d' => if p d && (key d' <=? key d)%Z then Some d else Some d'
      | None => if p d then Some d else None
      end
  end.

(** [update_one(filter, update)]: only the first matching document. *)
Fixpoint update_one {A} (p : A -> bool) (f : A -> A) (docs : list A) : list A :=
  match docs with
  | [] => []
  | d :: ds => if p d then f d :: ds else d :: update_one p f ds
  end.

Definition insert_one {A} (d : A) (docs : list A) : list A := docs ++ [d].

(** [{"$push": {"responses": r}}] *)
Definition push_response (r : Response) (d : InterviewDoc) : InterviewDoc :=
  {| iv_id := iv_id d; iv_user_id := iv_user_id d; iv_job_role := iv_job_role d;
     iv_experience_level := iv_experience_level d;
     iv_interview_type := iv_interview_type d; iv_status := iv_status d;
     iv_questions := iv_questions d; iv_responses := iv_responses d ++ [r];
     iv_feedback := iv_feedback d; iv_created_at := iv_created_at d;
     iv_completed_at := iv_completed_at d |}.

(** [{"$set": {"status": s, "feedback": f, "completed_at": t}}] *)
Definition set_status_feedback_completed_at (s f : str) (t : datetime)
    (d : InterviewDoc) : InterviewDoc :=
  {| iv_id := iv_id d; iv_user_id := iv_user_id d; iv_job_role := iv_job_role d;
     iv_experience_level := iv_experience_level d;
     iv_interview_type := iv_interview_type d; iv_status := s;
     iv_questions := iv_questions d; iv_responses := iv_responses d;
     iv_feedback := Some f; iv_created_at := iv_created_at d;
     iv_completed_at := Some t |}.

Definition interviews_find_one (p : InterviewDoc -> bool) : M (option InterviewDoc) :=
  let* w := get_world in ret (find_one p (db_interviews w)).

Definition interviews_find_one_latest (p : InterviewDoc -> bool)
    (key : InterviewDoc -> Z) : M (option InterviewDoc) :=
  let* w := get_world in ret (find_one_latest p key (db_interviews w)).

Definition interviews_update_one (p : InterviewDoc -> bool)
    (f : InterviewDoc -> InterviewDoc) : M unit :=
  modify (set_interviews (update_one p f)).

Definition interviews_insert_one (d : InterviewDoc) : M unit :=
  modify (set_interviews (insert_one d)).

Section Server.

Context (E : Env).

Definition uuid4 : M str := consult (uuid4_at E).
Definition utcnow : M datetime := consult (utcnow_at E).

Definition send_message (chat : LlmChat) (text : str) : M str :=
  let* r := consult (fun k => send_message_at E k chat text) in
  match r with
  | Reply text => ret text
  | Raised msg => raise (LlmError msg)
  end.

(** *** Token helpers *)

Definition SECRET_KEY : str := lit "your-secret-key-here".
Definition ALGORITHM : str := lit "HS256".

Definition minutes (n : Z) : Z := (n * 60000000)%Z.

(** [if expires_delta:] is false for [None] and for a zero timedelta. *)
Definition create_access_token (data : gmap str PyVal)
    (expires_delta : option Z) : M str :=
  let to_encode := data in
  let* expire :=
    match expires_delta with
    | Some d =>
        if (d =? 0)%Z
        then (let* now := utcnow in ret (now + minutes 15)%Z)
        else (let* now := utcnow in ret (now + d)%Z)
    | None => let* now := utcnow in ret (now + minutes 15)%Z
    end in
  let to_encode := <[lit "exp" := PyDatetime expire]> to_encode in
  ret (jwt_encode E to_encode SECRET_KEY ALGORITHM).

Definition invalid_credentials : Exc :=
  HTTPException 401 (lit "Invalid authentication credentials").

Definition get_current_user (credentials : str) : M PyVal :=
  try_except
    (let* r := consult (fun k =>
                 jwt_decode_at E k credentials SECRET_KEY [ALGORITHM]) in
     match r with
     | None => raise PyJWTError
     | Some payload =>
         let user_id := default PyNone (payload !! lit "sub") in
         match user_id with
         | PyNone => raise invalid_credentials
         | _ => ret user_id
         end
     end)
    is_PyJWTError
    (fun _ => raise invalid_credentials).

(** *** Question generator *)

Definition ind : str := lit "            ".

Definition questions_system_message (job_role experience_level : str) : str :=
  unlines
    [ lit "You are an expert technical interviewer conducting interviews for "
        ++ job_role ++ lit " positions at " ++ experience_level ++ lit " level. ";
      ind ++ lit "Based on the candidate's resume, generate 5-7 relevant interview questions that cover:";
      ind ++ lit "1. Technical skills mentioned in the resume";
      ind ++ lit "2. Projects and experience";
      ind ++ lit "3. Problem-solving abilities";
      ind ++ lit "4. Role-specific knowledge";
      ind;
      ind ++ lit "Return the questions in JSON format as an array of objects with 'id', 'question', 'type' (technical/behavioral), and 'topic' fields." ].

Definition questions_user_message
    (resume_text job_role experience_level : str) : str :=
  unlines
    [ lit "Resume Content: " ++ take 3000 resume_text;
      ind;
      ind ++ lit "Job Role: " ++ job_role;
      ind ++ lit "Experience Level: " ++ experience_level;
      ind;
      ind ++ lit "Generate appropriate interview questions based on this resume and role." ].

Definition gemini (session_id system_message : str) : LlmChat :=
  {| chat_api_key := GEMINI_API_KEY E;
     chat_session_id := session_id; chat_system_message := system_message;
     chat_provider := lit "gemini"; chat_model := lit "gemini-2.0-flash" |}.

(** One dict literal [{"id": str(uuid.uuid4()), "question": .., "type": ..,
    "topic": ..}]: the identity is drawn when the literal is evaluated. *)
Definition new_question (question type topic : str) : M Question :=
  let* id := uuid4 in
  ret {| q_id := id; q_question := question; q_type := type; q_topic := topic |}.

(** [for i, q in enumerate(lines): if q.strip() and not q.startswith('#'):
    questions.append({...})], started at index [i] with the list built
    so far. *)
Fixpoint parse_loop (i : nat) (lines : list str) (questions : list Question)
    : M (list Question) :=
  match lines with
  | [] => ret questions
  | q :: rest =>
      if truthy (strip q) && negb (startswith_hash q) then
        let* d := new_question (strip q)
                    (if i mod 2 =? 0 then lit "technical" else lit "behavioral")
                    (lit "general") in
        parse_loop (S i) rest (questions ++ [d])
      else parse_loop (S i) rest questions
  end.

(** The list literal substituted when fewer than three questions parse. *)
Definition parse_fallback (job_role : str) : M (list Question) :=
  let* q1 := new_question
      (lit "Tell me about your experience with " ++ job_role ++ lit " technologies.")
      (lit "technical") (lit "experience") in
  let* q2 := new_question
      (lit "Walk me through a challenging project you've worked on.")
      (lit "behavioral") (lit "projects") in
  let* q3 := new_question
      (lit "How do you stay updated with the latest trends in " ++ job_role ++ lit "?")
      (lit "behavioral") (lit "learning") in
  let* q4 := new_question
      (lit "Describe a time when you had to solve a complex technical problem.")
      (lit "technical") (lit "problem-solving") in
  let* q5 := new_question
      (lit "What interests you most about working as a " ++ job_role ++ lit "?")
      (lit "behavioral") (lit "motivation") in
  ret [q1; q2; q3; q4; q5].

(** The list literal returned by the [except] branch. *)
Definition except_fallback (job_role : str) : M (list Question) :=
  let* q1 := new_question
      (lit "Tell me about your experience in " ++ job_role ++ lit ".")
      (lit "technical") (lit "experience") in
  let* q2 := new_question
      (lit "Walk me through your most challenging project.")
      (lit "behavioral") (lit "projects") in
  let* q3 := new_question
      (lit "How do you approach problem-solving?")
      (lit "technical") (lit "problem-solving") in
  ret [q1; q2; q3].

Definition generate_interview_questions
    (resume_text job_role experience_level : str) : M (list Question) :=
  try_except
    (let* u := uuid4 in
     let chat := gemini (lit "interview_" ++ u)
                   (questions_system_message job_role experience_level) in
     let user_message :=
       questions_user_message resume_text job_role experience_level in
     let* response := send_message chat user_message in
     let question_texts := split_nl response in
     let* questions := parse_loop 0 (take 7 question_texts) [] in
     if length questions <? 3 then parse_fallback job_role else ret questions)
    is_Exception
    (fun e =>
       let* _ := print (lit "Error generating questions: " ++ str_of_exc e) in
       except_fallback job_role).

(** *** Feedback generator *)

Definition feedback_system_message (job_role : str) : str :=
  unlines
    [ lit "You are an expert interviewer providing detailed feedback for a "
        ++ job_role ++ lit " interview. ";
      ind ++ lit "Analyze the candidate's responses and provide constructive feedback covering:";
      ind ++ lit "1. Strengths demonstrated";
      ind ++ lit "2. Areas for improvement";
      ind ++ lit "3. Technical knowledge assessment";
      ind ++ lit "4. Communication skills";
      ind ++ lit "5. Overall interview performance";
      ind ++ lit "6. Specific recommendations for improvement";
      ind;
      ind ++ lit "Provide a comprehensive but concise feedback report." ].

(** [for i, (q, r) in enumerate(zip(questions, responses)):
    interview_content += ...], started at index [i]. *)
Fixpoint transcript_loop (i : nat) (questions : list Question)
    (responses : list Response) (interview_content : str) : str :=
  match questions, responses with
  | q :: qs, r :: rs =>
      transcript_loop (S i) qs rs
        (interview_content
           ++ (lit "Q" ++ str_of_nat (i + 1) ++ lit ": " ++ q_question q ++ nl)
           ++ (lit "A" ++ str_of_nat (i + 1) ++ lit ": " ++ r_answer r ++ nl ++ nl))
  | _, _ => interview_content
  end.

Definition feedback_fallback : str :=
  lit "Thank you for completing the interview. Your responses have been recorded and our team will review them shortly.".

Definition generate_feedback (questions : list Question)
    (responses : list Response) (job_role : str) : M str :=
  try_except
    (let* u := uuid4 in
     let chat := gemini (lit "feedback_" ++ u) (feedback_system_message job_role) in
     let interview_content :=
       transcript_loop 0 questions responses
         (lit "Interview Questions and Responses:" ++ nl ++ nl) in
     let user_message :=
       lit "Job Role: " ++ job_role ++ nl ++ nl ++ interview_content ++ nl ++ nl
         ++ lit "Provide detailed feedback on this interview performance." in
     let* response := send_message chat user_message in
     ret response)
    is_Exception
    (fun e =>
       let* _ := print (lit "Error generating feedback: " ++ str_of_exc e) in
       ret feedback_fallback).

(** *** Routes *)

Definition register (user : UserRegistration) : M TokenResponse :=
  let* w := get_world in
  match find_one (fun d => str_eqb (u_email d) (reg_email user)) (db_users w) with
  | Some _ => raise (HTTPException 400 (lit "Email already registered"))
  | None =>
      let* user_id := uuid4 in
      let* hashed_password := consult (fun k => hash_at E k (reg_password user)) in
      let* now := utcnow in
      let user_doc :=
        {| u_id := user_id; u_email := reg_email user; u_name := reg_name user;
           u_password := hashed_password; u_created_at := now |} in
      let* _ := modify (set_users (insert_one user_doc)) in
      let* access_token :=
        create_access_token {[ lit "sub" := PyStr user_id ]} (Some (days 1)) in
      ret {| tr_access_token := access_token; tr_token_type := lit "bearer";
             tr_user_id := user_id; tr_user_email := reg_email user;
             tr_user_name := reg_name user |}
  end.

(** [s.endswith('.pdf')] *)
Definition endswith_pdf (s : str) : bool :=
  str_eqb (drop (length s - 4) s) (lit ".pdf").

Definition extract_text_from_pdf (pdf_file : list N) : M str :=
  match pdf_extract_text E pdf_file with
  | inl text => ret text
  | inr msg => raise (HTTPException 400 (lit "Error reading PDF: " ++ msg))
  end.

Definition upload_resume (file : UploadFile) (user_id : PyVal) : M UploadResult :=
  if negb (endswith_pdf (file_filename file)) then
    raise (HTTPException 400 (lit "Only PDF files are allowed"))
  else
    let* resume_text := extract_text_from_pdf (file_content file) in
    let* id := uuid4 in
    let* now := utcnow in
    let resume_doc :=
      {| rs_id := id; rs_user_id := user_id; rs_filename := file_filename file;
         rs_text_content := resume_text; rs_uploaded_at := now |} in
    let* _ := modify (set_resumes (insert_one resume_doc)) in
    ret {| up_message := lit "Resume uploaded successfully";
           up_resume_id := rs_id resume_doc;
           up_text_preview :=
             if 200 <? length resume_text
             then take 200 resume_text ++ lit "..." else resume_text |}.

Definition start_interview (request : InterviewRequest) (user_id : PyVal)
    : M StartResult :=
  let* w := get_world in
  match find_one_latest (fun d => val_eqb (rs_user_id d) user_id)
          rs_uploaded_at (db_resumes w) with
  | None => raise (HTTPException 400 (lit "Please upload a resume first"))
  | Some resume =>
      let* questions :=
        generate_interview_questions (rs_text_content resume)
          (req_job_role request) (req_experience_level request) in
      let* interview_id := uuid4 in
      let* now := utcnow in
      let interview_doc :=
        {| iv_id := interview_id; iv_user_id := user_id;
           iv_job_role := req_job_role request;
           iv_experience_level := req_experience_level request;
           iv_interview_type := req_interview_type request;
           iv_status := lit "in_progress";
           iv_questions := questions; iv_responses := [];
           iv_feedback := None; iv_created_at := now;
           iv_completed_at := None |} in
      let* _ := interviews_insert_one interview_doc in
      ret {| st_interview_id := interview_id; st_questions := questions;
             st_total_questions := length questions |}
  end.

(** The filter [{"user_id": user_id, "status": "in_progress"}]. *)
Definition open_for (user_id : PyVal) (d : InterviewDoc) : bool :=
  val_eqb (iv_user_id d) user_id && str_eqb (iv_status d) (lit "in_progress").

(** The filter [{"id": id}]. *)
Definition has_id (id : str) (d : InterviewDoc) : bool := str_eqb (iv_id d) id.

Definition no_active_interview : Exc :=
  HTTPException 404 (lit "No active interview found").

Definition submit_response (response : InterviewResponse) (user_id : PyVal)
    : M SubmitResult :=
  let* found := interviews_find_one_latest (open_for user_id) iv_created_at in
  match found with
  | None => raise no_active_interview
  | Some interview =>
      let* now := utcnow in
      let response_doc :=
        {| r_question_id := rsp_question_id response;
           r_answer := rsp_answer response; r_submitted_at := now |} in
      let* _ := interviews_update_one (has_id (iv_id interview))
                  (push_response response_doc) in
      let* reread := interviews_find_one (has_id (iv_id interview)) in
      match reread with
      | None => raise TypeError
      | Some updated_interview =>
          if length (iv_questions updated_interview)
               <=? length (iv_responses updated_interview) then
            let* feedback :=
              generate_feedback (iv_questions updated_interview)
                (iv_responses updated_interview)
                (iv_job_role updated_interview) in
            let* done := utcnow in
            let* _ := interviews_update_one (has_id (iv_id interview))
                        (set_status_feedback_completed_at (lit "completed")
                           feedback done) in
            ret {| sr_message := lit "Interview completed!";
                   sr_completed := true; sr_feedback := Some feedback;
                   sr_next_question := None |}
          else
            ret {| sr_message := lit "Response recorded";
                   sr_completed := false; sr_feedback := None;
                   sr_next_question :=
                     Some (length (iv_responses updated_interview)) |}
      end
  end.

Definition get_interview (interview_id : str) (user_id : PyVal)
    : M InterviewDoc :=
  let* found := interviews_find_one
      (fun d => str_eqb (iv_id d) interview_id && val_eqb (iv_user_id d) user_id) in
  match found with
  | None => raise (HTTPException 404 (lit "Interview not found"))
  | Some interview => ret interview
  end.

(** *** Sequences of calls *)

(** Consecutive submit-response calls of one caller, one per element. *)
Fixpoint submit_each (responses : list InterviewResponse) (user_id : PyVal)
    : M (list SubmitResult) :=
  match responses with
  | [] => ret []
  | r :: rs =>
      let* x := submit_response r user_id in
      let* xs := submit_each rs user_id in
      ret (x :: xs)
  end.

Inductive Call :=
| CallRegister (user : UserRegistration)
| CallUploadResume (file : UploadFile) (user_id : PyVal)
| CallStartInterview (request : InterviewRequest) (user_id : PyVal)
| CallSubmitResponse (response : InterviewResponse) (user_id : PyVal)
| CallGetInterview (interview_id : str) (user_id : PyVal).

(** The world a call leaves behind, whether it answers or raises. *)
Definition after (c : Call) (w : World) : World :=
  match c with
  | CallRegister user => snd (register user w)
  | CallUploadResume file user_id => snd (upload_resume file user_id w)
  | CallStartInterview request user_id => snd (start_interview request user_id w)
  | CallSubmitResponse response user_id => snd (submit_response response user_id w)
  | CallGetInterview interview_id user_id => snd (get_interview interview_id user_id w)
  end.

(** Worlds reached from an empty interview collection by calls made one
    after the other. *)
Inductive Reachable : World -> Prop :=
| Reachable_init w : db_interviews w = [] -> Reachable w
| Reachable_call c w : Reachable w -> Reachable (after c w).

(** *** What the parsing loop keeps *)

Definition keeps (q : str) : bool :=
  truthy (strip q) && negb (startswith_hash q).

(** The kept lines with their index in the enumeration from [i]. *)
Fixpoint kept (i : nat) (lines : list str) : list (nat * str) :=
  match lines with
  | [] => []
  | q :: rest => if keeps q then (i, q) :: kept (S i) rest else kept (S i) rest
  end.

Definition tag_of_index (i : nat) : str :=
  if i mod 2 =? 0 then lit "technical" else lit "behavioral".

(** The question made of the line [iq], its identity drawn at instant [k]. *)
Definition question_of_line (k : nat) (iq : nat * str) : Question :=
  {| q_id := uuid4_at E k; q_question := strip (snd iq);
     q_type := tag_of_index (fst iq); q_topic := lit "general" |}.

(** Consecutive draws, one per kept line, the first at instant [k]. *)
Fixpoint questions_from (k : nat) (l : list (nat * str)) : list Question :=
  match l with
  | [] => []
  | iq :: l' => question_of_line k iq :: questions_from (S k) l'
  end.

(** What the generation service does when the question generator is
    entered at instant [k]: the session identity is drawn at [k], the
    call is made at [k + 1]. *)
Definition questions_outcome (resume_text job_role experience_level : str)
    (k : nat) : LlmOutcome :=
  send_message_at E (S k)
    (gemini (lit "interview_" ++ uuid4_at E k)
       (questions_system_message job_role experience_level))
    (questions_user_message resume_text job_role experience_level).

(** The same for the feedback generator. *)
Definition feedback_outcome (questions : list Question)
    (responses : list Response) (job_role : str) (k : nat) : LlmOutcome :=
  send_message_at E (S k)
    (gemini (lit "feedback_" ++ uuid4_at E k) (feedback_system_message job_role))
    (lit "Job Role: " ++ job_role ++ nl ++ nl
       ++ transcript_loop 0 questions responses
            (lit "Interview Questions and Responses:" ++ nl ++ nl)
       ++ nl ++ nl
       ++ lit "Provide detailed feedback on this interview performance.").

(** The questions parsed from a reply, identities drawn from instant [k]. *)
Definition parsed (text : str) (k : nat) : list Question :=
  questions_from k (kept 0 (take 7 (split_nl text))).

(** A question without its identity. *)
Definition content (q : Question) : str * str * str :=
  (q_question q, q_type q, q_topic q).

(** The content of the three questions of the [except] branch. *)
Definition except_content (job_role : str) : list (str * str * str) :=
  [ (lit "Tell me about your experience in " ++ job_role ++ lit ".",
     lit "technical", lit "experience");
    (lit "Walk me through your most challenging project.",
     lit "behavioral", lit "projects");
    (lit "How do you approach problem-solving?",
     lit "technical", lit "problem-solving") ].

(** The response as stored: identity and answer as supplied, stamped
    with the clock read after the lookup. *)
Definition stored (response : InterviewResponse) (w : World) : Response :=
  {| r_question_id := rsp_question_id response;
     r_answer := rsp_answer response;
     r_submitted_at := utcnow_at E (tick w) |}.

(** The world after the [$push], before completion is checked. *)
Definition pushed (i : nat) (d : InterviewDoc) (w : World) : World :=
  {| db_users := db_users w; db_resumes := db_resumes w;
     db_interviews := <[i := d]> (db_interviews w);
     tick := S (tick w); stdout := stdout w |}.

(** The documents a call can put in place of a document [d]. *)
Inductive Rewritten (d : InterviewDoc) : InterviewDoc -> Prop :=
| Rewritten_same : Rewritten d d
| Rewritten_pushed rd : Rewritten d (push_response rd d)
| Rewritten_completed fb t :
    Rewritten d (set_status_feedback_completed_at (lit "completed") fb t d)
| Rewritten_pushed_completed rd fb t :
    Rewritten d (set_status_feedback_completed_at (lit "completed") fb t
                   (push_response rd d)).

(** Feedback is present exactly on completed interviews. *)
Definition feedback_iff_completed (d : InterviewDoc) : Prop :=
  iv_feedback d <> None <-> iv_status d = lit "completed".

(** An interview is open with questions left, or completed with as many
    responses as questions. *)
Definition counted (d : InterviewDoc) : Prop :=
  (iv_status d = lit "in_progress"
   /\ length (iv_responses d) < length (iv_questions d))
  \/ (iv_status d = lit "completed"
      /\ length (iv_responses d) = length (iv_questions d)).

(** Every stored identity was drawn before the current instant. *)
Definition drawn_before (w : World) (d : InterviewDoc) : Prop :=
  exists k, k < tick w /\ iv_id d = uuid4_at E k.

Definition well_formed (w : World) : Prop :=
  NoDup (map iv_id (db_interviews w))
  /\ Forall (drawn_before w) (db_interviews w)
  /\ Forall counted (db_interviews w).

(** No two draws of [uuid.uuid4()] give the same identity. *)
Definition uuid4_fresh : Prop :=
  forall j k : nat, uuid4_at E j = uuid4_at E k -> j = k.

(** At instant [k] decoding accepts [token] and returns the subject
    claim that was encoded into it. Nothing is asked of the other claims:
    the library writes the expiry in whole seconds, so the claims decoded
    need not be the claims encoded. *)
Definition codec_keeps_sub (k : nat) (token : str) : Prop :=
  forall payload key alg,
    token = jwt_encode E payload key alg ->
    exists decoded,
      jwt_decode_at E k token key [alg] = Some decoded
      /\ decoded !! lit "sub" = payload !! lit "sub".

End Server.

(** ** The parsing policy in the words of the specification *)

(** Every non-empty line that does not start with the heading marker. *)
Definition spec_lines (text : str) : list str :=
  List.filter (fun q => truthy q && negb (startswith_hash q)) (split_nl text).

(** Tags alternating by question position, technical first. *)
Fixpoint spec_tags (n : nat) (technical : bool) : list str :=
  match n with
  | 0 => []
  | S n' => (if technical then lit "technical" else lit "behavioral")
              :: spec_tags n' (negb technical)
  end.

(** The question texts and tags the specification's policy yields: the
    first seven qualifying lines. *)
Definition spec_parse (text : str) : list (str * str) :=
  let qs := take 7 (spec_lines text) in
  zip qs (spec_tags (length qs) true).

(** ** A concrete environment *)

#[global] Instance PyVal_countable : Countable PyVal.
Proof.
  refine (inj_countable'
            (fun v => match v with
                      | PyStr s => inl s
                      | PyDatetime t => inr (inl t)
                      | PyNone => inr (inr ())
                      end)
            (fun x => match x with
                      | inl s => PyStr s
                      | inr (inl t) => PyDatetime t
                      | inr (inr _) => PyNone
                      end) _).
  by intros [].
Defined.

Module Demo.

(** Identities [id-0], [id-1], ...; the clock reads the instant; the
    token is the payload's code as one code point; the generation service
    is the parameter [llm]. *)
Definition env (llm : nat -> LlmOutcome) : Env :=
  {| GEMINI_API_KEY := PyNone;
     uuid4_at := fun k => lit "id-" ++ str_of_nat k;
     utcnow_at := fun k => Z.of_nat k;
     send_message_at := fun k _ _ => llm k;
     hash_at := fun _ password => lit "$2b$" ++ password;
     jwt_encode := fun payload _ _ => [Npos (encode payload)];
     jwt_decode_at := fun _ token _ _ =>
       match token with
       | [Npos c] => decode c
       | _ => None
       end;
     pdf_extract_text := fun content => inl content |}.

Definition down : nat -> LlmOutcome := fun _ => Raised (lit "503").

Definition says (text : string) : nat -> LlmOutcome := fun _ => Reply (lit text).

Definition empty_world : World :=
  {| db_users := []; db_resumes := []; db_interviews := []; tick := 0;
     stdout := [] |}.

Definition alice : PyVal := PyStr (lit "alice").

Definition cv : UploadFile :=
  {| file_filename := lit "cv.pdf"; file_content := lit "Ten years of Rocq." |}.

Definition sre : InterviewRequest :=
  {| req_job_role := lit "SRE"; req_experience_level := lit "mid";
     req_interview_type := lit "text" |}.

Definition answer (question_id : string) : InterviewResponse :=
  {| rsp_question_id := lit question_id; rsp_answer := lit "It depends." |}.

(** The service is down; alice uploads a resume and starts an interview:
    three questions, none answered. *)
Definition started : World :=
  after (env down) (CallStartInterview sre alice)
    (after (env down) (CallUploadResume cv alice) empty_world).

(** Two of the three questions answered. *)
Definition one_to_go : World :=
  after (env down) (CallSubmitResponse (answer "q2") alice)
    (after (env down) (CallSubmitResponse (answer "q1") alice) started).

(** An identity source that repeats itself, to show what the assumption
    of distinct identities is for. *)
Definition stuck : Env :=
  {| GEMINI_API_KEY := PyNone;
     uuid4_at := fun _ => lit "same";
     utcnow_at := fun k => Z.of_nat k;
     send_message_at := fun k _ _ => down k;
     hash_at := fun _ password => lit "$2b$" ++ password;
     jwt_encode := fun payload _ _ => [Npos (encode payload)];
     jwt_decode_at := fun _ token _ _ =>
       match token with
       | [Npos c] => decode c
       | _ => None
       end;
     pdf_extract_text := fun content => inl content |}.

Definition bob : PyVal := PyStr (lit "bob").

(** Alice and bob each start an interview; alice answers her three
    questions; then bob answers one. *)
Definition crossed : World :=
  fold_left (fun w c => after stuck c w)
    [ CallUploadResume cv alice; CallUploadResume cv bob;
      CallStartInterview sre alice; CallStartInterview sre bob;
      CallSubmitResponse (answer "a1") alice;
      CallSubmitResponse (answer "a2") alice;
      CallSubmitResponse (answer "a3") alice;
      CallSubmitResponse (answer "b1") bob ]
    empty_world.

End Demo.

(** ** The remaining routes *)

Record UserLogin := {
  login_email : str;
  login_password : str;
}.

Section MoreRoutes.

Context (E : Env).

(** [pwd_context.verify(plain_password, hashed_password)] *)
Context (verify_password : str -> str -> bool).

Definition invalid_login : Exc :=
  HTTPException 401 (lit "Invalid email or password").

Definition login (user : UserLogin) : M TokenResponse :=
  let* w := get_world in
  match find_one (fun d => str_eqb (u_email d) (login_email user)) (db_users w) with
  | None => raise invalid_login
  | Some db_user =>
      if negb (verify_password (login_password user) (u_password db_user)) then
        raise invalid_login
      else
        let* access_token :=
          create_access_token E {[ lit "sub" := PyStr (u_id db_user) ]}
            (Some (days 1)) in
        ret {| tr_access_token := access_token; tr_token_type := lit "bearer";
               tr_user_id := u_id db_user; tr_user_email := u_email db_user;
               tr_user_name := u_name db_user |}
  end.

(** [{"status": "healthy", "timestamp": datetime.utcnow()}] *)
Definition health_check : M (str * datetime) :=
  let* now := utcnow E in ret (lit "healthy", now).

(** [cursor.sort(key, -1)]: descending by key; documents of equal key
    stay in natural order. *)
Fixpoint insert_desc {A} (key : A -> Z) (d : A) (l : list A) : list A :=
  match l with
  | [] => [d]
  | x :: xs => if (key x <=? key d)%Z then d :: l else x :: insert_desc key d xs
  end.

Fixpoint sort_desc {A} (key : A -> Z) (l : list A) : list A :=
  match l with
  | [] => []
  | d :: ds => insert_desc key d (sort_desc key ds)
  end.

(** [db.interviews.find({"user_id": user_id}).sort("created_at", -1)
    .to_list(50)] *)
Definition get_interview_history (user_id : PyVal) : M (list InterviewDoc) :=
  let* w := get_world in
  ret (take 50 (sort_desc iv_created_at
                  (List.filter (fun d => val_eqb (iv_user_id d) user_id)
                     (db_interviews w)))).

(** Every route. *)
Inductive Request :=
| Routed (c : Call)
| Login (user : UserLogin)
| History (user_id : PyVal)
| Health.

Definition serve (r : Request) (w : World) : World :=
  match r with
  | Routed c => after E c w
  | Login user => snd (login user w)
  | History user_id => snd (get_interview_history user_id w)
  | Health => snd (health_check w)
  end.

(** Requests served one after the other. *)
Definition serve_all (rs : list Request) (w : World) : World :=
  fold_left (fun w r => serve r w) rs w.

(** The hasher accepts, at every instant, the hash it makes. *)
Definition hasher_sound : Prop :=
  forall k password, verify_password password (hash_at E k password) = true.

(** *** Names for the statements below *)

(** The filter [{"user_id": user_id}] on resumes. *)
Definition owns_resume (user_id : PyVal) (d : ResumeDoc) : bool :=
  val_eqb (rs_user_id d) user_id.

(** The transcript of a list of paired texts. *)
Fixpoint transcript_of_pairs (i : nat) (pairs : list (str * str))
    (interview_content : str) : str :=
  match pairs with
  | [] => interview_content
  | (q, a) :: rest =>
      transcript_of_pairs (S i) rest
        (interview_content
           ++ (lit "Q" ++ str_of_nat (i + 1) ++ lit ": " ++ q ++ nl)
           ++ (lit "A" ++ str_of_nat (i + 1) ++ lit ": " ++ a ++ nl ++ nl))
  end.

(** The validity of a token: the given one, or fifteen minutes when none
    or a zero one is given. *)
Definition validity (expires_delta : option Z) : Z :=
  match expires_delta with
  | Some d => if (d =? 0)%Z then minutes 15 else d
  | None => minutes 15
  end.

(** The filter [{"email": email}]. *)
Definition has_email (email : str) (d : UserDoc) : bool :=
  str_eqb (u_email d) email.

(** The document a registration stores. *)
Definition new_user (user : UserRegistration) (w : World) : UserDoc :=
  {| u_id := uuid4_at E (tick w); u_email := reg_email user;
     u_name := reg_name user;
     u_password := hash_at E (S (tick w)) (reg_password user);
     u_created_at := utcnow_at E (S (S (tick w))) |}.

(** The claims of the token issued for [user_id] at instant [k]. *)
Definition issued (user_id : str) (k : nat) : gmap str PyVal :=
  <[lit "exp" := PyDatetime (utcnow_at E k + days 1)%Z]>
    {[ lit "sub" := PyStr user_id ]}.

(** The filter [{"user_id": user_id}] on interviews. *)
Definition owned_by (user_id : PyVal) (d : InterviewDoc) : bool :=
  val_eqb (iv_user_id d) user_id.

(** The filter [{"id": interview_id, "user_id": user_id}]. *)
Definition is_interview_of (interview_id : str) (user_id : PyVal)
    (d : InterviewDoc) : bool :=
  str_eqb (iv_id d) interview_id && val_eqb (iv_user_id d) user_id.

(** What a request never changes in a stored interview; its responses
    only grow at the end. *)
Definition same_core (d d' : InterviewDoc) : Prop :=
  iv_id d' = iv_id d /\ iv_user_id d' = iv_user_id d
  /\ iv_job_role d' = iv_job_role d
  /\ iv_experience_level d' = iv_experience_level d
  /\ iv_interview_type d' = iv_interview_type d
  /\ iv_questions d' = iv_questions d
  /\ iv_created_at d' = iv_created_at d
  /\ iv_responses d `prefix_of` iv_responses d'.

(** Three to seven questions, and a completion time exactly on completed
    interviews. *)
Definition shaped (d : InterviewDoc) : Prop :=
  3 <= length (iv_questions d) <= 7
  /\ (iv_completed_at d <> None <-> iv_status d = lit "completed").

(** Newest first. *)
Definition newer_first {A} (key : A -> Z) (a b : A) : Prop :=
  (key b <= key a)%Z.

End MoreRoutes.

Module Desk.

(** The expiry as the token library writes it: in whole seconds. *)
Definition whole_seconds (v : PyVal) : PyVal :=
  match v with
  | PyDatetime t => PyDatetime (t / 1000000 * 1000000)%Z
  | _ => v
  end.

(** [Demo.env] with a token codec that keeps only the whole seconds of
    the expiry: decoding does not give back the claims encoded. *)
Definition env (llm : nat -> LlmOutcome) : Env :=
  {| GEMINI_API_KEY := GEMINI_API_KEY (Demo.env llm);
     uuid4_at := uuid4_at (Demo.env llm);
     utcnow_at := utcnow_at (Demo.env llm);
     send_message_at := send_message_at (Demo.env llm);
     hash_at := hash_at (Demo.env llm);
     jwt_encode := fun payload _ _ =>
       [Npos (encode (alter whole_seconds (lit "exp") payload))];
     jwt_decode_at := jwt_decode_at (Demo.env llm);
     pdf_extract_text := pdf_extract_text (Demo.env llm) |}.

(** The hasher of [Demo.env] prefixes the password. *)
Definition verify (plain hashed : str) : bool :=
  str_eqb hashed (lit "$2b$" ++ plain).

Definition carol : UserRegistration :=
  {| reg_email := lit "carol@example.org"; reg_password := lit "s3cret";
     reg_name := lit "Carol" |}.

Definition carol_login (password : string) : UserLogin :=
  {| login_email := lit "carol@example.org"; login_password := lit password |}.

Definition notes : UploadFile :=
  {| file_filename := lit "notes.txt"; file_content := lit "plain text" |}.

Definition question (id text : string) : Question :=
  {| q_id := lit id; q_question := lit text;
     q_type := lit "technical"; q_topic := lit "general" |}.

Definition response (id : string) (t : datetime) : Response :=
  {| r_question_id := lit id; r_answer := lit "It depends.";
     r_submitted_at := t |}.

End Desk.

(** ** Worlds *)

Arguments lit : simpl never.
Arguments gemini : simpl never.
Arguments questions_system_message : simpl never.
Arguments questions_user_message : simpl never.
Arguments feedback_system_message : simpl never.
Arguments transcript_loop : simpl never.
Arguments split_nl : simpl never.
Arguments strip : simpl never.
Arguments Nat.ltb : simpl never.
Arguments Nat.leb : simpl never.

Lemma set_tick_same w : set_tick (tick w) w = w.
Proof. by destruct w. Qed.

Lemma world_eq w1 w2 :
  db_users w1 = db_users w2 -> db_resumes w1 = db_resumes w2 ->
  db_interviews w1 = db_interviews w2 -> tick w1 = tick w2 ->
  stdout w1 = stdout w2 -> w1 = w2.
Proof. destruct w1, w2; simpl; congruence. Qed.

(** ** The question generator *)

Section Generators.

Context (E : Env).

Lemma length_kept lines : forall i, length (kept i lines) <= length lines.
Proof.
  induction lines as [|q rest IH]; intros i; simpl; [lia|].
  destruct (keeps q); simpl; specialize (IH (S i)); lia.
Qed.

Lemma length_questions_from l : forall k, length (questions_from E k l) = length l.
Proof. induction l as [|iq l IH]; intros k; simpl; [done|]. by rewrite IH. Qed.

Lemma parse_loop_run lines : forall i acc w,
  parse_loop E i lines acc w =
    (inr (acc ++ questions_from E (tick w) (kept i lines)),
     set_tick (tick w + length (kept i lines)) w).
Proof.
  induction lines as [|q rest IH]; intros i acc w; simpl.
  - rewrite app_nil_r, Nat.add_0_r, set_tick_same. reflexivity.
  - fold (keeps q). destruct (keeps q); [|apply IH].
    unfold bind, new_question, uuid4, consult, ret; simpl.
    rewrite IH; simpl. rewrite <- app_assoc; simpl.
    rewrite Nat.add_succ_r. reflexivity.
Qed.

Lemma length_parsed text k : length (parsed E text k) <= 7.
Proof.
  unfold parsed. rewrite length_questions_from.
  etransitivity; [apply length_kept|]. rewrite length_take. lia.
Qed.

(** Identities are consecutive draws. *)
Lemma questions_from_ids l : forall k,
  map q_id (questions_from E k l) = map (uuid4_at E) (seq k (length l)).
Proof. induction l as [|iq l IH]; intros k; simpl; [done|]. by rewrite IH. Qed.

Lemma questions_from_content l : forall k,
  Forall2 (fun iq d => q_question d = strip (snd iq)
                       /\ q_type d = tag_of_index (fst iq)
                       /\ q_topic d = lit "general")
    l (questions_from E k l).
Proof.
  induction l as [|iq l IH]; intros k; simpl; constructor; [done|apply IH].
Qed.

(** Every kept pair is a line of the list at its own index, and passes
    the test. *)
Lemma kept_sound lines : forall i0,
  Forall (fun iq => i0 <= fst iq /\ lines !! (fst iq - i0) = Some (snd iq)
                    /\ keeps (snd iq) = true) (kept i0 lines).
Proof.
  induction lines as [|q rest IH]; intros i0; simpl; [constructor|].
  assert (Forall (fun iq => i0 <= fst iq
                            /\ (q :: rest) !! (fst iq - i0) = Some (snd iq)
                            /\ keeps (snd iq) = true) (kept (S i0) rest)) as Hrest.
  { eapply Forall_impl; [apply (IH (S i0))|].
    intros [i x]; simpl. intros (Hle & Hl & Hk).
    split; [lia|]. split; [|done].
    replace (i - i0) with (S (i - S i0)) by lia. exact Hl. }
  destruct (keeps q) eqn:Hq; [|exact Hrest].
  constructor; [|exact Hrest]. simpl. rewrite Nat.sub_diag. auto.
Qed.

(** Every line that passes the test is kept. *)
Lemma kept_complete lines : forall i0 j q,
  lines !! j = Some q -> keeps q = true -> (i0 + j, q) ∈ kept i0 lines.
Proof.
  induction lines as [|q0 rest IH]; intros i0 j q Hl Hk; [done|].
  simpl. destruct j as [|j]; simpl in Hl.
  - injection Hl as ->. rewrite Hk, Nat.add_0_r. apply list_elem_of_here.
  - replace (i0 + S j) with (S i0 + j) by lia.
    destruct (keeps q0); [apply list_elem_of_further|]; by apply IH.
Qed.

(** The kept indices increase strictly. *)
Lemma kept_increasing lines : forall i0,
  StronglySorted lt (map fst (kept i0 lines)).
Proof.
  induction lines as [|q rest IH]; intros i0; simpl; [constructor|].
  destruct (keeps q); [|apply IH]. simpl. constructor; [apply IH|].
  apply Forall_map. eapply Forall_impl; [apply (kept_sound rest (S i0))|].
  intros [i x]; simpl. lia.
Qed.

Ltac run_generator H :=
  unfold generate_interview_questions, generate_feedback, try_except, bind,
    send_message, uuid4, consult, ret, raise; cbn;
  unfold questions_outcome, feedback_outcome in H; cbn in H; rewrite H; cbn.

(** The call raises: the [except] branch prints and returns its three
    questions. *)
Lemma questions_when_raised resume_text job_role experience_level w msg :
  questions_outcome E resume_text job_role experience_level (tick w) = Raised msg ->
  generate_interview_questions E resume_text job_role experience_level w =
    (inr [ {| q_id := uuid4_at E (tick w + 2);
              q_question := lit "Tell me about your experience in "
                              ++ job_role ++ lit ".";
              q_type := lit "technical"; q_topic := lit "experience" |};
           {| q_id := uuid4_at E (tick w + 3);
              q_question := lit "Walk me through your most challenging project.";
              q_type := lit "behavioral"; q_topic := lit "projects" |};
           {| q_id := uuid4_at E (tick w + 4);
              q_question := lit "How do you approach problem-solving?";
              q_type := lit "technical"; q_topic := lit "problem-solving" |} ],
     {| db_users := db_users w; db_resumes := db_resumes w;
        db_interviews := db_interviews w; tick := tick w + 5;
        stdout := stdout w ++ [lit "Error generating questions: " ++ msg] |}).
Proof.
  intros H. run_generator H.
  unfold except_fallback, new_question, print, modify, bind, uuid4, consult, ret;
    cbn.
  rewrite ?Nat.add_succ_r, ?Nat.add_0_r. reflexivity.
Qed.

(** The call answers and at least three questions parse. *)
Lemma questions_when_parsed resume_text job_role experience_level w text :
  questions_outcome E resume_text job_role experience_level (tick w) = Reply text ->
  3 <= length (parsed E text (tick w + 2)) ->
  generate_interview_questions E resume_text job_role experience_level w =
    (inr (parsed E text (tick w + 2)),
     set_tick (tick w + 2 + length (parsed E text (tick w + 2))) w).
Proof.
  intros H Hlen. run_generator H.
  rewrite parse_loop_run; cbn.
  unfold parsed in *. replace (tick w + 2) with (S (S (tick w))) in * by lia.
  match goal with |- context [?a <? 3] => destruct (Nat.ltb_spec a 3) end;
    [lia|].
  unfold ret. f_equal. apply world_eq; cbn; trivial.
  rewrite length_questions_from. lia.
Qed.

(** The call answers and fewer than three questions parse. *)
Lemma questions_when_few resume_text job_role experience_level w text :
  questions_outcome E resume_text job_role experience_level (tick w) = Reply text ->
  length (parsed E text (tick w + 2)) < 3 ->
  exists qs,
    generate_interview_questions E resume_text job_role experience_level w =
      (inr qs, set_tick (tick w + 7 + length (parsed E text (tick w + 2))) w)
    /\ map content qs =
       [ (lit "Tell me about your experience with " ++ job_role
            ++ lit " technologies.", lit "technical", lit "experience");
         (lit "Walk me through a challenging project you've worked on.",
          lit "behavioral", lit "projects");
         (lit "How do you stay updated with the latest trends in " ++ job_role
            ++ lit "?", lit "behavioral", lit "learning");
         (lit "Describe a time when you had to solve a complex technical problem.",
          lit "technical", lit "problem-solving");
         (lit "What interests you most about working as a " ++ job_role
            ++ lit "?", lit "behavioral", lit "motivation") ].
Proof.
  intros H Hlen. run_generator H.
  rewrite parse_loop_run; cbn.
  unfold parsed in *. replace (tick w + 2) with (S (S (tick w))) in * by lia.
  match goal with |- context [?a <? 3] => destruct (Nat.ltb_spec a 3) end;
    [|lia].
  unfold parse_fallback, new_question, bind, uuid4, consult, ret; cbn.
  eexists; split;
    [f_equal; apply world_eq; cbn; trivial;
     rewrite length_questions_from; lia
    |reflexivity].
Qed.

(** Whatever the service does, the generator answers with three to
    seven questions and touches no collection. *)
Lemma questions_total resume_text job_role experience_level w :
  exists qs w',
    generate_interview_questions E resume_text job_role experience_level w
      = (inr qs, w')
    /\ 3 <= length qs <= 7
    /\ db_users w' = db_users w /\ db_resumes w' = db_resumes w
    /\ db_interviews w' = db_interviews w /\ tick w <= tick w'.
Proof.
  destruct (questions_outcome E resume_text job_role experience_level (tick w))
    as [text|msg] eqn:Hout.
  - destruct (le_lt_dec 3 (length (parsed E text (tick w + 2)))) as [Hge|Hlt].
    + eexists _, _; split; [by apply questions_when_parsed with (text := text)|].
      pose proof (length_parsed text (tick w + 2)). cbn. repeat split; trivial; lia.
    + destruct (questions_when_few _ _ _ _ _ Hout Hlt) as (qs & Hrun & Hqs).
      eexists _, _; split; [exact Hrun|].
      apply (f_equal length) in Hqs. rewrite length_map in Hqs. cbn in Hqs.
      cbn. repeat split; trivial; lia.
  - eexists _, _; split; [by apply questions_when_raised with (msg := msg)|].
    cbn. repeat split; trivial; lia.
Qed.

(** *** The feedback generator *)

Lemma feedback_when_reply questions responses job_role w text :
  feedback_outcome E questions responses job_role (tick w) = Reply text ->
  generate_feedback E questions responses job_role w
    = (inr text, set_tick (tick w + 2) w).
Proof.
  intros H. run_generator H. unfold ret. f_equal.
  apply world_eq; cbn; trivial; lia.
Qed.

Lemma feedback_when_raised questions responses job_role w msg :
  feedback_outcome E questions responses job_role (tick w) = Raised msg ->
  generate_feedback E questions responses job_role w
    = (inr feedback_fallback,
       {| db_users := db_users w; db_resumes := db_resumes w;
          db_interviews := db_interviews w; tick := tick w + 2;
          stdout := stdout w ++ [lit "Error generating feedback: " ++ msg] |}).
Proof.
  intros H. run_generator H. unfold print, modify, bind, ret; cbn.
  rewrite ?Nat.add_succ_r, ?Nat.add_0_r. reflexivity.
Qed.

Lemma feedback_total questions responses job_role w :
  exists fb w',
    generate_feedback E questions responses job_role w = (inr fb, w')
    /\ db_users w' = db_users w /\ db_resumes w' = db_resumes w
    /\ db_interviews w' = db_interviews w /\ tick w' = tick w + 2.
Proof.
  destruct (feedback_outcome E questions responses job_role (tick w))
    as [text|msg] eqn:Hout.
  - eexists _, _; split; [by apply feedback_when_reply|]. by cbn.
  - eexists _, _; split; [by apply feedback_when_raised with (msg := msg)|].
    by cbn.
Qed.

End Generators.

(** ** Claims on the generators *)




(** C4: neither generator lets a failure of the generation call reach its
    caller. For every input and every behaviour of the service both
    return a value; when the call raises, the question generator returns
    the three questions of its [except] branch and the feedback generator
    the fixed acknowledgment. *)
Theorem generators_never_raise
    (E : Env) (resume_text job_role experience_level : str)
    (questions : list Question) (responses : list Response) (w : World) :
  (exists qs w',
     generate_interview_questions E resume_text job_role experience_level w
       = (inr qs, w')
     /\ forall msg,
          questions_outcome E resume_text job_role experience_level (tick w)
            = Raised msg ->
          map content qs = except_content job_role)
  /\ (exists fb w',
        generate_feedback E questions responses job_role w = (inr fb, w')
        /\ forall msg,
             feedback_outcome E questions responses job_role (tick w)
               = Raised msg ->
             fb = feedback_fallback).
Proof.
  split.
  - destruct (questions_total E resume_text job_role experience_level w)
      as (qs & w' & Hrun & _).
    exists qs, w'. split; [exact Hrun|]. intros msg Hout.
    rewrite (questions_when_raised _ _ _ _ _ _ Hout) in Hrun.
    by injection Hrun as <- _.
  - destruct (feedback_total E questions responses job_role w)
      as (fb & w' & Hrun & _).
    exists fb, w'. split; [exact Hrun|]. intros msg Hout.
    rewrite (feedback_when_raised _ _ _ _ _ _ Hout) in Hrun.
    by injection Hrun as <- _.
Qed.

Lemma generators_never_raise_witness :
  let e := Demo.env Demo.down in
  exists qs fb,
    fst (generate_interview_questions e [] (lit "SRE") (lit "mid")
           Demo.empty_world) = inr qs
    /\ map content qs = except_content (lit "SRE")
    /\ fst (generate_feedback e [] [] (lit "SRE") Demo.empty_world) = inr fb
    /\ fb = feedback_fallback.
Proof.
  intros e.
  destruct (generators_never_raise e [] (lit "SRE") (lit "mid") [] []
              Demo.empty_world)
    as [(qs & w1 & Hq & Hqs) (fb & w2 & Hf & Hfb)].
  exists qs, fb. rewrite Hq, Hf.
  repeat split;
    [exact (Hqs (lit "503") eq_refl) | exact (Hfb (lit "503") eq_refl)].
Defined.

(** C3, as stated, fails on four counts. (1) Tags follow the index of the
    line, not the position of the question: with blank lines in between,
    three questions are all technical. (2) The cap is on the lines read,
    not on the questions made: of eight lines the eighth is never read.
    (3) A line of blanks is not empty, yet makes no question. (4) When
    fewer than three questions parse, the questions returned are not the
    parsed ones and their topic is not the generic one. *)
Lemma parsing_differs_from_stated_policy :
  let run text :=
    fst (generate_interview_questions (Demo.env (fun _ => Reply text)) []
           (lit "SRE") (lit "mid") Demo.empty_world) in
  let shown qs := map (fun q => (q_question q, q_type q)) qs in
  let spaced := unlines [lit "A"; []; lit "B"; []; lit "C"] in
  let eight := unlines [lit "# Questions"; lit "A"; lit "B"; lit "C"; lit "D";
                        lit "E"; lit "F"; lit "G"] in
  let blanks := unlines [lit "A"; lit "  "; lit "B"; lit "C"] in
  let single := lit "A" in
  (exists qs, run spaced = inr qs
     /\ map q_type qs = [lit "technical"; lit "technical"; lit "technical"]
     /\ shown qs <> spec_parse spaced)
  /\ (exists qs, run eight = inr qs /\ length qs = 6
        /\ length (spec_parse eight) = 7)
  /\ (exists qs, run blanks = inr qs /\ length qs = 3
        /\ length (spec_parse blanks) = 4)
  /\ (exists qs, run single = inr qs /\ length qs = 5
        /\ map q_topic qs <> replicate 5 (lit "general")
        /\ spec_parse single = [(lit "A", lit "technical")]).
Proof.
  cbv zeta. repeat split.
  - eexists; split; [vm_compute; reflexivity|]. split; [reflexivity|].
    vm_compute. discriminate.
  - eexists; split; [vm_compute; reflexivity|]. split; reflexivity.
  - eexists; split; [vm_compute; reflexivity|]. split; reflexivity.
  - eexists; split; [vm_compute; reflexivity|]. split; [reflexivity|].
    split; [vm_compute; discriminate | reflexivity].
Qed.

(** C3, amended: for every raw text the generation call returns, the
    generator splits it into lines and reads the first seven lines only.
    Each of these whose stripped text is non-empty and which does not
    start with the heading marker becomes a question, in order: its text
    is the stripped line, its tag is technical when the index of the line
    is even and behavioral when it is odd, its topic is the generic one,
    and its identity is the next draw. At most seven questions result;
    they are what the generator returns when they are at least three. *)
Theorem parsing_policy_by_line
    (E : Env) (resume_text job_role experience_level : str) (w : World)
    (text : str) :
  questions_outcome E resume_text job_role experience_level (tick w)
    = Reply text ->
  let lines := take 7 (split_nl text) in
  let qs := parsed E text (tick w + 2) in
  length qs <= 7
  /\ (3 <= length qs ->
      fst (generate_interview_questions E resume_text job_role
             experience_level w) = inr qs)
  /\ map q_id qs = map (uuid4_at E) (seq (tick w + 2) (length qs))
  /\ exists idx : list nat,
       StronglySorted lt idx
       /\ (forall i, i ∈ idx <->
             exists q, lines !! i = Some q /\ truthy (strip q) = true
                       /\ startswith_hash q = false)
       /\ Forall2 (fun i d =>
                     exists q, lines !! i = Some q
                       /\ q_question d = strip q
                       /\ q_type d = (if i mod 2 =? 0 then lit "technical"
                                      else lit "behavioral")
                       /\ q_topic d = lit "general")
            idx qs.
Proof.
  intros Hout lines qs.
  split; [apply length_parsed|].
  split; [intros Hlen; by rewrite (questions_when_parsed _ _ _ _ _ _ Hout Hlen)|].
  split.
  { unfold qs, parsed. rewrite questions_from_ids.
    by rewrite length_questions_from. }
  exists (map fst (kept 0 lines)).
  split; [apply kept_increasing|]. split.
  - intros i. rewrite list_elem_of_fmap. split.
    + intros ([i' q] & -> & Hin). simpl.
      pose proof (kept_sound lines 0) as Hs.
      rewrite Forall_forall in Hs. apply Hs in Hin. simpl in Hin.
      destruct Hin as (_ & Hl & Hk). rewrite Nat.sub_0_r in Hl.
      exists q. split; [done|]. unfold keeps in Hk.
      apply andb_true_iff in Hk as [? Hh]. split; [done|].
      by apply negb_true_iff.
    + intros (q & Hl & Ht & Hh). exists (i, q). split; [done|].
      apply (kept_complete lines 0 i q Hl).
      unfold keeps. by rewrite Ht, Hh.
  - unfold qs, parsed. fold lines.
    apply Forall2_fmap_l.
    pose proof (kept_sound lines 0) as Hs.
    pose proof (questions_from_content E (kept 0 lines) (tick w + 2)) as Hc.
    revert Hs Hc. generalize (questions_from E (tick w + 2) (kept 0 lines)).
    generalize (kept 0 lines). clear.
    intros l l' Hs Hc. induction Hc as [|[i q] d l l' (Hq & Ht & Hp) _ IH];
      [constructor|].
    apply Forall_cons in Hs as [(_ & Hl & _) Hs]. simpl in *.
    rewrite Nat.sub_0_r in Hl.
    constructor; [|by apply IH]. exists q. by repeat split.
Qed.

Lemma parsing_policy_by_line_witness :
  let text := unlines [lit "A"; []; lit "B"; []; lit "C"] in
  let e := Demo.env (fun _ => Reply text) in
  let lines := take 7 (split_nl text) in
  let qs := parsed e text 2 in
  length qs <= 7
  /\ (3 <= length qs ->
      fst (generate_interview_questions e [] (lit "SRE") (lit "mid")
             Demo.empty_world) = inr qs)
  /\ map q_id qs = map (uuid4_at e) (seq 2 (length qs))
  /\ exists idx : list nat,
       StronglySorted lt idx
       /\ (forall i, i ∈ idx <->
             exists q, lines !! i = Some q /\ truthy (strip q) = true
                       /\ startswith_hash q = false)
       /\ Forall2 (fun i d =>
                     exists q, lines !! i = Some q
                       /\ q_question d = strip q
                       /\ q_type d = (if i mod 2 =? 0 then lit "technical"
                                      else lit "behavioral")
                       /\ q_topic d = lit "general")
            idx qs.
Proof.
  intros text e lines qs.
  exact (parsing_policy_by_line e [] (lit "SRE") (lit "mid") Demo.empty_world
           text eq_refl).
Defined.

(** ** Collections *)

Section Collections.

Context {A : Type}.

Lemma find_one_Some (p : A -> bool) docs d :
  find_one p docs = Some d -> d ∈ docs /\ p d = true.
Proof.
  induction docs as [|x xs IH]; simpl; [done|].
  destruct (p x) eqn:Hx.
  - intros [= ->]. split; [apply list_elem_of_here|done].
  - intros H. destruct (IH H). split; [by apply list_elem_of_further|done].
Qed.

Lemma find_one_latest_Some (p : A -> bool) key docs d :
  find_one_latest p key docs = Some d -> d ∈ docs /\ p d = true.
Proof.
  revert d. induction docs as [|x xs IH]; simpl; intros d; [done|].
  destruct (find_one_latest p key xs) as [d'|].
  - destruct (IH d' eq_refl) as [Hin Hp].
    destruct (p x) eqn:Hx; simpl.
    + destruct (key d' <=? key x)%Z; intros [= <-];
        (split; [|done]); [apply list_elem_of_here|by apply list_elem_of_further].
    + intros [= <-]. split; [by apply list_elem_of_further|done].
  - destruct (p x) eqn:Hx; [|done].
    intros [= <-]. split; [apply list_elem_of_here|done].
Qed.

Lemma find_one_latest_None (p : A -> bool) key docs :
  find_one_latest p key docs = None <-> forall d, d ∈ docs -> p d = false.
Proof.
  induction docs as [|x xs IH]; simpl.
  - split; [|done]. intros _ d Hd. by apply elem_of_nil in Hd.
  - destruct (find_one_latest p key xs) as [d'|] eqn:Hf.
    + split.
      * destruct (p x && (key d' <=? key x)%Z); discriminate.
      * intros Hall. destruct (find_one_latest_Some _ _ _ _ Hf) as [Hin Hp].
        rewrite (Hall d') in Hp; [done|by apply list_elem_of_further].
    + destruct (p x) eqn:Hx.
      * split; [done|]. intros Hall.
        rewrite (Hall x) in Hx; [done|apply list_elem_of_here].
      * split; [|done]. intros _ d Hd.
        apply elem_of_cons in Hd as [->|Hd]; [done|].
        by apply (proj1 IH).
Qed.

Lemma length_update_one (p : A -> bool) f docs :
  length (update_one p f docs) = length docs.
Proof.
  induction docs as [|x xs IH]; simpl; [done|].
  destruct (p x); simpl; by rewrite ?IH.
Qed.

(** Position by position, an update changes at most one document, and
    only one that matches the filter. *)
Lemma lookup_update_one (p : A -> bool) f docs i d' :
  update_one p f docs !! i = Some d' ->
  exists d, docs !! i = Some d /\ (d' = d \/ (p d = true /\ d' = f d)).
Proof.
  revert i. induction docs as [|x xs IH]; intros i; simpl; [done|].
  destruct (p x) eqn:Hp; destruct i as [|i]; simpl.
  - intros [= <-]. eauto.
  - intros H. eauto.
  - intros [= <-]. eauto.
  - apply IH.
Qed.

End Collections.

(** ** The interview collection under distinct identities *)

Lemma has_id_true id d : has_id id d = true <-> iv_id d = id.
Proof. unfold has_id, str_eqb. apply bool_decide_eq_true. Qed.

Lemma has_id_false id d : has_id id d = false <-> iv_id d <> id.
Proof. unfold has_id, str_eqb. apply bool_decide_eq_false. Qed.

Lemma open_for_true user_id d :
  open_for user_id d = true <->
  iv_user_id d = user_id /\ iv_status d = lit "in_progress".
Proof.
  unfold open_for, val_eqb, str_eqb.
  rewrite andb_true_iff, !bool_decide_eq_true. done.
Qed.

Lemma id_not_later (docs : list InterviewDoc) j d x :
  docs !! j = Some d -> iv_id x ∉ map iv_id docs -> iv_id d <> iv_id x.
Proof.
  intros Hl Hnot Heq. apply Hnot. rewrite <- Heq.
  apply list_elem_of_fmap. exists d. split; [done|].
  by apply list_elem_of_lookup_2 with j.
Qed.

(** With distinct identities the filter [{"id": id}] addresses the one
    document that carries the identity. *)
Lemma update_one_unique (docs : list InterviewDoc) f i d :
  NoDup (map iv_id docs) -> docs !! i = Some d ->
  update_one (has_id (iv_id d)) f docs = <[i := f d]> docs.
Proof.
  revert i. induction docs as [|x xs IH]; intros i Hnd Hl; [done|].
  apply NoDup_cons in Hnd as [Hx Hnd]. simpl.
  destruct i as [|i]; simpl in Hl.
  - injection Hl as ->. by rewrite (proj2 (has_id_true _ _) eq_refl).
  - rewrite (proj2 (has_id_false (iv_id d) x)).
    + simpl. f_equal. by apply IH.
    + intros Heq. by apply (id_not_later xs i d x).
Qed.

Lemma find_one_unique (docs : list InterviewDoc) i d :
  NoDup (map iv_id docs) -> docs !! i = Some d ->
  find_one (has_id (iv_id d)) docs = Some d.
Proof.
  revert i. induction docs as [|x xs IH]; intros i Hnd Hl; [done|].
  apply NoDup_cons in Hnd as [Hx Hnd]. simpl.
  destruct i as [|i]; simpl in Hl.
  - injection Hl as ->. by rewrite (proj2 (has_id_true _ _) eq_refl).
  - rewrite (proj2 (has_id_false (iv_id d) x)); [by apply IH with i|].
    intros Heq. by apply (id_not_later xs i d x).
Qed.

Lemma ids_insert (docs : list InterviewDoc) i d d' :
  docs !! i = Some d -> iv_id d' = iv_id d ->
  map iv_id (<[i := d']> docs) = map iv_id docs.
Proof.
  intros Hl Hid. rewrite list_fmap_insert, Hid.
  apply list_insert_id. by rewrite list_lookup_fmap, Hl.
Qed.

(** Replacing the latest matching document by one with the same
    identity and sort key that still matches leaves it the latest. *)
Lemma find_one_latest_insert (p : InterviewDoc -> bool) key
    (docs : list InterviewDoc) i d d' :
  NoDup (map iv_id docs) -> docs !! i = Some d ->
  find_one_latest p key docs = Some d ->
  p d' = true -> key d' = key d ->
  find_one_latest p key (<[i := d']> docs) = Some d'.
Proof.
  intros Hnd Hl Hf Hp Hk. revert i Hnd Hl Hf.
  induction docs as [|x xs IH]; intros i Hnd Hl Hf; [done|].
  apply NoDup_cons in Hnd as [Hx Hnd].
  destruct i as [|i]; simpl in Hl, Hf |- *.
  - injection Hl as ->.
    destruct (find_one_latest p key xs) as [e|] eqn:He.
    + destruct (find_one_latest_Some _ _ _ _ He) as [Hin _].
      destruct (p d && (key e <=? key d)%Z) eqn:Hc.
      * apply andb_true_iff in Hc as [_ Hc]. by rewrite Hp, Hk, Hc.
      * injection Hf as ->. exfalso. apply Hx.
        apply list_elem_of_fmap. by exists d.
    + by rewrite Hp.
  - assert (x <> d) as Hxd.
    { intros ->. by apply (id_not_later xs i d d). }
    destruct (find_one_latest p key xs) as [e|] eqn:He.
    + destruct (p x && (key e <=? key x)%Z) eqn:Hc;
        [by injection Hf|].
      injection Hf as ->.
      rewrite (IH i Hnd Hl eq_refl). by rewrite Hk, Hc.
    + destruct (p x); [by injection Hf|done].
Qed.

(** ** The routes, run *)

Section Routes.

Context (E : Env).

Lemma submit_without_open_interview response user_id w :
  find_one_latest (open_for user_id) iv_created_at (db_interviews w) = None ->
  submit_response E response user_id w = (inl no_active_interview, w).
Proof.
  intros H.
  unfold submit_response, interviews_find_one_latest, bind, get_world, ret.
  by rewrite H.
Qed.

Lemma submit_recorded response user_id w i iv :
  NoDup (map iv_id (db_interviews w)) ->
  db_interviews w !! i = Some iv ->
  find_one_latest (open_for user_id) iv_created_at (db_interviews w) = Some iv ->
  S (length (iv_responses iv)) < length (iv_questions iv) ->
  submit_response E response user_id w =
    (inr {| sr_message := lit "Response recorded"; sr_completed := false;
            sr_feedback := None;
            sr_next_question := Some (S (length (iv_responses iv))) |},
     pushed i (push_response (stored E response w) iv) w).
Proof.
  intros Hnd Hl Hf Hlt.
  unfold submit_response, interviews_find_one_latest, interviews_update_one,
    interviews_find_one, utcnow, consult, modify, bind, get_world, ret.
  rewrite Hf. cbn.
  rewrite (update_one_unique _ _ i iv Hnd Hl).
  fold (stored E response w).
  set (upd := push_response (stored E response w) iv).
  assert (find_one (has_id (iv_id iv)) (<[i := upd]> (db_interviews w))
          = Some upd) as ->.
  { apply (find_one_unique _ i upd).
    - by rewrite (ids_insert _ i iv upd Hl eq_refl).
    - apply list_lookup_insert_eq. by apply lookup_lt_Some with iv. }
  cbn. rewrite length_app; cbn. rewrite Nat.add_1_r.
  destruct (Nat.leb_spec (length (iv_questions iv)) (S (length (iv_responses iv))));
    [lia|].
  f_equal. apply world_eq; cbn; trivial. by apply update_one_unique.
Qed.

Lemma submit_completed response user_id w i iv :
  NoDup (map iv_id (db_interviews w)) ->
  db_interviews w !! i = Some iv ->
  find_one_latest (open_for user_id) iv_created_at (db_interviews w) = Some iv ->
  length (iv_questions iv) <= S (length (iv_responses iv)) ->
  let upd := push_response (stored E response w) iv in
  exists fb w1,
    generate_feedback E (iv_questions iv) (iv_responses upd) (iv_job_role iv)
      (pushed i upd w) = (inr fb, w1)
    /\ submit_response E response user_id w =
         (inr {| sr_message := lit "Interview completed!"; sr_completed := true;
                 sr_feedback := Some fb; sr_next_question := None |},
          {| db_users := db_users w; db_resumes := db_resumes w;
             db_interviews :=
               <[i := set_status_feedback_completed_at (lit "completed") fb
                        (utcnow_at E (tick w + 3)) upd]> (db_interviews w);
             tick := tick w + 4; stdout := stdout w1 |}).
Proof.
  intros Hnd Hl Hf Hge upd.
  assert (iv_id upd = iv_id iv) as Hid by reflexivity.
  assert (NoDup (map iv_id (<[i := upd]> (db_interviews w)))) as Hnd'
    by (by rewrite (ids_insert _ i iv upd Hl Hid)).
  assert (<[i := upd]> (db_interviews w) !! i = Some upd) as Hl'
    by (apply list_lookup_insert_eq; by apply lookup_lt_Some with iv).
  destruct (feedback_total E (iv_questions iv) (iv_responses upd)
              (iv_job_role iv) (pushed i upd w))
    as (fb & w1 & Hrun & Hu & Hr & Hi & Ht).
  exists fb, w1. split; [exact Hrun|].
  unfold submit_response, interviews_find_one_latest, interviews_update_one,
    interviews_find_one, utcnow, consult, modify, bind, get_world, ret.
  rewrite Hf. cbn.
  rewrite (update_one_unique _ _ i iv Hnd Hl).
  fold (stored E response w). fold upd.
  assert (find_one (has_id (iv_id iv)) (<[i := upd]> (db_interviews w))
          = Some upd) as -> by apply (find_one_unique _ i upd Hnd' Hl').
  cbn. rewrite length_app; cbn. rewrite Nat.add_1_r.
  destruct (Nat.leb_spec (length (iv_questions iv)) (S (length (iv_responses iv))));
    [|lia].
  fold (stored E response w). fold upd.
  match goal with
  | |- context [generate_feedback E ?q ?r ?j ?w0] =>
      replace w0 with (pushed i upd w)
        by (apply world_eq; cbn; trivial; symmetry; by apply update_one_unique)
  end.
  change (iv_responses iv ++ [stored E response w]) with (iv_responses upd).
  rewrite Hrun. cbn. f_equal.
  cbn in Hu, Hr, Hi, Ht.
  apply world_eq; cbn; trivial; [|lia].
  rewrite Hi, <- Hid.
  rewrite (update_one_unique _ _ i upd Hnd' Hl').
  rewrite list_insert_insert_eq. do 2 f_equal. f_equal. lia.
Qed.

End Routes.

(** ** Claims on submit-response *)



Lemma completed_is_not_in_progress : lit "completed" <> lit "in_progress".
Proof. discriminate. Qed.

(** Under distinct identities, what a submit-response call does to the
    collection: nothing when it raises, else one document replaced. *)
Lemma submit_cases (E : Env) response user_id w :
  NoDup (map iv_id (db_interviews w)) ->
  (find_one_latest (open_for user_id) iv_created_at (db_interviews w) = None
   /\ submit_response E response user_id w = (inl no_active_interview, w))
  \/ exists i iv r w',
       find_one_latest (open_for user_id) iv_created_at (db_interviews w) = Some iv
       /\ db_interviews w !! i = Some iv
       /\ submit_response E response user_id w = (inr r, w')
       /\ tick w < tick w'
       /\ let upd := push_response (stored E response w) iv in
          (S (length (iv_responses iv)) < length (iv_questions iv)
           /\ sr_completed r = false
           /\ db_interviews w' = <[i := upd]> (db_interviews w))
          \/ (length (iv_questions iv) <= S (length (iv_responses iv))
              /\ sr_completed r = true
              /\ exists fb t,
                   db_interviews w' =
                     <[i := set_status_feedback_completed_at (lit "completed")
                              fb t upd]> (db_interviews w)).
Proof.
  intros Hnd.
  destruct (find_one_latest (open_for user_id) iv_created_at (db_interviews w))
    as [iv|] eqn:Hf.
  - right. destruct (find_one_latest_Some _ _ _ _ Hf) as [Hin _].
    apply list_elem_of_lookup in Hin as [i Hl].
    destruct (le_lt_dec (length (iv_questions iv)) (S (length (iv_responses iv))))
      as [Hge|Hlt].
    + destruct (submit_completed E response user_id w i iv Hnd Hl Hf Hge)
        as (fb & w1 & _ & Hsub).
      eexists i, iv, _, _. repeat split; [exact Hl|exact Hsub|cbn; lia|].
      right. repeat split; [exact Hge|]. by eexists _, _.
    + eexists i, iv, _, _.
      repeat split;
        [exact Hl|exact (submit_recorded E response user_id w i iv Hnd Hl Hf Hlt)
        |cbn; lia|].
      left. by repeat split.
  - left. split; [done|]. by apply submit_without_open_interview.
Qed.

(** C5: completed is terminal. The lookup of submit-response only ever
    returns an interview of the caller whose status is in_progress, and a
    call leaves every completed document as it is. When the caller has no
    in_progress interview the call fails with the 404 error and changes
    nothing. After a call that completes an interview, the caller having
    had no other open interview, every further submission fails with
    that error. Identities of stored interviews are taken to be
    distinct. *)
Theorem completed_is_terminal
    (E : Env) (response : InterviewResponse) (user_id : PyVal) (w : World) :
  NoDup (map iv_id (db_interviews w)) ->
  let result := submit_response E response user_id w in
  (forall iv,
     find_one_latest (open_for user_id) iv_created_at (db_interviews w) = Some iv ->
     iv_user_id iv = user_id /\ iv_status iv = lit "in_progress"
     /\ iv_status iv <> lit "completed")
  /\ (forall j d,
        db_interviews w !! j = Some d -> iv_status d = lit "completed" ->
        db_interviews (snd result) !! j = Some d)
  /\ ((forall d, d ∈ db_interviews w -> iv_user_id d = user_id ->
                 iv_status d <> lit "in_progress") ->
      result = (inl (HTTPException 404 (lit "No active interview found")), w))
  /\ (forall r,
        fst result = inr r -> sr_completed r = true ->
        (forall d d', d ∈ db_interviews w -> d' ∈ db_interviews w ->
                      open_for user_id d = true -> open_for user_id d' = true ->
                      d = d') ->
        forall next,
          submit_response E next user_id (snd result)
            = (inl (HTTPException 404 (lit "No active interview found")),
               snd result)).
Proof.
  intros Hnd result.
  assert (forall iv,
            find_one_latest (open_for user_id) iv_created_at (db_interviews w)
              = Some iv ->
            iv_user_id iv = user_id /\ iv_status iv = lit "in_progress") as Hopen.
  { intros iv Hf. destruct (find_one_latest_Some _ _ _ _ Hf) as [_ Hp].
    by apply open_for_true. }
  split.
  { intros iv Hf. destruct (Hopen iv Hf) as [Hu Hs]. repeat split; trivial.
    rewrite Hs. intros Heq. by apply completed_is_not_in_progress. }
  destruct (submit_cases E response user_id w Hnd)
    as [[Hnone Hsub]|(i & iv & r & w' & Hf & Hl & Hsub & _ & Hcase)];
    unfold result; rewrite Hsub; cbn [fst snd].
  - split; [done|]. split; [done|]. intros r [=].
  - destruct (Hopen iv Hf) as [Hu Hs].
    assert (forall j d, db_interviews w !! j = Some d ->
                        iv_status d = lit "completed" -> i <> j) as Hne.
    { intros j d Hj Hd ->. rewrite Hl in Hj. injection Hj as ->.
      rewrite Hs in Hd. by apply completed_is_not_in_progress. }
    split; [|split].
    + intros j d Hj Hd.
      destruct Hcase as [(_ & _ & ->)|(_ & _ & fb & t & ->)];
        rewrite list_lookup_insert_ne; eauto.
    + intros Hall. exfalso. apply (Hall iv); trivial.
      by apply list_elem_of_lookup_2 with i.
    + intros r' [= <-] Hdone Hone next.
      destruct Hcase as [(_ & Hrec & _)|(_ & _ & fb & t & Hdocs)];
        [by rewrite Hrec in Hdone|].
      apply submit_without_open_interview. apply find_one_latest_None.
      intros d Hd. rewrite Hdocs in Hd.
      apply list_elem_of_lookup in Hd as [j Hj].
      destruct (decide (i = j)) as [<-|Hij].
      * rewrite list_lookup_insert_eq in Hj by (by apply lookup_lt_Some with iv).
        injection Hj as <-. unfold open_for, str_eqb. cbn.
        rewrite andb_false_iff. right. apply bool_decide_eq_false.
        apply completed_is_not_in_progress.
      * rewrite list_lookup_insert_ne in Hj by done.
        destruct (open_for user_id d) eqn:Hd; [|done]. exfalso.
        assert (d = iv) as ->.
        { apply Hone; trivial.
          - by apply list_elem_of_lookup_2 with j.
          - by apply list_elem_of_lookup_2 with i.
          - by apply open_for_true. }
        apply Hij. apply (NoDup_lookup _ i j (iv_id iv) Hnd);
          by rewrite list_lookup_fmap, ?Hl, ?Hj.
Qed.

Lemma completed_is_terminal_witness :
  let E := Demo.env Demo.down in
  let w := Demo.one_to_go in
  let result := submit_response E (Demo.answer "q3") Demo.alice w in
  NoDup (map iv_id (db_interviews w))
  /\ (exists r, fst result = inr r /\ sr_completed r = true)
  /\ submit_response E (Demo.answer "q4") Demo.alice (snd result)
     = (inl (HTTPException 404 (lit "No active interview found")), snd result).
Proof.
  intros E w result.
  assert (NoDup (map iv_id (db_interviews w))) as Hnd
    by (refine (bool_decide_unpack _ _); vm_compute; exact I).
  assert (exists r, fst result = inr r /\ sr_completed r = true) as Hr
    by (eexists; split; [vm_compute; reflexivity|reflexivity]).
  split; [exact Hnd|]. split; [exact Hr|].
  destruct Hr as (r & Hr & Hdone).
  destruct (completed_is_terminal E (Demo.answer "q3") Demo.alice w Hnd)
    as (_ & _ & _ & Hlast).
  apply (Hlast r Hr Hdone).
  assert (exists x, db_interviews w = [x]) as [x ->]
    by (eexists; vm_compute; reflexivity).
  intros d d' Hd Hd' _ _.
  apply list_elem_of_singleton in Hd, Hd'. congruence.
Defined.

(** ** Consecutive submissions *)

Lemma bind_inr {A B} (m : M A) (k : A -> M B) w a w' :
  m w = (inr a, w') -> bind m k w = k a w'.
Proof. unfold bind. by intros ->. Qed.

Lemma submit_each_cons (E : Env) a rest user_id w r w1 rs w2 :
  submit_response E a user_id w = (inr r, w1) ->
  submit_each E rest user_id w1 = (inr rs, w2) ->
  submit_each E (a :: rest) user_id w = (inr (r :: rs), w2).
Proof.
  intros H1 H2. cbn [submit_each].
  rewrite (bind_inr _ _ _ _ _ H1), (bind_inr _ _ _ _ _ H2). reflexivity.
Qed.

(** As many submissions as there are questions left complete the
    interview at position [i], whatever question identities they carry. *)
Lemma submit_each_completes (E : Env) user_id answers : forall w i iv,
  NoDup (map iv_id (db_interviews w)) ->
  db_interviews w !! i = Some iv ->
  find_one_latest (open_for user_id) iv_created_at (db_interviews w) = Some iv ->
  length (iv_responses iv) < length (iv_questions iv) ->
  length (iv_responses iv) + length answers = length (iv_questions iv) ->
  exists results w' d,
    submit_each E answers user_id w = (inr results, w')
    /\ map sr_completed results = replicate (length answers - 1) false ++ [true]
    /\ db_interviews w' !! i = Some d
    /\ iv_status d = lit "completed"
    /\ iv_questions d = iv_questions iv
    /\ map r_question_id (iv_responses d) =
         map r_question_id (iv_responses iv) ++ map rsp_question_id answers
    /\ map r_answer (iv_responses d) =
         map r_answer (iv_responses iv) ++ map rsp_answer answers.
Proof.
  induction answers as [|a rest IH]; intros w i iv Hnd Hl Hf Hlt Hsum.
  { simpl in Hsum. lia. }
  simpl in Hsum.
  assert (i < length (db_interviews w)) as Hi by (by apply lookup_lt_Some with iv).
  destruct rest as [|b rest].
  - assert (length (iv_questions iv) <= S (length (iv_responses iv))) as Hge
      by (simpl in Hsum; lia).
    destruct (submit_completed E a user_id w i iv Hnd Hl Hf Hge)
      as (fb & w1 & _ & Hsub).
    eexists _, _, _. split.
    { eapply submit_each_cons; [exact Hsub|reflexivity]. }
    cbn [db_interviews]. rewrite list_lookup_insert_eq by done.
    repeat split; cbn; by rewrite map_app.
  - assert (S (length (iv_responses iv)) < length (iv_questions iv)) as Hlt'
      by (simpl in Hsum; lia).
    pose proof (submit_recorded E a user_id w i iv Hnd Hl Hf Hlt') as Hsub.
    set (upd := push_response (stored E a w) iv) in *.
    destruct (IH (pushed i upd w) i upd) as (rs & w' & d & Hrun & Hflags & Hd);
      cbn [pushed db_interviews].
    + by rewrite (ids_insert _ i iv upd Hl eq_refl).
    + by apply list_lookup_insert_eq.
    + apply (find_one_latest_insert _ _ _ i iv upd Hnd Hl Hf); [|done].
      apply open_for_true. by apply (open_for_true user_id iv),
        (find_one_latest_Some _ _ _ _ Hf).
    + cbn. rewrite length_app. cbn. lia.
    + cbn. rewrite length_app. cbn. simpl in Hsum. lia.
    + eexists (_ :: rs), w', d.
      split; [exact (submit_each_cons _ _ _ _ _ _ _ _ _ Hsub Hrun)|].
      destruct Hd as (Hl' & Hs & Hq & Hids & Hans).
      split.
      { cbn [map sr_completed]. rewrite Hflags. simpl length.
        rewrite !Nat.sub_succ, !Nat.sub_0_r. reflexivity. }
      repeat split; trivial.
      * rewrite Hids. cbn. rewrite map_app, <- app_assoc. reflexivity.
      * rewrite Hans. cbn. rewrite map_app, <- app_assoc. reflexivity.
Qed.

(** C9: the question identity of a submission is stored as supplied and
    never compared with the questions of the interview; completion is
    decided by the count of responses alone. A call that finds an
    in_progress interview appends the response with the identity it was
    given, whatever that is. So as many submissions as there are
    questions left, carrying any identities at all (all the same, or none
    that exists), complete the interview: every answer but the last
    reports [completed = false], the last [completed = true], and the
    stored identities are the supplied ones, in order. Identities of
    stored interviews are taken to be distinct. *)
Theorem question_id_is_not_checked
    (E : Env) (user_id : PyVal) (w : World) (iv : InterviewDoc) :
  NoDup (map iv_id (db_interviews w)) ->
  find_one_latest (open_for user_id) iv_created_at (db_interviews w) = Some iv ->
  exists i,
    db_interviews w !! i = Some iv
    /\ (forall response,
          exists d,
            db_interviews (snd (submit_response E response user_id w)) !! i
              = Some d
            /\ map r_question_id (iv_responses d) =
                 map r_question_id (iv_responses iv)
                   ++ [rsp_question_id response])
    /\ (forall answers,
          length (iv_responses iv) < length (iv_questions iv) ->
          length (iv_responses iv) + length answers = length (iv_questions iv) ->
          exists results w' d,
            submit_each E answers user_id w = (inr results, w')
            /\ map sr_completed results
               = replicate (length answers - 1) false ++ [true]
            /\ db_interviews w' !! i = Some d
            /\ iv_status d = lit "completed"
            /\ iv_questions d = iv_questions iv
            /\ map r_question_id (iv_responses d) =
                 map r_question_id (iv_responses iv)
                   ++ map rsp_question_id answers
            /\ map r_answer (iv_responses d) =
                 map r_answer (iv_responses iv) ++ map rsp_answer answers).
Proof.
  intros Hnd Hf.
  destruct (find_one_latest_Some _ _ _ _ Hf) as [Hin _].
  apply list_elem_of_lookup in Hin as [i Hl].
  exists i. split; [exact Hl|]. split.
  - intros response.
    destruct (submit_cases E response user_id w Hnd)
      as [[Hnone _]|(i' & iv' & r & w' & Hf' & Hl' & -> & _ & Hcase)];
      [by rewrite Hf in Hnone|].
    rewrite Hf in Hf'. injection Hf' as <-.
    assert (i' = i) as ->.
    { apply (NoDup_lookup _ i' i (iv_id iv) Hnd);
        by rewrite list_lookup_fmap, ?Hl, ?Hl'. }
    cbn [snd].
    destruct Hcase as [(_ & _ & ->)|(_ & _ & fb & t & ->)];
      rewrite list_lookup_insert_eq by (by apply lookup_lt_Some with iv);
      eexists; (split; [reflexivity|]); cbn; by rewrite map_app.
  - intros answers Hlt Hsum.
    exact (submit_each_completes E user_id answers w i iv Hnd Hl Hf Hlt Hsum).
Qed.

Lemma question_id_is_not_checked_witness :
  let E := Demo.env Demo.down in
  let w := Demo.started in
  let answers := [Demo.answer "none"; Demo.answer "none"; Demo.answer "none"] in
  exists iv,
    NoDup (map iv_id (db_interviews w))
    /\ find_one_latest (open_for Demo.alice) iv_created_at (db_interviews w)
       = Some iv
    /\ length (iv_responses iv) < length (iv_questions iv)
    /\ length (iv_responses iv) + length answers = length (iv_questions iv)
    /\ ~ lit "none" ∈ map q_id (iv_questions iv)
    /\ exists i results w' d,
         db_interviews w !! i = Some iv
         /\ submit_each E answers Demo.alice w = (inr results, w')
         /\ map sr_completed results = [false; false; true]
         /\ db_interviews w' !! i = Some d
         /\ iv_status d = lit "completed"
         /\ iv_questions d = iv_questions iv
         /\ map r_question_id (iv_responses d) =
              map r_question_id (iv_responses iv) ++ map rsp_question_id answers
         /\ map r_answer (iv_responses d) =
              map r_answer (iv_responses iv) ++ map rsp_answer answers.
Proof.
  intros E w answers.
  assert (NoDup (map iv_id (db_interviews w))) as Hnd
    by (refine (bool_decide_unpack _ _); vm_compute; exact I).
  assert (exists iv,
            find_one_latest (open_for Demo.alice) iv_created_at (db_interviews w)
              = Some iv
            /\ length (iv_responses iv) < length (iv_questions iv)
            /\ length (iv_responses iv) + length answers
               = length (iv_questions iv)
            /\ ~ lit "none" ∈ map q_id (iv_questions iv))
    as (iv & Hf & Hlt & Hsum & Hno).
  { eexists. split; [vm_compute; reflexivity|]. cbn.
    repeat split; [lia|].
    refine (bool_decide_unpack _ _). vm_compute. exact I. }
  exists iv. repeat (split; [assumption|]).
  destruct (question_id_is_not_checked E Demo.alice w iv Hnd Hf)
    as (i & Hl & _ & Hall).
  destruct (Hall answers Hlt Hsum) as (results & w' & d & H).
  by exists i, results, w', d.
Defined.

(** ** What each call does to the interview collection *)

Section Effects.

Context (E : Env).

Lemma start_cases request user_id w :
  (start_interview E request user_id w
     = (inl (HTTPException 400 (lit "Please upload a resume first")), w))
  \/ exists qs w1 t,
       3 <= length qs <= 7 /\ tick w <= tick w1
       /\ start_interview E request user_id w =
            (inr {| st_interview_id := uuid4_at E (tick w1);
                    st_questions := qs; st_total_questions := length qs |},
             {| db_users := db_users w; db_resumes := db_resumes w;
                db_interviews :=
                  db_interviews w ++
                  [ {| iv_id := uuid4_at E (tick w1); iv_user_id := user_id;
                       iv_job_role := req_job_role request;
                       iv_experience_level := req_experience_level request;
                       iv_interview_type := req_interview_type request;
                       iv_status := lit "in_progress";
                       iv_questions := qs; iv_responses := [];
                       iv_feedback := None; iv_created_at := t;
                       iv_completed_at := None |} ];
                tick := tick w1 + 2; stdout := stdout w1 |}).
Proof.
  unfold start_interview, interviews_insert_one, utcnow, uuid4, consult, modify,
    bind, get_world, ret, raise.
  destruct (find_one_latest _ rs_uploaded_at (db_resumes w)) as [resume|];
    [|by left].
  right.
  destruct (questions_total E (rs_text_content resume) (req_job_role request)
              (req_experience_level request) w)
    as (qs & w1 & Hrun & Hlen & Hu & Hr & Hi & Ht).
  rewrite Hrun. cbn. exists qs, w1. eexists.
  split; [exact Hlen|]. split; [exact Ht|].
  f_equal. apply world_eq; cbn; trivial; try congruence; [|lia].
  unfold insert_one. by rewrite Hi.
Qed.

(** Without any assumption on identities: a submit-response call leaves
    the collection alone, or pushes one response onto the first document
    of some identity, or does that and then sets status, feedback and
    completion time of the first document of that identity. *)
Lemma submit_effect response user_id w :
  let w' := snd (submit_response E response user_id w) in
  tick w <= tick w'
  /\ (db_interviews w' = db_interviews w
      \/ exists id rd,
           db_interviews w' =
             update_one (has_id id) (push_response rd) (db_interviews w)
           \/ exists fb t,
                db_interviews w' =
                  update_one (has_id id)
                    (set_status_feedback_completed_at (lit "completed") fb t)
                    (update_one (has_id id) (push_response rd) (db_interviews w))).
Proof.
  unfold submit_response, interviews_find_one_latest, interviews_update_one,
    interviews_find_one, utcnow, consult, modify, bind, get_world, ret, raise.
  destruct (find_one_latest _ iv_created_at (db_interviews w)) as [iv|];
    [|cbn; auto].
  cbn.
  destruct (find_one _ (update_one _ _ (db_interviews w))) as [upd|];
    [|cbn; split; [lia|]; right; eexists _, _; by left].
  cbn.
  destruct (length (iv_questions upd) <=? length (iv_responses upd));
    [|cbn; split; [lia|]; right; eexists _, _; by left].
  match goal with
  | |- context [generate_feedback E ?q ?r ?j ?w0] =>
      destruct (feedback_total E q r j w0) as (fb & w1 & Hrun & _ & _ & Hi & Ht);
      rewrite Hrun
  end.
  cbn in Hi, Ht |- *. rewrite Hi. split; [lia|].
  right. eexists _, _. right. by eexists _, _.
Qed.

Lemma register_frame user w :
  let w' := snd (register E user w) in
  tick w <= tick w' /\ db_interviews w' = db_interviews w.
Proof.
  unfold register, create_access_token, utcnow, uuid4, consult, modify, bind,
    get_world, ret, raise.
  destruct (find_one _ (db_users w)); cbn; [auto|].
  change (days 1 =? 0)%Z with false. cbn. split; [lia|reflexivity].
Qed.

Lemma upload_frame file user_id w :
  let w' := snd (upload_resume E file user_id w) in
  tick w <= tick w' /\ db_interviews w' = db_interviews w.
Proof.
  unfold upload_resume, extract_text_from_pdf, utcnow, uuid4, consult, modify,
    bind, get_world, ret, raise.
  destruct (negb (endswith_pdf (file_filename file))); cbn; [auto|].
  destruct (pdf_extract_text E (file_content file)); cbn; [|auto].
  split; [lia|reflexivity].
Qed.

Lemma get_interview_frame interview_id user_id w :
  snd (get_interview interview_id user_id w) = w.
Proof.
  unfold get_interview, interviews_find_one, bind, get_world, ret, raise.
  by destruct (find_one _ (db_interviews w)).
Qed.

(** Position by position: a call other than submit-response keeps every
    stored document; submit-response rewrites it in one of the ways of
    [Rewritten]. *)
Lemma after_lookup c w j d :
  db_interviews w !! j = Some d ->
  exists d', db_interviews (after E c w) !! j = Some d'
    /\ Rewritten d d'
    /\ (d' <> d -> exists response u, c = CallSubmitResponse response u).
Proof.
  intros Hl.
  destruct c as [user|file u|request u|response u|id u]; cbn [after].
  - destruct (register_frame user w) as [_ ->]. exists d. by repeat constructor.
  - destruct (upload_frame file u w) as [_ ->]. exists d. by repeat constructor.
  - exists d.
    destruct (start_cases request u w) as [->|(qs & w1 & t & _ & _ & ->)];
      cbn; [by repeat constructor|].
    rewrite lookup_app_l by (by apply lookup_lt_Some with d).
    by repeat constructor.
  - destruct (submit_effect response u w) as [_ Heff].
    assert (forall p f docs,
              docs !! j = Some d ->
              exists d', update_one p f docs !! j = Some d'
                         /\ (d' = d \/ d' = f d)) as Hup.
    { clear. intros p f docs Hl.
      assert (j < length (update_one p f docs)) as Hlt
        by (rewrite length_update_one; by apply lookup_lt_Some with d).
      apply lookup_lt_is_Some in Hlt as [d' Hd'].
      exists d'. split; [done|].
      destruct (lookup_update_one p f docs j d' Hd') as (d0 & Hd0 & Hcase).
      rewrite Hl in Hd0. injection Hd0 as <-.
      destruct Hcase as [->|[_ ->]]; auto. }
    destruct Heff as [->|(id & rd & [->|(fb & t & ->)])].
    + exists d. by repeat constructor.
    + destruct (Hup (has_id id) (push_response rd) _ Hl) as (d' & Hd' & [->| ->]);
        eexists; (split; [eassumption|]); split; eauto; constructor.
    + destruct (Hup (has_id id) (push_response rd) _ Hl) as (d1 & Hd1 & Hc1).
      assert (exists d', update_one (has_id id)
                (set_status_feedback_completed_at (lit "completed") fb t)
                (update_one (has_id id) (push_response rd) (db_interviews w))
                !! j = Some d'
              /\ (d' = d1
                  \/ d' = set_status_feedback_completed_at (lit "completed")
                            fb t d1)) as (d' & Hd' & Hc').
      { assert (j < length (update_one (has_id id)
                  (set_status_feedback_completed_at (lit "completed") fb t)
                  (update_one (has_id id) (push_response rd) (db_interviews w))))
          as Hlt by (rewrite !length_update_one; by apply lookup_lt_Some with d).
        apply lookup_lt_is_Some in Hlt as [d' Hd'].
        exists d'. split; [done|].
        destruct (lookup_update_one _ _ _ j d' Hd') as (d0 & Hd0 & Hcase).
        rewrite Hd1 in Hd0. injection Hd0 as <-.
        destruct Hcase as [->|[_ ->]]; auto. }
      exists d'. split; [exact Hd'|]. split; [|eauto].
      destruct Hc1 as [->| ->], Hc' as [->| ->]; constructor.
  - rewrite get_interview_frame. exists d. by repeat constructor.
Qed.

(** Every document stored after a call is a stored document rewritten,
    at the same position, or the one document start-interview appends. *)
Lemma after_docs c w j d' :
  db_interviews (after E c w) !! j = Some d' ->
  (exists d, db_interviews w !! j = Some d /\ Rewritten d d')
  \/ (j = length (db_interviews w)
      /\ (exists request u, c = CallStartInterview request u)
      /\ iv_status d' = lit "in_progress" /\ iv_responses d' = []
      /\ iv_feedback d' = None /\ 3 <= length (iv_questions d') <= 7
      /\ exists k, tick w <= k < tick (after E c w) /\ iv_id d' = uuid4_at E k).
Proof.
  intros Hj.
  destruct (db_interviews w !! j) as [d|] eqn:Hl.
  { left. exists d. split; [done|].
    destruct (after_lookup c w j d Hl) as (d0 & Hd0 & Hr & _).
    rewrite Hj in Hd0. by injection Hd0 as <-. }
  apply lookup_ge_None in Hl. right.
  destruct c as [user|file u|request u|response u|id u]; cbn [after] in *.
  - destruct (register_frame user w) as [_ Heq]. rewrite Heq in Hj.
    apply lookup_lt_Some in Hj. lia.
  - destruct (upload_frame file u w) as [_ Heq]. rewrite Heq in Hj.
    apply lookup_lt_Some in Hj. lia.
  - destruct (start_cases request u w) as [Heq|(qs & w1 & t & Hlen & Ht & Heq)];
      rewrite Heq in Hj |- *; cbn in Hj |- *.
    { apply lookup_lt_Some in Hj. lia. }
    apply lookup_app_Some in Hj as [Hj|[_ Hj]];
      [apply lookup_lt_Some in Hj; lia|].
    destruct (j - length (db_interviews w)) as [|n] eqn:Hn; [|done].
    injection Hj as <-. cbn.
    repeat split; eauto; try lia.
    exists (tick w1). split; [lia|done].
  - destruct (submit_effect response u w) as [_ Heff].
    apply lookup_lt_Some in Hj.
    destruct Heff as [Heq|(id & rd & [Heq|(fb & t & Heq)])];
      rewrite Heq, ?length_update_one in Hj; lia.
  - rewrite get_interview_frame in Hj. apply lookup_lt_Some in Hj. lia.
Qed.

End Effects.

(** ** Claims on the reachable worlds *)

Lemma Rewritten_feedback_iff_completed d d' :
  Rewritten d d' -> feedback_iff_completed d -> feedback_iff_completed d'.
Proof.
  unfold feedback_iff_completed. intros [| | |] H; cbn; trivial; by split.
Qed.

(** C6: in every world reached by calls made one after the other, the
    feedback of an interview is non-null if and only if its status is
    completed. An interview is created in_progress with null feedback,
    and a call that changes the feedback of a stored interview is a
    submit-response call that leaves it completed with feedback set. *)
Theorem feedback_present_iff_completed (E : Env) (w : World) :
  Reachable E w ->
  (forall d, d ∈ db_interviews w ->
     (iv_feedback d <> None <-> iv_status d = lit "completed"))
  /\ (forall request u r w',
        start_interview E request u w = (inr r, w') ->
        exists d, db_interviews w' = db_interviews w ++ [d]
                  /\ iv_status d = lit "in_progress" /\ iv_feedback d = None)
  /\ (forall c j d d',
        db_interviews w !! j = Some d ->
        db_interviews (after E c w) !! j = Some d' ->
        iv_feedback d' <> iv_feedback d ->
        iv_status d' = lit "completed" /\ iv_feedback d' <> None
        /\ exists response u, c = CallSubmitResponse response u).
Proof.
  intros Hreach. split; [|split].
  - induction Hreach as [w Hinit|c w Hreach IH]; intros d Hd.
    { rewrite Hinit in Hd. by apply elem_of_nil in Hd. }
    apply list_elem_of_lookup in Hd as [j Hj].
    destruct (after_docs E c w j d Hj)
      as [(d0 & Hd0 & Hr)|(_ & _ & Hs & _ & Hf & _)].
    + apply (Rewritten_feedback_iff_completed d0 d Hr).
      apply IH. by apply list_elem_of_lookup_2 with j.
    + rewrite Hs, Hf. split; [done|].
      intros Heq. symmetry in Heq. by apply completed_is_not_in_progress in Heq.
  - intros request u r w' Hrun.
    destruct (start_cases E request u w) as [Heq|(qs & w1 & t & _ & _ & Heq)];
      rewrite Heq in Hrun; [done|].
    injection Hrun as _ <-. eexists. by repeat split.
  - intros c j d d' Hl Hl' Hne.
    destruct (after_lookup E c w j d Hl) as (d0 & Hd0 & Hr & Hc).
    rewrite Hl' in Hd0. injection Hd0 as <-.
    assert (d' <> d) as Hdd by (by intros ->).
    destruct Hr as [|rd|fb t|rd fb t]; cbn in *; try done; auto.
Qed.

Lemma Reachable_started : Reachable (Demo.env Demo.down) Demo.started.
Proof. do 2 apply Reachable_call. by apply Reachable_init. Qed.

Lemma feedback_present_iff_completed_witness :
  let E := Demo.env Demo.down in
  let w := after E (CallSubmitResponse (Demo.answer "q3") Demo.alice)
             Demo.one_to_go in
  Reachable E w
  /\ (exists d, db_interviews w = [d] /\ iv_status d = lit "completed"
                /\ iv_feedback d = Some feedback_fallback)
  /\ (forall d, d ∈ db_interviews w ->
        (iv_feedback d <> None <-> iv_status d = lit "completed")).
Proof.
  intros E w.
  assert (Reachable E w) as Hreach
    by (do 3 apply Reachable_call; apply Reachable_started).
  split; [exact Hreach|].
  split; [eexists; split; [vm_compute; reflexivity|by split]|].
  exact (proj1 (feedback_present_iff_completed E w Hreach)).
Defined.

(** C10: for every input and every behaviour of the generation service,
    failure included, the question generator returns at least three and
    at most seven questions, hence never an empty list; every interview
    that start-interview creates holds these questions, no response, and
    is not complete. *)
Theorem question_count_bounds
    (E : Env) (resume_text job_role experience_level : str) (w : World) :
  (exists qs w',
     generate_interview_questions E resume_text job_role experience_level w
       = (inr qs, w')
     /\ 3 <= length qs /\ length qs <= 7 /\ qs <> [])
  /\ (forall request u r w',
        start_interview E request u w = (inr r, w') ->
        exists d,
          db_interviews w' = db_interviews w ++ [d]
          /\ iv_questions d = st_questions r
          /\ st_total_questions r = length (iv_questions d)
          /\ 3 <= length (iv_questions d) /\ length (iv_questions d) <= 7
          /\ iv_questions d <> []
          /\ iv_responses d = [] /\ iv_status d = lit "in_progress"
          /\ (length (iv_questions d) <=? length (iv_responses d)) = false).
Proof.
  split.
  - destruct (questions_total E resume_text job_role experience_level w)
      as (qs & w' & Hrun & [Hlo Hhi] & _).
    exists qs, w'. repeat split; trivial. intros ->. cbn in Hlo. lia.
  - intros request u r w' Hrun.
    destruct (start_cases E request u w)
      as [Heq|(qs & w1 & t & [Hlo Hhi] & _ & Heq)];
      rewrite Heq in Hrun; [done|].
    injection Hrun as <- <-. eexists. split; [reflexivity|]. cbn.
    repeat split; trivial.
    + intros ->. cbn in Hlo. lia.
    + apply Nat.leb_gt. lia.
Qed.

Lemma question_count_bounds_witness :
  let E := Demo.env (Demo.says "Only one question?") in
  let w := after E (CallUploadResume Demo.cv Demo.alice) Demo.empty_world in
  exists r w' d,
    start_interview E Demo.sre Demo.alice w = (inr r, w')
    /\ db_interviews w' = db_interviews w ++ [d]
    /\ iv_questions d = st_questions r
    /\ st_total_questions r = length (iv_questions d)
    /\ 3 <= length (iv_questions d) /\ length (iv_questions d) <= 7
    /\ iv_questions d <> []
    /\ iv_responses d = [] /\ iv_status d = lit "in_progress"
    /\ (length (iv_questions d) <=? length (iv_responses d)) = false.
Proof.
  intros E w.
  assert (exists r w', start_interview E Demo.sre Demo.alice w = (inr r, w'))
    as (r & w' & Hrun) by (eexists _, _; vm_compute; reflexivity).
  destruct (proj2 (question_count_bounds E [] [] [] w) Demo.sre Demo.alice r w'
              Hrun) as (d & Hd).
  by exists r, w', d.
Defined.

Section WellFormed.

Context (E : Env).

Lemma drawn_before_mono w w' d :
  tick w <= tick w' -> drawn_before E w d -> drawn_before E w' d.
Proof. intros Ht (k & Hk & Hid). exists k. split; [lia|done]. Qed.

Lemma well_formed_frame w w' :
  db_interviews w' = db_interviews w -> tick w <= tick w' ->
  well_formed E w -> well_formed E w'.
Proof.
  intros Heq Ht (Hnd & Hdrawn & Hc). unfold well_formed. rewrite Heq.
  repeat split; trivial.
  eapply Forall_impl; [exact Hdrawn|]. intros d. by apply drawn_before_mono.
Qed.

Lemma well_formed_insert w w' i iv d' :
  db_interviews w !! i = Some iv ->
  db_interviews w' = <[i := d']> (db_interviews w) -> tick w <= tick w' ->
  iv_id d' = iv_id iv -> counted d' ->
  well_formed E w -> well_formed E w'.
Proof.
  intros Hl Heq Ht Hid Hd' (Hnd & Hdrawn & Hc). unfold well_formed.
  rewrite Heq. split; [by rewrite (ids_insert _ i iv d' Hl Hid)|].
  split; apply Forall_insert; trivial.
  - eapply Forall_impl; [exact Hdrawn|]. intros d. by apply drawn_before_mono.
  - rewrite Forall_forall in Hdrawn.
    destruct (Hdrawn iv) as (k & Hk & Hiv);
      [by apply list_elem_of_lookup_2 with i|].
    exists k. split; [lia|congruence].
Qed.

Lemma well_formed_after c w :
  uuid4_fresh E -> well_formed E w -> well_formed E (after E c w).
Proof.
  intros Hfresh Hwf.
  destruct c as [user|file u|request u|response u|id u]; cbn [after].
  - destruct (register_frame E user w). by apply (well_formed_frame w).
  - destruct (upload_frame E file u w). by apply (well_formed_frame w).
  - destruct (start_cases E request u w) as [->|(qs & w1 & t & Hlen & Ht & ->)];
      [done|]. cbn.
    destruct Hwf as (Hnd & Hdrawn & Hc). unfold well_formed. cbn.
    rewrite Forall_forall in Hdrawn.
    split; [|split].
    + rewrite fmap_app. apply NoDup_app. split; [done|].
      split; [|apply NoDup_singleton].
      intros x Hx Hnew. cbn in Hnew. apply list_elem_of_singleton in Hnew as ->.
      apply list_elem_of_fmap in Hx as (d & Hid & Hd).
      destruct (Hdrawn d Hd) as (k & Hk & Hdk).
      rewrite Hdk in Hid. apply Hfresh in Hid. lia.
    + apply Forall_app. split.
      * apply Forall_forall. intros d Hd.
        destruct (Hdrawn d Hd) as (k & Hk & Hdk). exists k.
        split; [cbn; lia|done].
      * constructor; [|constructor]. exists (tick w1). split; [cbn; lia|done].
    + apply Forall_app. split; [done|].
      constructor; [|constructor]. left. cbn. split; [done|lia].
  - destruct Hwf as (Hnd & Hdrawn & Hc).
    destruct (submit_cases E response u w Hnd)
      as [[_ ->]|(i & iv & r & w' & Hf & Hl & -> & Ht & Hcase)]; [done|].
    cbn [snd].
    assert (iv_status iv = lit "in_progress") as Hs.
    { by apply (open_for_true u iv), (find_one_latest_Some _ _ _ _ Hf). }
    assert (length (iv_responses iv) < length (iv_questions iv)) as Hlt.
    { rewrite Forall_forall in Hc.
      destruct (Hc iv) as [[_ ?]|[Hdone _]];
        [by apply list_elem_of_lookup_2 with i|done|].
      rewrite Hs in Hdone. symmetry in Hdone.
      by apply completed_is_not_in_progress in Hdone. }
    destruct Hcase as [(Hlt' & _ & Heq)|(Hge & _ & fb & t & Heq)].
    + apply (well_formed_insert w w' i iv _ Hl Heq); [lia|done| |done].
      left. cbn. rewrite length_app. cbn. split; [done|lia].
    + apply (well_formed_insert w w' i iv _ Hl Heq); [lia|done| |done].
      right. cbn. rewrite length_app. cbn. split; [done|lia].
  - rewrite get_interview_frame. done.
Qed.

Lemma well_formed_reachable w :
  uuid4_fresh E -> Reachable E w -> well_formed E w.
Proof.
  intros Hfresh. induction 1 as [w Hinit|c w _ IH].
  - unfold well_formed. rewrite Hinit. repeat split; constructor.
  - by apply well_formed_after.
Qed.

End WellFormed.

(** C7: taking identities drawn by [uuid.uuid4()] to be distinct, in
    every world reached by calls made one after the other an interview
    never holds more responses than questions, and it is completed
    exactly when the two counts are equal. The status of a stored
    interview changes only in a submit-response call, from in_progress to
    completed, by the response that makes the counts equal. *)
Theorem responses_never_exceed_questions (E : Env) (w : World) :
  uuid4_fresh E -> Reachable E w ->
  (forall d, d ∈ db_interviews w ->
     length (iv_responses d) <= length (iv_questions d)
     /\ (iv_status d = lit "completed" <->
         length (iv_responses d) = length (iv_questions d))
     /\ (iv_status d = lit "in_progress" \/ iv_status d = lit "completed"))
  /\ (forall c j d d',
        db_interviews w !! j = Some d ->
        db_interviews (after E c w) !! j = Some d' ->
        (length (iv_responses d') = length (iv_questions d') ->
         iv_status d' = lit "completed")
        /\ (iv_status d' <> iv_status d ->
            (exists response u, c = CallSubmitResponse response u)
            /\ iv_status d = lit "in_progress"
            /\ iv_status d' = lit "completed"
            /\ iv_questions d' = iv_questions d
            /\ length (iv_responses d') = S (length (iv_responses d))
            /\ length (iv_responses d') = length (iv_questions d'))).
Proof.
  intros Hfresh Hreach.
  assert (forall w0, Reachable E w0 -> forall d, d ∈ db_interviews w0 ->
            length (iv_responses d) <= length (iv_questions d)
            /\ (iv_status d = lit "completed" <->
                length (iv_responses d) = length (iv_questions d))
            /\ (iv_status d = lit "in_progress" \/ iv_status d = lit "completed"))
    as Hinv.
  { intros w0 Hw0 d Hd.
    destruct (well_formed_reachable E w0 Hfresh Hw0) as (_ & _ & Hc).
    rewrite Forall_forall in Hc.
    destruct (Hc d Hd) as [[Hs Hlt]|[Hs Heq]]; rewrite Hs.
    - split; [lia|]. split; [|by left]. split; [|lia].
      intros Heq. symmetry in Heq. by apply completed_is_not_in_progress in Heq.
    - split; [lia|]. split; [done|by right]. }
  split; [by apply Hinv|].
  intros c j d d' Hl Hl'. split.
  { intros Heq. apply (Hinv (after E c w)); [by constructor| |done].
    by apply list_elem_of_lookup_2 with j. }
  intros Hne.
  destruct (after_lookup E c w j d Hl) as (d0 & Hd0 & _ & Hc).
  rewrite Hl' in Hd0. injection Hd0 as <-.
  destruct Hc as (response & u & ->); [by intros ->|].
  split; [by eexists _, _|].
  destruct (well_formed_reachable E w Hfresh Hreach) as (Hnd & _ & Hc).
  cbn [after] in Hl'.
  destruct (submit_cases E response u w Hnd)
    as [[_ Heq]|(i & iv & r & w' & Hf & Hi & Heq & _ & Hcase)];
    rewrite Heq in Hl'; cbn [snd] in Hl'.
  { rewrite Hl in Hl'. by injection Hl' as ->. }
  assert (iv_status iv = lit "in_progress") as Hs.
  { by apply (open_for_true u iv), (find_one_latest_Some _ _ _ _ Hf). }
  assert (length (iv_responses iv) < length (iv_questions iv)) as Hlt.
  { rewrite Forall_forall in Hc.
    destruct (Hc iv) as [[_ ?]|[Hdone _]];
      [by apply list_elem_of_lookup_2 with i|done|].
    rewrite Hs in Hdone. symmetry in Hdone.
    by apply completed_is_not_in_progress in Hdone. }
  destruct (decide (i = j)) as [->|Hij].
  - rewrite Hl in Hi. injection Hi as ->.
    destruct Hcase as [(_ & _ & Hdocs)|(Hge & _ & fb & t & Hdocs)];
      rewrite Hdocs, list_lookup_insert_eq in Hl'
        by (by apply lookup_lt_Some with iv);
      injection Hl' as <-; cbn in Hne |- *; [done|].
    rewrite length_app. cbn. repeat split; trivial; lia.
  - destruct Hcase as [(_ & _ & Hdocs)|(_ & _ & fb & t & Hdocs)];
      rewrite Hdocs, list_lookup_insert_ne in Hl' by done;
      rewrite Hl in Hl'; by injection Hl' as ->.
Qed.

Lemma lit_inj s1 s2 : lit s1 = lit s2 -> s1 = s2.
Proof.
  unfold lit. intros H.
  rewrite <- (string_of_list_ascii_of_string s1),
          <- (string_of_list_ascii_of_string s2).
  f_equal. revert H.
  generalize (list_ascii_of_string s1) (list_ascii_of_string s2).
  induction l as [|a l IH]; intros [|b l']; simpl; try done.
  intros [= Hab Hl]. f_equal; [|by apply IH].
  by rewrite <- (ascii_N_embedding a), <- (ascii_N_embedding b), Hab.
Qed.

Lemma str_of_nat_inj j k : str_of_nat j = str_of_nat k -> j = k.
Proof.
  unfold str_of_nat. intros H%lit_inj.
  apply (f_equal NilEmpty.uint_of_string) in H.
  rewrite !NilEmpty.usu in H. injection H as H.
  apply (f_equal Nat.of_uint) in H. by rewrite !DecimalNat.Unsigned.of_to in H.
Qed.

Lemma Demo_uuid4_fresh llm : uuid4_fresh (Demo.env llm).
Proof.
  intros j k H. cbn in H. apply app_inv_head in H. by apply str_of_nat_inj.
Qed.

Lemma responses_never_exceed_questions_witness :
  let E := Demo.env Demo.down in
  let w := Demo.one_to_go in
  let c := CallSubmitResponse (Demo.answer "q3") Demo.alice in
  uuid4_fresh E /\ Reachable E w
  /\ (forall d, d ∈ db_interviews w ->
        length (iv_responses d) <= length (iv_questions d)
        /\ (iv_status d = lit "completed" <->
            length (iv_responses d) = length (iv_questions d))
        /\ (iv_status d = lit "in_progress" \/ iv_status d = lit "completed"))
  /\ exists d d',
       db_interviews w !! 0 = Some d
       /\ db_interviews (after E c w) !! 0 = Some d'
       /\ iv_status d = lit "in_progress"
       /\ iv_status d' = lit "completed"
       /\ iv_questions d' = iv_questions d
       /\ length (iv_responses d') = S (length (iv_responses d))
       /\ length (iv_responses d') = length (iv_questions d').
Proof.
  intros E w c.
  assert (uuid4_fresh E) as Hfresh by apply Demo_uuid4_fresh.
  assert (Reachable E w) as Hreach
    by (do 2 apply Reachable_call; apply Reachable_started).
  destruct (responses_never_exceed_questions E w Hfresh Hreach) as [Hinv Hstep].
  repeat (split; [assumption|]).
  assert (exists d d', db_interviews w !! 0 = Some d
                       /\ db_interviews (after E c w) !! 0 = Some d'
                       /\ iv_status d' <> iv_status d) as (d & d' & Hd & Hd' & Hne).
  { eexists _, _. split; [vm_compute; reflexivity|].
    split; [vm_compute; reflexivity|]. vm_compute. discriminate. }
  exists d, d'. repeat (split; [assumption|]).
  by apply (Hstep c 0 d d' Hd Hd').
Defined.

(** ** Registration and the authentication gate *)

Lemma exp_is_not_sub : lit "exp" <> lit "sub".
Proof. discriminate. Qed.

(** C8: for every successful registration, the returned token passed
    through the authentication gate resolves to the identity of the user
    that the registration created, at every instant at which decoding
    accepts the token and returns the subject claim encoded into it. *)
Theorem registered_token_resolves
    (E : Env) (user : UserRegistration) (w w1 : World) (r : TokenResponse) :
  register E user w = (inr r, w1) ->
  (exists doc,
     db_users w1 = db_users w ++ [doc]
     /\ u_id doc = tr_user_id r /\ u_email doc = reg_email user)
  /\ forall w2,
       codec_keeps_sub E (tick w2) (tr_access_token r) ->
       get_current_user E (tr_access_token r) w2
         = (inr (PyStr (tr_user_id r)), set_tick (S (tick w2)) w2).
Proof.
  unfold register, create_access_token, utcnow, uuid4, consult, modify, bind,
    get_world, ret, raise.
  destruct (find_one _ (db_users w)); [done|]. cbn.
  change (days 1 =? 0)%Z with false. cbn.
  intros [= <- <-]. cbn. split.
  { eexists. by repeat split. }
  intros w2 Hcodec.
  destruct (Hcodec _ _ _ eq_refl) as (decoded & Hdec & Hsub).
  rewrite lookup_insert_ne in Hsub by apply exp_is_not_sub.
  rewrite lookup_singleton_eq in Hsub.
  unfold get_current_user, try_except, consult, bind, ret, raise.
  cbn. rewrite Hdec. cbn. by rewrite Hsub.
Qed.

Lemma Desk_codec_keeps_sub llm k token : codec_keeps_sub (Desk.env llm) k token.
Proof.
  intros payload key alg ->. cbn.
  exists (alter Desk.whole_seconds (lit "exp") payload).
  split; [apply decode_encode|].
  apply lookup_alter_ne. apply exp_is_not_sub.
Qed.

Lemma registered_token_resolves_witness :
  let E := Desk.env Demo.down in
  let user := {| reg_email := lit "a@b.c"; reg_password := lit "pw";
                 reg_name := lit "Alice" |} in
  exists r w1,
    register E user Demo.empty_world = (inr r, w1)
    /\ codec_keeps_sub E (tick w1) (tr_access_token r)
    /\ tr_user_id r = lit "id-0"
    /\ get_current_user E (tr_access_token r) w1
       = (inr (PyStr (tr_user_id r)), set_tick (S (tick w1)) w1).
Proof.
  intros E user.
  assert (exists r w1, register E user Demo.empty_world = (inr r, w1)
                       /\ tr_user_id r = lit "id-0")
    as (r & w1 & Hrun & Hid).
  { unfold register, create_access_token, utcnow, uuid4, consult, modify, bind,
      get_world, ret, raise. cbn. eexists _, _. split; reflexivity. }
  exists r, w1.
  assert (codec_keeps_sub E (tick w1) (tr_access_token r)) as Hcodec
    by apply Desk_codec_keeps_sub.
  repeat (split; [assumption|]).
  exact (proj2 (registered_token_resolves E user Demo.empty_world w1 r Hrun)
           w1 Hcodec).
Defined.

(** ** Why identities are taken to be distinct *)

(** The update filter of submit-response is the identity alone. Were two
    interviews to carry the same identity, a response of the second
    caller would land on the first caller's completed interview, which
    then holds more responses than questions. *)
Remark repeated_identities_break_the_count :
  Reachable Demo.stuck Demo.crossed
  /\ ~ uuid4_fresh Demo.stuck
  /\ map (fun d => (iv_user_id d, iv_status d, length (iv_questions d),
                    map r_answer (iv_responses d)))
       (db_interviews Demo.crossed)
     = [ (Demo.alice, lit "completed", 3,
          [lit "It depends."; lit "It depends."; lit "It depends.";
           lit "It depends."]);
         (Demo.bob, lit "in_progress", 3, []) ].
Proof.
  split; [|split].
  - unfold Demo.crossed. cbn [fold_left].
    do 8 apply Reachable_call. by apply Reachable_init.
  - intros H. by specialize (H 0 1 eq_refl).
  - vm_compute. reflexivity.
Qed.

(** * Further properties of the code *)

(** ** Splitting and stripping *)

Lemma split_nl_cons c s :
  split_nl (c :: s) =
    if (c =? 10)%N then [] :: split_nl s
    else match split_nl s with
         | w :: ws => (c :: w) :: ws
         | [] => [[c]]
         end.
Proof. reflexivity. Qed.

Lemma split_nl_not_nil s : split_nl s <> [].
Proof.
  destruct s as [|c s]; [done|]. rewrite split_nl_cons.
  destruct (c =? 10)%N; [done|]. by destruct (split_nl s).
Qed.

Lemma unlines_cons l ls : ls <> [] -> unlines (l :: ls) = l ++ nl ++ unlines ls.
Proof. by destruct ls. Qed.

(** X1: splitting a reply on newlines loses nothing. Joining the pieces
    with newlines gives the reply back, no piece contains a newline, and
    there is one more piece than there are newlines. *)
Theorem split_nl_join (s : str) :
  unlines (split_nl s) = s
  /\ Forall (fun piece => 10%N ∉ piece) (split_nl s)
  /\ length (split_nl s) = S (length (List.filter (N.eqb 10) s)).
Proof.
  induction s as [|c s (IHj & IHn & IHl)].
  { repeat split. constructor; [|constructor]. apply not_elem_of_nil. }
  rewrite split_nl_cons. pose proof (split_nl_not_nil s) as Hne.
  destruct (N.eqb_spec c 10) as [->|Hc].
  - cbn [List.filter N.eqb Pos.eqb]. repeat split.
    + rewrite unlines_cons by done. by rewrite IHj.
    + constructor; [apply not_elem_of_nil|done].
    + cbn. by rewrite IHl.
  - assert ((10 =? c)%N = false) as Hc' by (apply N.eqb_neq; congruence).
    cbn [List.filter]. rewrite Hc'.
    destruct (split_nl s) as [|w ws] eqn:Hs; [done|].
    repeat split.
    + rewrite <- IHj. destruct ws; reflexivity.
    + apply Forall_cons in IHn as [Hw Hws]. constructor; [|done].
      intros [Heq|?]%elem_of_cons; [congruence|done].
    + exact IHl.
Qed.

Lemma lstrip_spec s :
  exists p, s = p ++ lstrip s
    /\ forall c, head (lstrip s) = Some c -> isspace c = false.
Proof.
  induction s as [|c s (p & Hp & Hh)]; [by exists []|].
  cbn [lstrip]. destruct (isspace c) eqn:Hc.
  - exists (c :: p). split; [cbn; by rewrite <- Hp|done].
  - exists []. split; [done|]. cbn. by intros ? [= <-].
Qed.

Lemma lstrip_id s :
  (forall c, head s = Some c -> isspace c = false) -> lstrip s = s.
Proof. destruct s as [|c s]; [done|]. cbn. intros H. by rewrite (H c). Qed.

Lemma last_rev (s : str) : last (rev s) = head s.
Proof. destruct s as [|c s]; [done|]. cbn [rev]. apply last_snoc. Qed.

Lemma head_rev (s : str) : head (rev s) = last s.
Proof. by rewrite <- (rev_involutive s) at 2; rewrite last_rev. Qed.

Lemma rstrip_spec s :
  exists p, s = rstrip s ++ p
    /\ forall c, last (rstrip s) = Some c -> isspace c = false.
Proof.
  unfold rstrip. destruct (lstrip_spec (rev s)) as (p & Hp & Hh).
  exists (rev p). split.
  - rewrite <- rev_app_distr, <- Hp. by rewrite rev_involutive.
  - intros c. rewrite last_rev. apply Hh.
Qed.

Lemma rstrip_id s :
  (forall c, last s = Some c -> isspace c = false) -> rstrip s = s.
Proof.
  intros H. unfold rstrip. rewrite lstrip_id; [apply rev_involutive|].
  intros c. rewrite head_rev. apply H.
Qed.

Lemma strip_edges s :
  (forall c, head (strip s) = Some c -> isspace c = false)
  /\ (forall c, last (strip s) = Some c -> isspace c = false).
Proof.
  unfold strip.
  destruct (lstrip_spec s) as (_ & _ & Hh).
  destruct (rstrip_spec (lstrip s)) as (p & Hp & Hl).
  split; [|exact Hl]. intros c Hc. apply Hh. rewrite Hp.
  by destruct (rstrip (lstrip s)).
Qed.

Lemma strip_idempotent s : strip (strip s) = strip s.
Proof.
  destruct (strip_edges s) as [Hh Hl].
  unfold strip at 1. rewrite (lstrip_id _ Hh). by apply rstrip_id.
Qed.

(** X2: the text of every question parsed from a reply is non-empty and
    carries no white space at either end; stripping it again changes
    nothing. *)
Theorem parsed_texts_are_stripped (E : Env) (text : str) (k : nat) (q : Question) :
  q ∈ parsed E text k ->
  q_question q <> []
  /\ strip (q_question q) = q_question q
  /\ (forall c, head (q_question q) = Some c -> isspace c = false)
  /\ (forall c, last (q_question q) = Some c -> isspace c = false).
Proof.
  unfold parsed. intros Hq.
  pose proof (kept_sound (take 7 (split_nl text)) 0) as Hs.
  pose proof (questions_from_content E (kept 0 (take 7 (split_nl text))) k) as Hc.
  assert (exists line, keeps line = true /\ q_question q = strip line)
    as (line & Hk & ->).
  { revert Hs Hc Hq. generalize (questions_from E k (kept 0 (take 7 (split_nl text)))).
    generalize (kept 0 (take 7 (split_nl text))). clear.
    intros l l' Hs Hc. induction Hc as [|[i x] d l l' (Hx & _) _ IH]; intros Hq.
    { by apply elem_of_nil in Hq. }
    apply Forall_cons in Hs as [(_ & _ & Hk) Hs].
    apply elem_of_cons in Hq as [->|Hq]; [by exists x|by apply IH]. }
  unfold keeps in Hk. apply andb_true_iff in Hk as [Ht _].
  split; [by destruct (strip line)|].
  split; [apply strip_idempotent|apply strip_edges].
Qed.

Lemma parsed_texts_are_stripped_witness :
  let E := Demo.env Demo.down in
  let text := unlines [lit "  What is a monad?  "; lit "# heading"; lit "  "] in
  exists q,
    parsed E text 0 = [q]
    /\ q_question q = lit "What is a monad?"
    /\ strip (q_question q) = q_question q.
Proof.
  intros E text.
  assert (exists q, parsed E text 0 = [q]
                    /\ q_question q = lit "What is a monad?") as (q & Hp & Hq)
    by (eexists; split; [vm_compute; reflexivity|reflexivity]).
  exists q. repeat (split; [assumption|]).
  apply (parsed_texts_are_stripped E text 0 q).
  rewrite Hp. apply list_elem_of_here.
Defined.

(** ** More on the question generator *)

(** X3: the generator reads only the first 3000 code points of the
    resume: two resumes that agree on them give the same run, whatever
    follows. *)
Theorem resume_is_truncated
    (E : Env) (resume1 resume2 job_role experience_level : str) (w : World) :
  take 3000 resume1 = take 3000 resume2 ->
  generate_interview_questions E resume1 job_role experience_level w
    = generate_interview_questions E resume2 job_role experience_level w.
Proof.
  intros H.
  assert (questions_user_message resume1 job_role experience_level
          = questions_user_message resume2 job_role experience_level) as Hmsg
    by (unfold questions_user_message; by rewrite H).
  unfold generate_interview_questions. by rewrite Hmsg.
Qed.

Lemma resume_is_truncated_witness :
  let E := Demo.env Demo.down in
  let resume1 := replicate 3000 97%N ++ lit "Rocq" in
  let resume2 := replicate 3000 97%N ++ lit "COBOL, at length" in
  resume1 <> resume2
  /\ generate_interview_questions E resume1 (lit "SRE") (lit "mid")
       Demo.empty_world
     = generate_interview_questions E resume2 (lit "SRE") (lit "mid")
         Demo.empty_world.
Proof.
  intros E resume1 resume2. split.
  - intros H. apply (f_equal (fun l => l !! 3000)) in H.
    vm_compute in H. discriminate.
  - apply resume_is_truncated. vm_compute. reflexivity.
Defined.

Section GeneratorIdentities.

Context (E : Env).

(** The identities of the questions returned are consecutive draws made
    during the run. *)
Lemma questions_ids resume_text job_role experience_level w qs w' :
  generate_interview_questions E resume_text job_role experience_level w
    = (inr qs, w') ->
  exists k,
    map q_id qs = map (uuid4_at E) (seq k (length qs))
    /\ tick w < k /\ k + length qs = tick w'.
Proof.
  intros Hrun.
  destruct (questions_outcome E resume_text job_role experience_level (tick w))
    as [text|msg] eqn:Hout.
  - destruct (le_lt_dec 3 (length (parsed E text (tick w + 2)))) as [Hge|Hlt].
    + rewrite (questions_when_parsed _ _ _ _ _ _ Hout Hge) in Hrun.
      injection Hrun as <- <-. exists (tick w + 2).
      split; [|cbn; lia].
      unfold parsed. rewrite questions_from_ids.
      by rewrite length_questions_from.
    + revert Hrun. clear Hlt.
      unfold generate_interview_questions, try_except, bind, send_message,
        uuid4, consult, ret, raise; cbn.
      unfold questions_outcome in Hout; cbn in Hout; rewrite Hout; cbn.
      rewrite parse_loop_run; cbn.
      match goal with |- context [?a <? 3] => destruct (Nat.ltb_spec a 3) end.
      * unfold parse_fallback, new_question, bind, uuid4, consult, ret; cbn.
        intros [= <- <-]. eexists. split; [reflexivity|]. cbn. lia.
      * intros [= <- <-]. exists (S (S (tick w))).
        rewrite questions_from_ids, length_questions_from.
        split; [done|]. cbn. lia.
  - rewrite (questions_when_raised _ _ _ _ _ _ Hout) in Hrun.
    injection Hrun as <- <-. exists (tick w + 2).
    split; [|cbn; lia]. cbn.
    by rewrite ?Nat.add_succ_r, ?Nat.add_0_r.
Qed.

Lemma NoDup_draws k n : uuid4_fresh E -> NoDup (map (uuid4_at E) (seq k n)).
Proof.
  intros Hfresh. apply NoDup_fmap_2; [|apply NoDup_seq].
  intros i j. apply Hfresh.
Qed.

End GeneratorIdentities.

(** ** More on start-interview *)

Section StartInterview.

Context (E : Env).

Lemma start_without_resume request user_id w :
  find_one_latest (owns_resume user_id) rs_uploaded_at (db_resumes w) = None ->
  start_interview E request user_id w
    = (inl (HTTPException 400 (lit "Please upload a resume first")), w).
Proof.
  intros H. unfold start_interview, bind, get_world, ret, raise.
  fold (owns_resume user_id). by rewrite H.
Qed.

Lemma start_run request user_id w resume qs w1 :
  find_one_latest (owns_resume user_id) rs_uploaded_at (db_resumes w)
    = Some resume ->
  generate_interview_questions E (rs_text_content resume) (req_job_role request)
    (req_experience_level request) w = (inr qs, w1) ->
  start_interview E request user_id w =
    (inr {| st_interview_id := uuid4_at E (tick w1);
            st_questions := qs; st_total_questions := length qs |},
     {| db_users := db_users w1; db_resumes := db_resumes w1;
        db_interviews :=
          db_interviews w1 ++
          [ {| iv_id := uuid4_at E (tick w1); iv_user_id := user_id;
               iv_job_role := req_job_role request;
               iv_experience_level := req_experience_level request;
               iv_interview_type := req_interview_type request;
               iv_status := lit "in_progress";
               iv_questions := qs; iv_responses := [];
               iv_feedback := None;
               iv_created_at := utcnow_at E (S (tick w1));
               iv_completed_at := None |} ];
        tick := S (S (tick w1)); stdout := stdout w1 |}).
Proof.
  intros Hf Hrun.
  unfold start_interview, interviews_insert_one, utcnow, uuid4, consult, modify,
    bind, get_world, ret, raise.
  fold (owns_resume user_id). rewrite Hf, Hrun. reflexivity.
Qed.

Lemma start_inv request user_id w r w' :
  start_interview E request user_id w = (inr r, w') ->
  exists resume qs w1,
    find_one_latest (owns_resume user_id) rs_uploaded_at (db_resumes w)
      = Some resume
    /\ generate_interview_questions E (rs_text_content resume)
         (req_job_role request) (req_experience_level request) w = (inr qs, w1)
    /\ st_interview_id r = uuid4_at E (tick w1)
    /\ st_questions r = qs
    /\ tick w' = S (S (tick w1))
    /\ db_interviews w' =
         db_interviews w ++
         [ {| iv_id := uuid4_at E (tick w1); iv_user_id := user_id;
              iv_job_role := req_job_role request;
              iv_experience_level := req_experience_level request;
              iv_interview_type := req_interview_type request;
              iv_status := lit "in_progress";
              iv_questions := qs; iv_responses := [];
              iv_feedback := None;
              iv_created_at := utcnow_at E (S (tick w1));
              iv_completed_at := None |} ].
Proof.
  intros Hstart.
  destruct (find_one_latest (owns_resume user_id) rs_uploaded_at (db_resumes w))
    as [resume|] eqn:Hf;
    [|by rewrite (start_without_resume _ _ _ Hf) in Hstart].
  destruct (questions_total E (rs_text_content resume) (req_job_role request)
              (req_experience_level request) w)
    as (qs & w1 & Hrun & _ & _ & _ & Hi & _).
  rewrite (start_run _ _ _ _ _ _ Hf Hrun) in Hstart.
  injection Hstart as <- <-. exists resume, qs, w1. cbn. by rewrite Hi.
Qed.

(** X4: taking [uuid.uuid4()] never to repeat itself, the identity of a
    new interview and the identities of its questions are pairwise
    distinct, and each of them is drawn during the call. *)
Theorem start_identities_distinct request user_id w r w' :
  uuid4_fresh E ->
  start_interview E request user_id w = (inr r, w') ->
  NoDup (st_interview_id r :: map q_id (st_questions r))
  /\ forall id, id ∈ st_interview_id r :: map q_id (st_questions r) ->
       exists k, tick w <= k < tick w' /\ id = uuid4_at E k.
Proof.
  intros Hfresh Hstart.
  destruct (start_inv _ _ _ _ _ Hstart)
    as (resume & qs & w1 & _ & Hrun & -> & -> & Ht & _).
  destruct (questions_ids E _ _ _ _ _ _ Hrun) as (k & Hids & Hk & Hend).
  assert (uuid4_at E (tick w1) :: map q_id qs
          = map (uuid4_at E) (tick w1 :: seq k (length qs))) as ->
    by (cbn; by rewrite Hids).
  split.
  - apply NoDup_fmap_2; [intros i j; apply Hfresh|].
    apply NoDup_cons. split; [|apply NoDup_seq].
    rewrite elem_of_seq. lia.
  - intros id (j & -> & Hj)%list_elem_of_fmap. exists j. split; [|done].
    apply elem_of_cons in Hj as [->|Hj]; [lia|].
    apply elem_of_seq in Hj. lia.
Qed.

End StartInterview.

Lemma start_identities_distinct_witness :
  let E := Demo.env (Demo.says "Only one question?") in
  let w := after E (CallUploadResume Demo.cv Demo.alice) Demo.empty_world in
  exists r w',
    uuid4_fresh E
    /\ start_interview E Demo.sre Demo.alice w = (inr r, w')
    /\ length (st_questions r) = 5
    /\ NoDup (st_interview_id r :: map q_id (st_questions r)).
Proof.
  intros E w.
  assert (uuid4_fresh E) as Hfresh by apply Demo_uuid4_fresh.
  assert (exists r w', start_interview E Demo.sre Demo.alice w = (inr r, w')
                       /\ length (st_questions r) = 5)
    as (r & w' & Hrun & Hlen)
    by (eexists _, _; split; [vm_compute; reflexivity|reflexivity]).
  exists r, w'. repeat (split; [assumption|]).
  exact (proj1 (start_identities_distinct E Demo.sre Demo.alice w r w'
                  Hfresh Hrun)).
Defined.

(** ** More on the feedback generator *)

Lemma transcript_loop_pairs questions : forall i responses acc,
  transcript_loop i questions responses acc
    = transcript_of_pairs i
        (zip (map q_question questions) (map r_answer responses)) acc.
Proof.
  induction questions as [|q qs IH]; intros i [|r rs] acc; try reflexivity.
  cbn [map zip zip_with transcript_of_pairs]. rewrite <- IH. reflexivity.
Qed.

(** X5: the feedback request pairs questions and answers by list position
    and reads nothing but the question texts and the answers. Two
    transcripts whose paired texts agree give the same run: identities,
    tags, topics, the question identity and time of a response, and
    whatever lies beyond the shorter list are not read. *)
Theorem feedback_pairs_by_position
    (E : Env) (questions questions' : list Question)
    (responses responses' : list Response) (job_role : str) (w : World) :
  zip (map q_question questions) (map r_answer responses)
    = zip (map q_question questions') (map r_answer responses') ->
  generate_feedback E questions responses job_role w
    = generate_feedback E questions' responses' job_role w.
Proof.
  intros H. unfold generate_feedback.
  by rewrite !transcript_loop_pairs, H.
Qed.

Lemma feedback_pairs_by_position_witness :
  let E := Demo.env (Demo.says "Good.") in
  generate_feedback E
    [Desk.question "1" "Why?"; Desk.question "2" "How?";
     Desk.question "3" "When?"]
    [Desk.response "3" 7%Z] (lit "SRE") Demo.empty_world
  = generate_feedback E [Desk.question "9" "Why?"]
      [Desk.response "none" 0%Z; Desk.response "1" 1%Z] (lit "SRE")
      Demo.empty_world.
Proof.
  intros E. apply feedback_pairs_by_position. reflexivity.
Defined.

(** X6: when the generation service answers, the feedback is its reply
    as it is, even an empty one. Either way the run draws one identity
    and makes one call, so that the instant advances by two, no
    collection changes, and a line is printed only when the call
    raised. *)
Theorem feedback_is_the_reply
    (E : Env) (questions : list Question) (responses : list Response)
    (job_role : str) (w : World) :
  exists fb w',
    generate_feedback E questions responses job_role w = (inr fb, w')
    /\ tick w' = tick w + 2
    /\ db_users w' = db_users w /\ db_resumes w' = db_resumes w
    /\ db_interviews w' = db_interviews w
    /\ match feedback_outcome E questions responses job_role (tick w) with
       | Reply text => fb = text /\ stdout w' = stdout w
       | Raised msg =>
           fb = feedback_fallback
           /\ stdout w' = stdout w ++ [lit "Error generating feedback: " ++ msg]
       end.
Proof.
  destruct (feedback_outcome E questions responses job_role (tick w))
    as [text|msg] eqn:Hout.
  - rewrite (feedback_when_reply _ _ _ _ _ _ Hout). eexists _, _.
    by repeat split.
  - rewrite (feedback_when_raised _ _ _ _ _ _ Hout). eexists _, _.
    by repeat split.
Qed.

(** ** The token helpers and the gate *)

Section Tokens.

Context (E : Env).

(** X7: the token made by [create_access_token] encodes the given claims
    with an expiry of now plus the given validity. A missing validity
    and a validity of zero both give fifteen minutes; an expiry among the
    given claims is overwritten; every other claim is kept. *)
Theorem token_claims (data : gmap str PyVal) (expires_delta : option Z)
    (w : World) :
  exists payload,
    create_access_token E data expires_delta w
      = (inr (jwt_encode E payload SECRET_KEY ALGORITHM), set_tick (S (tick w)) w)
    /\ payload !! lit "exp"
       = Some (PyDatetime (utcnow_at E (tick w) + validity expires_delta)%Z)
    /\ (forall key, key <> lit "exp" -> payload !! key = data !! key)
    /\ validity None = minutes 15 /\ validity (Some 0%Z) = minutes 15.
Proof.
  exists (<[lit "exp" :=
             PyDatetime (utcnow_at E (tick w) + validity expires_delta)%Z]> data).
  repeat split.
  - unfold create_access_token, validity, utcnow, consult, bind, ret.
    destruct expires_delta as [d|]; [|reflexivity].
    by destruct (d =? 0)%Z.
  - apply lookup_insert_eq.
  - intros key Hkey. by apply lookup_insert_ne.
Qed.

(** X8: the gate answers in one of two ways only. It returns the subject
    claim of the decoded token, which is then not [None]; or it raises
    the 401 error, exactly when decoding fails or the subject is missing
    or [None]. It never returns [None], never raises anything else, and
    changes nothing but the instant. *)
Theorem gate_outcomes (credentials : str) (w : World) :
  snd (get_current_user E credentials w) = set_tick (S (tick w)) w
  /\ ((fst (get_current_user E credentials w) = inl invalid_credentials
       /\ (jwt_decode_at E (tick w) credentials SECRET_KEY [ALGORITHM] = None
           \/ exists payload,
                jwt_decode_at E (tick w) credentials SECRET_KEY [ALGORITHM]
                  = Some payload
                /\ (payload !! lit "sub" = None
                    \/ payload !! lit "sub" = Some PyNone)))
      \/ exists payload user_id,
           jwt_decode_at E (tick w) credentials SECRET_KEY [ALGORITHM]
             = Some payload
           /\ payload !! lit "sub" = Some user_id
           /\ user_id <> PyNone
           /\ fst (get_current_user E credentials w) = inr user_id).
Proof.
  unfold get_current_user, try_except, consult, bind, ret, raise. cbn.
  destruct (jwt_decode_at E (tick w) credentials SECRET_KEY [ALGORITHM])
    as [payload|]; cbn; [|split; [done|]; left; by split; [|left]].
  destruct (payload !! lit "sub") as [[s|t|]|] eqn:Hsub; cbn;
    (split; [done|]).
  - right. by exists payload, (PyStr s).
  - right. by exists payload, (PyDatetime t).
  - left. split; [done|]. right. exists payload. split; [done|by right].
  - left. split; [done|]. right. exists payload. split; [done|by left].
Qed.

End Tokens.

Lemma token_claims_witness :
  let E := Demo.env Demo.down in
  let data : gmap str PyVal :=
    {[ lit "sub" := PyStr (lit "id-0"); lit "exp" := PyDatetime 1%Z ]} in
  exists payload,
    fst (create_access_token E data (Some 0%Z) Demo.empty_world)
      = inr (jwt_encode E payload SECRET_KEY ALGORITHM)
    /\ payload !! lit "exp" = Some (PyDatetime (minutes 15))
    /\ payload !! lit "sub" = Some (PyStr (lit "id-0")).
Proof.
  intros E data.
  destruct (token_claims E data (Some 0%Z) Demo.empty_world)
    as (payload & Hrun & Hexp & Hkeep & _).
  exists payload. rewrite Hrun. split; [done|]. split; [exact Hexp|].
  rewrite (Hkeep (lit "sub")) by discriminate.
  unfold data. rewrite lookup_insert_eq. reflexivity.
Defined.

(** ** Accounts *)

Lemma find_one_None {A} (p : A -> bool) docs :
  find_one p docs = None <-> forall d, d ∈ docs -> p d = false.
Proof.
  induction docs as [|x xs IH]; simpl.
  - split; [|done]. intros _ d Hd. by apply elem_of_nil in Hd.
  - destruct (p x) eqn:Hx.
    + split; [done|]. intros H. rewrite (H x) in Hx; [done|apply list_elem_of_here].
    + rewrite IH. split.
      * intros H d [->|Hd]%elem_of_cons; auto.
      * intros H d Hd. apply H. by apply list_elem_of_further.
Qed.

Lemma find_one_app_l {A} (p : A -> bool) l1 l2 d :
  find_one p l1 = Some d -> find_one p (l1 ++ l2) = Some d.
Proof.
  induction l1 as [|x xs IH]; simpl; [done|]. by destruct (p x).
Qed.

Lemma find_one_app_r {A} (p : A -> bool) l1 l2 :
  find_one p l1 = None -> find_one p (l1 ++ l2) = find_one p l2.
Proof.
  induction l1 as [|x xs IH]; simpl; [done|]. by destruct (p x).
Qed.

Section Accounts.

Context (E : Env) (verify_password : str -> str -> bool).

Lemma has_email_true email d : has_email email d = true <-> u_email d = email.
Proof. unfold has_email, str_eqb. apply bool_decide_eq_true. Qed.

Lemma has_email_false email d : has_email email d = false <-> u_email d <> email.
Proof. unfold has_email, str_eqb. apply bool_decide_eq_false. Qed.

Lemma register_taken user w d :
  find_one (has_email (reg_email user)) (db_users w) = Some d ->
  register E user w = (inl (HTTPException 400 (lit "Email already registered")), w).
Proof.
  intros H. unfold register, bind, get_world, ret, raise.
  fold (has_email (reg_email user)). by rewrite H.
Qed.

Lemma register_free user w :
  find_one (has_email (reg_email user)) (db_users w) = None ->
  register E user w =
    (inr {| tr_access_token :=
              jwt_encode E (issued E (uuid4_at E (tick w)) (tick w + 3))
                SECRET_KEY ALGORITHM;
            tr_token_type := lit "bearer";
            tr_user_id := uuid4_at E (tick w);
            tr_user_email := reg_email user; tr_user_name := reg_name user |},
     {| db_users := db_users w ++ [new_user E user w];
        db_resumes := db_resumes w; db_interviews := db_interviews w;
        tick := tick w + 4; stdout := stdout w |}).
Proof.
  intros H.
  unfold register, create_access_token, utcnow, uuid4, consult, modify, bind,
    get_world, ret, raise.
  fold (has_email (reg_email user)). rewrite H. cbn.
  change (days 1 =? 0)%Z with false. cbn.
  unfold issued, new_user, insert_one.
  replace (tick w + 3) with (S (S (S (tick w)))) by lia.
  replace (tick w + 4) with (S (S (S (S (tick w))))) by lia.
  reflexivity.
Qed.

Lemma login_unknown user w :
  find_one (has_email (login_email user)) (db_users w) = None ->
  login E verify_password user w = (inl invalid_login, w).
Proof.
  intros H. unfold login, bind, get_world, ret, raise.
  fold (has_email (login_email user)). by rewrite H.
Qed.

Lemma login_rejected user w d :
  find_one (has_email (login_email user)) (db_users w) = Some d ->
  verify_password (login_password user) (u_password d) = false ->
  login E verify_password user w = (inl invalid_login, w).
Proof.
  intros H Hv. unfold login, bind, get_world, ret, raise.
  fold (has_email (login_email user)). by rewrite H, Hv.
Qed.

Lemma login_accepted user w d :
  find_one (has_email (login_email user)) (db_users w) = Some d ->
  verify_password (login_password user) (u_password d) = true ->
  login E verify_password user w =
    (inr {| tr_access_token :=
              jwt_encode E (issued E (u_id d) (tick w)) SECRET_KEY ALGORITHM;
            tr_token_type := lit "bearer"; tr_user_id := u_id d;
            tr_user_email := u_email d; tr_user_name := u_name d |},
     set_tick (S (tick w)) w).
Proof.
  intros H Hv.
  unfold login, create_access_token, utcnow, consult, bind, get_world, ret, raise.
  fold (has_email (login_email user)). rewrite H, Hv. cbn.
  change (days 1 =? 0)%Z with false. reflexivity.
Qed.

End Accounts.

(** ** What each request does to users and resumes *)

Section Frames.

Context (E : Env) (verify_password : str -> str -> bool).

Lemma submit_frame response user_id w :
  let w' := snd (submit_response E response user_id w) in
  db_users w' = db_users w /\ db_resumes w' = db_resumes w.
Proof.
  unfold submit_response, interviews_find_one_latest, interviews_update_one,
    interviews_find_one, utcnow, consult, modify, bind, get_world, ret, raise.
  destruct (find_one_latest _ iv_created_at (db_interviews w)) as [iv|];
    [|by cbn].
  cbn.
  destruct (find_one _ (update_one _ _ (db_interviews w))) as [upd|]; [|by cbn].
  cbn.
  destruct (length (iv_questions upd) <=? length (iv_responses upd)); [|by cbn].
  match goal with
  | |- context [generate_feedback E ?q ?r ?j ?w0] =>
      destruct (feedback_total E q r j w0) as (fb & w1 & Hrun & Hu & Hr & _ & _);
      rewrite Hrun
  end.
  cbn in Hu, Hr |- *. by rewrite Hu, Hr.
Qed.

Lemma login_frame user w :
  let w' := snd (login E verify_password user w) in
  db_users w' = db_users w /\ db_resumes w' = db_resumes w
  /\ db_interviews w' = db_interviews w /\ tick w <= tick w'.
Proof.
  destruct (find_one (has_email (login_email user)) (db_users w)) as [d|] eqn:Hf.
  - destruct (verify_password (login_password user) (u_password d)) eqn:Hv.
    + rewrite (login_accepted E _ _ _ _ Hf Hv). cbn. repeat split; lia.
    + rewrite (login_rejected E _ _ _ _ Hf Hv). by cbn.
  - rewrite (login_unknown E _ _ _ Hf). by cbn.
Qed.

(** A request leaves the users as they are, unless it is a registration
    with an email not yet stored, which appends one user. *)
Lemma serve_users r w :
  db_users (serve E verify_password r w) = db_users w
  \/ exists user,
       r = Routed (CallRegister user)
       /\ find_one (has_email (reg_email user)) (db_users w) = None
       /\ db_users (serve E verify_password r w)
          = db_users w ++ [new_user E user w].
Proof.
  destruct r as [[user|file u|request u|response u|id u]|user|u|]; cbn [serve after].
  - destruct (find_one (has_email (reg_email user)) (db_users w)) as [d|] eqn:Hf.
    + left. by rewrite (register_taken E _ _ _ Hf).
    + right. exists user. by rewrite (register_free E _ _ Hf).
  - left. unfold upload_resume, extract_text_from_pdf, utcnow, uuid4, consult,
      modify, bind, get_world, ret, raise.
    destruct (negb (endswith_pdf (file_filename file))); [done|].
    by destruct (pdf_extract_text E (file_content file)).
  - left. by destruct (start_cases E request u w) as [->|(qs & w1 & t & _ & _ & ->)].
  - left. apply submit_frame.
  - left. by rewrite get_interview_frame.
  - left. apply login_frame.
  - by left.
  - by left.
Qed.

(** A request leaves the resumes as they are, unless it is an accepted
    upload, which appends one resume of the caller. *)
Lemma serve_resumes r w :
  db_resumes (serve E verify_password r w) = db_resumes w
  \/ exists file user_id d,
       r = Routed (CallUploadResume file user_id)
       /\ rs_user_id d = user_id
       /\ db_resumes (serve E verify_password r w) = db_resumes w ++ [d].
Proof.
  destruct r as [[user|file u|request u|response u|id u]|user|u|]; cbn [serve after].
  - left. destruct (find_one (has_email (reg_email user)) (db_users w)) as [d|] eqn:Hf.
    + by rewrite (register_taken E _ _ _ Hf).
    + by rewrite (register_free E _ _ Hf).
  - unfold upload_resume, extract_text_from_pdf, utcnow, uuid4, consult,
      modify, bind, get_world, ret, raise.
    destruct (negb (endswith_pdf (file_filename file))); [by left|].
    destruct (pdf_extract_text E (file_content file)); [|by left].
    right. eexists file, u, _. split; [done|]. cbn. unfold insert_one.
    split; [|reflexivity]. reflexivity.
  - left. by destruct (start_cases E request u w) as [->|(qs & w1 & t & _ & _ & ->)].
  - left. apply submit_frame.
  - left. by rewrite get_interview_frame.
  - left. apply login_frame.
  - by left.
  - by left.
Qed.

Lemma serve_all_cons r rs w :
  serve_all E verify_password (r :: rs) w
    = serve_all E verify_password rs (serve E verify_password r w).
Proof. reflexivity. Qed.

(** Users and resumes are never removed, changed or reordered. *)
Lemma serve_all_grows rs : forall w,
  exists us rss,
    db_users (serve_all E verify_password rs w) = db_users w ++ us
    /\ db_resumes (serve_all E verify_password rs w) = db_resumes w ++ rss
    /\ Forall (fun d => exists r, r ∈ rs
                 /\ exists file, r = Routed (CallUploadResume file (rs_user_id d)))
         rss.
Proof.
  induction rs as [|r rs IH]; intros w.
  { exists [], []. cbn. by rewrite !app_nil_r. }
  rewrite serve_all_cons.
  destruct (IH (serve E verify_password r w)) as (us & rss & Hu & Hr & Hall).
  assert (Forall (fun d => exists r0, r0 ∈ r :: rs
            /\ exists file, r0 = Routed (CallUploadResume file (rs_user_id d))) rss)
    as Hall'.
  { eapply Forall_impl; [exact Hall|]. intros d (r0 & Hr0 & H).
    exists r0. split; [by apply list_elem_of_further|done]. }
  destruct (serve_users r w) as [Hsu|(user & _ & _ & Hsu)];
    destruct (serve_resumes r w) as [Hsr|(file & u & d & -> & Hd & Hsr)];
    rewrite Hu, Hr, Hsu, Hsr, <- ?app_assoc; eexists _, _;
    (split; [reflexivity|]); (split; [reflexivity|]); trivial.
  - constructor; [|done]. exists (Routed (CallUploadResume file u)).
    split; [apply list_elem_of_here|]. exists file. by rewrite Hd.
  - constructor; [|done]. exists (Routed (CallUploadResume file u)).
    split; [apply list_elem_of_here|]. exists file. by rewrite Hd.
Qed.

End Frames.

(** ** Claims on accounts *)

Section AccountProperties.

Context (E : Env) (verify_password : str -> str -> bool).

(** X9: a registration has two outcomes. If a stored user has the
    email, it raises the 400 error and changes nothing, not even the
    instant. Otherwise it appends one user, with the email and name as
    given, a newly drawn identity and the hash of the password, touches
    no other collection, and answers with that identity and a token for
    it that expires in one day. *)
Theorem register_outcomes (user : UserRegistration) (w : World) :
  ((exists d, d ∈ db_users w /\ u_email d = reg_email user)
   /\ register E user w
      = (inl (HTTPException 400 (lit "Email already registered")), w))
  \/ ((forall d, d ∈ db_users w -> u_email d <> reg_email user)
      /\ exists r w' d,
           register E user w = (inr r, w')
           /\ db_users w' = db_users w ++ [d]
           /\ db_resumes w' = db_resumes w
           /\ db_interviews w' = db_interviews w
           /\ u_email d = reg_email user /\ u_name d = reg_name user
           /\ u_id d = uuid4_at E (tick w)
           /\ u_password d = hash_at E (S (tick w)) (reg_password user)
           /\ tr_user_id r = u_id d
           /\ tr_access_token r
              = jwt_encode E
                  (<[lit "exp" :=
                       PyDatetime (utcnow_at E (tick w + 3) + days 1)%Z]>
                     {[ lit "sub" := PyStr (u_id d) ]})
                  SECRET_KEY ALGORITHM).
Proof.
  destruct (find_one (has_email (reg_email user)) (db_users w)) as [d|] eqn:Hf.
  - left. destruct (find_one_Some _ _ _ Hf) as [Hin Hp].
    split; [exists d; split; [done|by apply has_email_true]|].
    by apply register_taken with d.
  - right. split.
    + intros d Hd. apply has_email_false.
      by apply (proj1 (find_one_None _ _) Hf).
    + rewrite (register_free E _ _ Hf). eexists _, _, _.
      split; [reflexivity|]. by cbn.
Qed.

Lemma find_registered user w us :
  find_one (has_email (reg_email user)) (db_users w) = None ->
  find_one (has_email (reg_email user)) ((db_users w ++ [new_user E user w]) ++ us)
    = Some (new_user E user w).
Proof.
  intros Hf. apply find_one_app_l. rewrite find_one_app_r by done.
  assert (has_email (reg_email user) (new_user E user w) = true) as Hp
    by (by apply has_email_true).
  cbn [find_one]. by rewrite Hp.
Qed.

Lemma emails_distinct_serve r w :
  NoDup (map u_email (db_users w)) ->
  NoDup (map u_email (db_users (serve E verify_password r w))).
Proof.
  intros Hnd.
  destruct (serve_users E verify_password r w) as [->|(user & _ & Hf & ->)];
    [done|].
  rewrite fmap_app. apply NoDup_app. split; [done|].
  split; [|apply NoDup_singleton].
  intros email (d & -> & Hd)%list_elem_of_fmap Hnew.
  cbn in Hnew. apply list_elem_of_singleton in Hnew.
  pose proof (proj1 (find_one_None _ _) Hf d Hd) as Hne.
  by apply has_email_false in Hne.
Qed.

(** X10: no sequence of requests ever stores two users with one email:
    if the stored emails are pairwise distinct, they are so after every
    sequence of requests. *)
Theorem emails_stay_distinct (rs : list Request) (w : World) :
  NoDup (map u_email (db_users w)) ->
  NoDup (map u_email (db_users (serve_all E verify_password rs w))).
Proof.
  revert w. induction rs as [|r rs IH]; intros w Hnd; [done|].
  rewrite serve_all_cons. apply IH. by apply emails_distinct_serve.
Qed.

(** X11: a registered email stays taken. After a successful
    registration, and whatever requests are served afterwards, every
    registration with the same email raises the 400 error and changes
    nothing. *)
Theorem registered_email_stays_taken
    (user again : UserRegistration) (rs : list Request)
    (w w1 : World) (r : TokenResponse) :
  register E user w = (inr r, w1) ->
  reg_email again = reg_email user ->
  register E again (serve_all E verify_password rs w1)
    = (inl (HTTPException 400 (lit "Email already registered")),
       serve_all E verify_password rs w1).
Proof.
  intros Hreg Hemail.
  destruct (find_one (has_email (reg_email user)) (db_users w)) as [d|] eqn:Hf;
    [by rewrite (register_taken E _ _ _ Hf) in Hreg|].
  rewrite (register_free E _ _ Hf) in Hreg. injection Hreg as _ <-.
  apply register_taken with (new_user E user w). rewrite Hemail.
  match goal with
  | |- context [serve_all E verify_password rs ?w0] =>
      destruct (serve_all_grows E verify_password rs w0) as (us & _ & -> & _)
  end.
  cbn [db_users]. by apply find_registered.
Qed.

(** X12: a login with an unknown email and a login with a wrong password
    cannot be told apart: both raise the same 401 error and change
    nothing. *)
Theorem login_failures_are_uniform (unknown wrong : UserLogin) (w : World)
    (d : UserDoc) :
  (forall u, u ∈ db_users w -> u_email u <> login_email unknown) ->
  find_one (has_email (login_email wrong)) (db_users w) = Some d ->
  verify_password (login_password wrong) (u_password d) = false ->
  login E verify_password unknown w = login E verify_password wrong w
  /\ login E verify_password wrong w
     = (inl (HTTPException 401 (lit "Invalid email or password")), w).
Proof.
  intros Hno Hf Hv.
  rewrite (login_rejected E _ _ _ _ Hf Hv), login_unknown; [done|].
  apply find_one_None. intros u Hu. apply has_email_false. by apply Hno.
Qed.

(** X13: registration, login and the gate compose. If the hasher accepts
    the hashes it makes, then after a successful registration, and
    whatever requests are served in between, a login with the same email
    and password succeeds, answers with the identity, email and name of
    the registered user, and its token passes the gate as that identity
    at every instant at which decoding accepts the token and returns the
    subject claim encoded into it. *)
Theorem login_after_register
    (user : UserRegistration) (rs : list Request) (w w1 : World)
    (r : TokenResponse) :
  hasher_sound E verify_password ->
  register E user w = (inr r, w1) ->
  let w2 := serve_all E verify_password rs w1 in
  exists r2 w3,
    login E verify_password
      {| login_email := reg_email user; login_password := reg_password user |}
      w2 = (inr r2, w3)
    /\ tr_user_id r2 = tr_user_id r
    /\ tr_user_email r2 = reg_email user /\ tr_user_name r2 = reg_name user
    /\ forall w4,
         codec_keeps_sub E (tick w4) (tr_access_token r2) ->
         get_current_user E (tr_access_token r2) w4
           = (inr (PyStr (tr_user_id r)), set_tick (S (tick w4)) w4).
Proof.
  intros Hhash Hreg w2.
  destruct (find_one (has_email (reg_email user)) (db_users w)) as [d|] eqn:Hf;
    [by rewrite (register_taken E _ _ _ Hf) in Hreg|].
  rewrite (register_free E _ _ Hf) in Hreg. injection Hreg as <- <-.
  assert (find_one (has_email (reg_email user)) (db_users w2)
          = Some (new_user E user w)) as Hfound.
  { unfold w2.
    match goal with
    | |- context [serve_all E verify_password rs ?w0] =>
        destruct (serve_all_grows E verify_password rs w0) as (us & _ & -> & _)
    end.
    cbn [db_users]. by apply find_registered. }
  eexists _, _. split.
  { apply login_accepted with (d := new_user E user w); [exact Hfound|].
    apply Hhash. }
  cbn. repeat split. intros w4 Hcodec.
  destruct (Hcodec _ _ _ eq_refl) as (decoded & Hdec & Hsub).
  unfold issued in Hsub.
  rewrite lookup_insert_ne in Hsub by apply exp_is_not_sub.
  rewrite lookup_singleton_eq in Hsub.
  unfold get_current_user, try_except, consult, bind, ret, raise.
  cbn. rewrite Hdec. cbn. by rewrite Hsub.
Qed.

End AccountProperties.

Lemma Desk_hasher_sound llm : hasher_sound (Demo.env llm) Desk.verify.
Proof.
  intros k password. unfold Desk.verify, str_eqb. cbn.
  by apply bool_decide_eq_true.
Qed.

Lemma register_outcomes_witness :
  let E := Demo.env Demo.down in
  let w := snd (register E Desk.carol Demo.empty_world) in
  (exists d, d ∈ db_users w /\ u_email d = reg_email Desk.carol)
  /\ register E Desk.carol w
     = (inl (HTTPException 400 (lit "Email already registered")), w).
Proof.
  intros E w.
  assert (exists d, db_users w = [d] /\ u_email d = reg_email Desk.carol)
    as (d & Hw & Hd) by (eexists; split; [vm_compute; reflexivity|reflexivity]).
  destruct (register_outcomes E Desk.carol w) as [H|[Hno _]]; [exact H|].
  exfalso. apply (Hno d); [|exact Hd]. rewrite Hw. apply list_elem_of_here.
Defined.

Lemma emails_stay_distinct_witness :
  let E := Demo.env Demo.down in
  let rs := [Routed (CallRegister Desk.carol); Health;
             Routed (CallRegister Desk.carol); Login (Desk.carol_login "s3cret")] in
  NoDup (map u_email (db_users Demo.empty_world))
  /\ NoDup (map u_email (db_users (serve_all E Desk.verify rs Demo.empty_world)))
  /\ length (db_users (serve_all E Desk.verify rs Demo.empty_world)) = 1.
Proof.
  intros E rs.
  assert (NoDup (map u_email (db_users Demo.empty_world))) as Hnd
    by constructor.
  split; [exact Hnd|].
  split; [exact (emails_stay_distinct E Desk.verify rs Demo.empty_world Hnd)|].
  vm_compute. reflexivity.
Defined.

Lemma registered_email_stays_taken_witness :
  let E := Demo.env Demo.down in
  let rs := [Health; Login (Desk.carol_login "s3cret");
             Routed (CallUploadResume Demo.cv Demo.alice)] in
  let again := {| reg_email := lit "carol@example.org";
                  reg_password := lit "other"; reg_name := lit "Mallory" |} in
  exists r w1,
    register E Desk.carol Demo.empty_world = (inr r, w1)
    /\ register E again (serve_all E Desk.verify rs w1)
       = (inl (HTTPException 400 (lit "Email already registered")),
          serve_all E Desk.verify rs w1).
Proof.
  intros E rs again.
  assert (exists r w1, register E Desk.carol Demo.empty_world = (inr r, w1))
    as (r & w1 & Hreg) by (eexists _, _; vm_compute; reflexivity).
  exists r, w1. split; [exact Hreg|].
  exact (registered_email_stays_taken E Desk.verify Desk.carol again rs
           Demo.empty_world w1 r Hreg eq_refl).
Defined.

Lemma login_failures_are_uniform_witness :
  let E := Demo.env Demo.down in
  let w := snd (register E Desk.carol Demo.empty_world) in
  let unknown := {| login_email := lit "dave@example.org";
                    login_password := lit "s3cret" |} in
  let wrong := Desk.carol_login "guess" in
  login E Desk.verify unknown w = login E Desk.verify wrong w
  /\ login E Desk.verify wrong w
     = (inl (HTTPException 401 (lit "Invalid email or password")), w).
Proof.
  intros E w unknown wrong.
  assert (exists d, db_users w = [d]
                    /\ u_email d = lit "carol@example.org"
                    /\ find_one (has_email (login_email wrong)) (db_users w)
                       = Some d
                    /\ Desk.verify (login_password wrong) (u_password d) = false)
    as (d & Hw & Hd & Hf & Hv).
  { eexists. split; [vm_compute; reflexivity|].
    split; [reflexivity|]. split; vm_compute; reflexivity. }
  apply (login_failures_are_uniform E Desk.verify unknown wrong w d);
    [|exact Hf|exact Hv].
  intros u Hu. rewrite Hw in Hu. apply list_elem_of_singleton in Hu as ->.
  rewrite Hd. discriminate.
Defined.

Lemma login_after_register_witness :
  let E := Desk.env Demo.down in
  let rs := [Health; Routed (CallUploadResume Demo.cv Demo.alice)] in
  exists r w1 r2 w3,
    hasher_sound E Desk.verify
    /\ register E Desk.carol Demo.empty_world = (inr r, w1)
    /\ login E Desk.verify (Desk.carol_login "s3cret")
         (serve_all E Desk.verify rs w1) = (inr r2, w3)
    /\ tr_user_id r2 = tr_user_id r
    /\ get_current_user E (tr_access_token r2) w3
       = (inr (PyStr (tr_user_id r)), set_tick (S (tick w3)) w3).
Proof.
  intros E rs.
  assert (hasher_sound E Desk.verify) as Hhash by apply Desk_hasher_sound.
  assert (exists r w1, register E Desk.carol Demo.empty_world = (inr r, w1))
    as (r & w1 & Hreg).
  { unfold register, create_access_token, utcnow, uuid4, consult, modify, bind,
      get_world, ret, raise. cbn. eexists _, _. reflexivity. }
  destruct (login_after_register E Desk.verify Desk.carol rs Demo.empty_world
              w1 r Hhash Hreg) as (r2 & w3 & Hlogin & Hid & _ & _ & Hgate).
  exists r, w1, r2, w3. repeat (split; [assumption|]).
  apply Hgate. apply Desk_codec_keeps_sub.
Defined.

(** ** Uploading a resume *)

Lemma endswith_pdf_true s :
  endswith_pdf s = true <-> exists p, s = p ++ lit ".pdf".
Proof.
  unfold endswith_pdf, str_eqb. rewrite bool_decide_eq_true. split.
  - intros H. exists (take (length s - 4) s). rewrite <- H. by rewrite take_drop.
  - intros (p & ->). rewrite length_app.
    replace (length p + length (lit ".pdf") - 4) with (length p)
      by (change (length (lit ".pdf")) with 4; lia).
    apply drop_app_length.
Qed.

(** X14: an upload has three outcomes. A file whose name does not end in
    [.pdf] is refused with the 400 error before the reader is asked; a
    file the reader fails on is refused with the 400 error that carries
    the reader's message; in both cases nothing changes. Otherwise one
    resume is appended, owned by the caller and holding the whole text;
    the preview returned is the text when it has at most 200 code points
    and its first 200 followed by three dots otherwise. *)
Theorem upload_outcomes (E : Env) (file : UploadFile) (user_id : PyVal)
    (w : World) :
  ((~ exists p, file_filename file = p ++ lit ".pdf")
   /\ upload_resume E file user_id w
      = (inl (HTTPException 400 (lit "Only PDF files are allowed")), w))
  \/ (exists msg,
        (exists p, file_filename file = p ++ lit ".pdf")
        /\ pdf_extract_text E (file_content file) = inr msg
        /\ upload_resume E file user_id w
           = (inl (HTTPException 400 (lit "Error reading PDF: " ++ msg)), w))
  \/ (exists text r w',
        (exists p, file_filename file = p ++ lit ".pdf")
        /\ pdf_extract_text E (file_content file) = inl text
        /\ upload_resume E file user_id w = (inr r, w')
        /\ db_resumes w' =
             db_resumes w ++
             [ {| rs_id := up_resume_id r; rs_user_id := user_id;
                  rs_filename := file_filename file; rs_text_content := text;
                  rs_uploaded_at := utcnow_at E (S (tick w)) |} ]
        /\ db_users w' = db_users w /\ db_interviews w' = db_interviews w
        /\ up_resume_id r = uuid4_at E (tick w)
        /\ up_text_preview r
           = (if 200 <? length text then take 200 text ++ lit "..." else text)
        /\ length (up_text_preview r) <= 203
        /\ take 200 (up_text_preview r) = take 200 text).
Proof.
  unfold upload_resume, extract_text_from_pdf, utcnow, uuid4, consult, modify,
    bind, get_world, ret, raise.
  destruct (endswith_pdf (file_filename file)) eqn:Hpdf; cbn [negb].
  - apply endswith_pdf_true in Hpdf.
    destruct (pdf_extract_text E (file_content file)) as [text|msg];
      [|right; left; by exists msg].
    right. right. eexists text, _, _. split; [exact Hpdf|].
    split; [reflexivity|].
    split; [reflexivity|]. cbn. repeat split.
    + destruct (Nat.ltb_spec 200 (length text)) as [Hlt|Hle]; [|lia].
      rewrite length_app, length_take.
      change (length (lit "...")) with 3. lia.
    + destruct (Nat.ltb_spec 200 (length text)) as [Hlt|Hle]; [|done].
      rewrite take_app_le by (rewrite length_take; lia).
      rewrite take_take. f_equal.
  - left. split; [|done]. intros Hex. apply endswith_pdf_true in Hex. congruence.
Qed.

Lemma upload_outcomes_witness :
  let E := Demo.env Demo.down in
  (~ exists p, file_filename Desk.notes = p ++ lit ".pdf")
  /\ upload_resume E Desk.notes Demo.alice Demo.empty_world
     = (inl (HTTPException 400 (lit "Only PDF files are allowed")),
        Demo.empty_world).
Proof.
  intros E.
  destruct (upload_outcomes E Desk.notes Demo.alice Demo.empty_world)
    as [H|[(msg & _ & Hmsg & _)|(text & r & w' & _ & _ & Hrun & _)]];
    [exact H|discriminate Hmsg|discriminate Hrun].
Defined.

(** ** Starting and fetching interviews *)

Lemma owns_resume_true user_id d :
  owns_resume user_id d = true <-> rs_user_id d = user_id.
Proof. unfold owns_resume, val_eqb. apply bool_decide_eq_true. Qed.

Lemma owns_resume_false user_id d :
  owns_resume user_id d = false <-> rs_user_id d <> user_id.
Proof. unfold owns_resume, val_eqb. apply bool_decide_eq_false. Qed.

(** A lookup with a descending sort returns a matching document of the
    collection whose key no matching document exceeds; it returns nothing
    only when no document matches. *)
Lemma find_one_latest_max {A} (p : A -> bool) (key : A -> Z) (docs : list A) :
  match find_one_latest p key docs with
  | Some d =>
      d ∈ docs /\ p d = true
      /\ forall d', d' ∈ docs -> p d' = true -> (key d' <= key d)%Z
  | None => forall d', d' ∈ docs -> p d' = false
  end.
Proof.
  induction docs as [|x xs IH]; simpl.
  { intros d' Hd'. by apply elem_of_nil in Hd'. }
  destruct (find_one_latest p key xs) as [e|].
  - destruct IH as (Hin & Hp & Hmax).
    destruct (p x) eqn:Hx; simpl.
    + destruct (Z.leb_spec (key e) (key x)) as [Hle|Hlt].
      * split; [apply list_elem_of_here|]. split; [done|].
        intros d' [->|Hd']%elem_of_cons Hd; [lia|].
        specialize (Hmax d' Hd' Hd). lia.
      * split; [by apply list_elem_of_further|]. split; [done|].
        intros d' [->|Hd']%elem_of_cons Hd; [lia|by apply Hmax].
    + split; [by apply list_elem_of_further|]. split; [done|].
      intros d' [->|Hd']%elem_of_cons Hd; [congruence|by apply Hmax].
  - destruct (p x) eqn:Hx.
    + split; [apply list_elem_of_here|]. split; [done|].
      intros d' [->|Hd']%elem_of_cons Hd; [lia|].
      rewrite (IH d' Hd') in Hd. done.
    + intros d' [->|Hd']%elem_of_cons; [done|by apply IH].
Qed.

Section StartProperties.

Context (E : Env) (verify_password : str -> str -> bool).

Lemma start_answers request user_id w d :
  d ∈ db_resumes w -> rs_user_id d = user_id ->
  exists r w', start_interview E request user_id w = (inr r, w').
Proof.
  intros Hd Hu.
  destruct (find_one_latest (owns_resume user_id) rs_uploaded_at (db_resumes w))
    as [resume|] eqn:Hf.
  - destruct (questions_total E (rs_text_content resume) (req_job_role request)
                (req_experience_level request) w) as (qs & w1 & Hrun & _).
    rewrite (start_run E _ _ _ _ _ _ Hf Hrun). by eexists _, _.
  - pose proof (proj1 (find_one_latest_None _ _ _) Hf d Hd) as Hno.
    apply owns_resume_false in Hno. done.
Qed.

Lemma upload_inv file user_id w up w1 :
  upload_resume E file user_id w = (inr up, w1) ->
  exists d, db_resumes w1 = db_resumes w ++ [d] /\ rs_user_id d = user_id.
Proof.
  unfold upload_resume, extract_text_from_pdf, utcnow, uuid4, consult, modify,
    bind, get_world, ret, raise.
  destruct (negb (endswith_pdf (file_filename file))); [done|].
  destruct (pdf_extract_text E (file_content file)); [|done].
  cbn. intros [= _ <-]. by eexists.
Qed.

(** X15: start-interview fails only for want of a resume. When the caller
    owns no resume it raises the 400 error and changes nothing: no
    identity is drawn and the generation service is not called. When the
    caller owns one it answers, whatever the service does. *)
Theorem start_needs_resume (request : InterviewRequest) (user_id : PyVal)
    (w : World) :
  ((forall d, d ∈ db_resumes w -> rs_user_id d <> user_id)
   /\ start_interview E request user_id w
      = (inl (HTTPException 400 (lit "Please upload a resume first")), w))
  \/ ((exists d, d ∈ db_resumes w /\ rs_user_id d = user_id)
      /\ exists r w', start_interview E request user_id w = (inr r, w')).
Proof.
  destruct (find_one_latest (owns_resume user_id) rs_uploaded_at (db_resumes w))
    as [resume|] eqn:Hf.
  - right. destruct (find_one_latest_Some _ _ _ _ Hf) as [Hin Hp].
    apply owns_resume_true in Hp.
    split; [by exists resume|]. by apply start_answers with resume.
  - left. split; [|by apply start_without_resume].
    intros d Hd. apply owns_resume_false.
    by apply (proj1 (find_one_latest_None _ _ _) Hf).
Qed.

(** X16: resumes are never removed, so after an accepted upload, and
    whatever requests are served afterwards, start-interview answers for
    that caller. *)
Theorem start_after_upload (file : UploadFile) (user_id : PyVal)
    (w w1 : World) (up : UploadResult) (rs : list Request)
    (request : InterviewRequest) :
  upload_resume E file user_id w = (inr up, w1) ->
  exists r w',
    start_interview E request user_id (serve_all E verify_password rs w1)
      = (inr r, w').
Proof.
  intros Hup. destruct (upload_inv _ _ _ _ _ Hup) as (d & Hres & Hd).
  destruct (serve_all_grows E verify_password rs w1) as (_ & rss & _ & Hgrow & _).
  apply start_answers with d; [|done].
  rewrite Hgrow, Hres. apply elem_of_app. left. apply elem_of_app. right.
  apply list_elem_of_here.
Qed.

End StartProperties.

Lemma start_needs_resume_witness :
  let E := Demo.env Demo.down in
  (forall d, d ∈ db_resumes Demo.empty_world -> rs_user_id d <> Demo.alice)
  /\ start_interview E Demo.sre Demo.alice Demo.empty_world
     = (inl (HTTPException 400 (lit "Please upload a resume first")),
        Demo.empty_world).
Proof.
  intros E.
  destruct (start_needs_resume E Demo.sre Demo.alice Demo.empty_world)
    as [H|[(d & Hd & _) _]]; [exact H|].
  cbn in Hd. by apply elem_of_nil in Hd.
Defined.

Lemma start_after_upload_witness :
  let E := Demo.env Demo.down in
  let rs := [Health; Routed (CallRegister Desk.carol);
             Routed (CallUploadResume Demo.cv Demo.bob)] in
  exists up w1 r w',
    upload_resume E Demo.cv Demo.alice Demo.empty_world = (inr up, w1)
    /\ start_interview E Demo.sre Demo.alice (serve_all E Desk.verify rs w1)
       = (inr r, w').
Proof.
  intros E rs.
  assert (exists up w1,
            upload_resume E Demo.cv Demo.alice Demo.empty_world = (inr up, w1))
    as (up & w1 & Hup) by (eexists _, _; vm_compute; reflexivity).
  destruct (start_after_upload E Desk.verify Demo.cv Demo.alice
              Demo.empty_world w1 up rs Demo.sre Hup) as (r & w' & Hstart).
  by exists up, w1, r, w'.
Defined.

Lemma is_interview_of_true interview_id user_id d :
  is_interview_of interview_id user_id d = true
  <-> iv_id d = interview_id /\ iv_user_id d = user_id.
Proof.
  unfold is_interview_of, str_eqb, val_eqb.
  by rewrite andb_true_iff, !bool_decide_eq_true.
Qed.

Lemma get_interview_found interview_id user_id w d :
  find_one (is_interview_of interview_id user_id) (db_interviews w) = Some d ->
  get_interview interview_id user_id w = (inr d, w).
Proof.
  intros H. unfold get_interview, interviews_find_one, bind, get_world, ret.
  fold (is_interview_of interview_id user_id). by rewrite H.
Qed.

Lemma get_interview_missing interview_id user_id w :
  find_one (is_interview_of interview_id user_id) (db_interviews w) = None ->
  get_interview interview_id user_id w
    = (inl (HTTPException 404 (lit "Interview not found")), w).
Proof.
  intros H. unfold get_interview, interviews_find_one, bind, get_world, ret.
  fold (is_interview_of interview_id user_id). by rewrite H.
Qed.

(** X17: fetching an interview is scoped to the caller and reads only. It
    returns a stored interview that carries the identity asked for and
    belongs to the caller; when no stored interview does both, it raises
    the 404 error, also when the identity exists but belongs to someone
    else. It never changes the world. *)
Theorem get_interview_is_scoped (interview_id : str) (user_id : PyVal)
    (w : World) :
  (exists d,
     get_interview interview_id user_id w = (inr d, w)
     /\ d ∈ db_interviews w /\ iv_id d = interview_id /\ iv_user_id d = user_id)
  \/ (get_interview interview_id user_id w
        = (inl (HTTPException 404 (lit "Interview not found")), w)
      /\ forall d, d ∈ db_interviews w -> iv_id d = interview_id ->
                   iv_user_id d <> user_id).
Proof.
  destruct (find_one (is_interview_of interview_id user_id) (db_interviews w))
    as [d|] eqn:Hf.
  - left. exists d. destruct (find_one_Some _ _ _ Hf) as [Hin Hp].
    apply is_interview_of_true in Hp as [Hid Hu].
    split; [by apply get_interview_found|done].
  - right. split; [by apply get_interview_missing|].
    intros d Hd Hid Hu.
    pose proof (proj1 (find_one_None _ _) Hf d Hd) as Hno.
    rewrite (proj2 (is_interview_of_true _ _ _) (conj Hid Hu)) in Hno. done.
Qed.

(** X18: what start-interview stores can be fetched. Taking
    [uuid.uuid4()] never to repeat itself, in a well-formed world the
    identity returned by a successful start-interview fetches, for the
    caller, the interview just created: in_progress, with the questions
    returned, no response and no feedback. For every other caller the
    same identity gives the 404 error. *)
Theorem start_then_get (E : Env) (request : InterviewRequest)
    (user_id : PyVal) (w w' : World) (r : StartResult) :
  uuid4_fresh E -> well_formed E w ->
  start_interview E request user_id w = (inr r, w') ->
  (exists d,
     get_interview (st_interview_id r) user_id w' = (inr d, w')
     /\ iv_status d = lit "in_progress"
     /\ iv_questions d = st_questions r
     /\ length (iv_questions d) = st_total_questions r
     /\ iv_responses d = [] /\ iv_feedback d = None
     /\ iv_job_role d = req_job_role request
     /\ iv_experience_level d = req_experience_level request
     /\ iv_interview_type d = req_interview_type request)
  /\ forall other,
       other <> user_id ->
       get_interview (st_interview_id r) other w'
         = (inl (HTTPException 404 (lit "Interview not found")), w').
Proof.
  intros Hfresh (_ & Hdrawn & _) Hstart.
  assert (st_total_questions r = length (st_questions r)) as Htotal.
  { destruct (start_cases E request user_id w)
      as [Heq|(qs & w1 & t & _ & _ & Heq)]; rewrite Heq in Hstart; [done|].
    by injection Hstart as <- _. }
  destruct (start_inv E _ _ _ _ _ Hstart)
    as (resume & qs & w1 & _ & Hrun & Hid & Hqs & _ & Hdocs).
  destruct (questions_ids E _ _ _ _ _ _ Hrun) as (k & _ & Hk & Hend).
  assert (forall u, find_one (is_interview_of (st_interview_id r) u)
                      (db_interviews w) = None) as Hold.
  { intros u. apply find_one_None. intros d Hd.
    rewrite Forall_forall in Hdrawn. destruct (Hdrawn d Hd) as (j & Hj & Hdj).
    unfold is_interview_of. apply andb_false_iff. left.
    apply bool_decide_eq_false. rewrite Hdj, Hid. intros Heq%Hfresh. lia. }
  split.
  - eexists. split.
    + apply get_interview_found. rewrite Hdocs, find_one_app_r by apply Hold.
      cbn [find_one].
      rewrite (proj2 (is_interview_of_true _ _ _)); [reflexivity|].
      by rewrite Hid.
    + cbn. by rewrite Htotal, Hqs.
  - intros other Hother. apply get_interview_missing.
    rewrite Hdocs, find_one_app_r by apply Hold.
    cbn [find_one].
    assert (is_interview_of (st_interview_id r) other
              {| iv_id := uuid4_at E (tick w1); iv_user_id := user_id;
                 iv_job_role := req_job_role request;
                 iv_experience_level := req_experience_level request;
                 iv_interview_type := req_interview_type request;
                 iv_status := lit "in_progress";
                 iv_questions := qs; iv_responses := [];
                 iv_feedback := None;
                 iv_created_at := utcnow_at E (S (tick w1));
                 iv_completed_at := None |} = false) as ->; [|done].
    unfold is_interview_of, val_eqb. apply andb_false_iff. right.
    apply bool_decide_eq_false. cbn. congruence.
Qed.

Lemma start_then_get_witness :
  let E := Demo.env Demo.down in
  let w := after E (CallUploadResume Demo.cv Demo.alice) Demo.started in
  exists r w' d,
    uuid4_fresh E /\ well_formed E w
    /\ start_interview E Demo.sre Demo.alice w = (inr r, w')
    /\ get_interview (st_interview_id r) Demo.alice w' = (inr d, w')
    /\ iv_questions d = st_questions r
    /\ get_interview (st_interview_id r) Demo.bob w'
       = (inl (HTTPException 404 (lit "Interview not found")), w').
Proof.
  intros E w.
  assert (uuid4_fresh E) as Hfresh by apply Demo_uuid4_fresh.
  assert (well_formed E w) as Hwf.
  { apply well_formed_reachable; [exact Hfresh|].
    apply Reachable_call, Reachable_started. }
  assert (exists r w', start_interview E Demo.sre Demo.alice w = (inr r, w'))
    as (r & w' & Hstart) by (eexists _, _; vm_compute; reflexivity).
  destruct (start_then_get E Demo.sre Demo.alice w w' r Hfresh Hwf Hstart)
    as [(d & Hget & _ & Hqs & _) Hother].
  exists r, w', d. repeat (split; [assumption|]).
  apply Hother. discriminate.
Defined.

(** ** The interview history *)

Section History.

Context {A : Type} (key : A -> Z).

Lemma insert_desc_perm d l : insert_desc key d l ≡ₚ d :: l.
Proof.
  induction l as [|x xs IH]; simpl; [done|].
  destruct (key x <=? key d)%Z; [done|].
  rewrite IH. apply Permutation_swap.
Qed.

Lemma sort_desc_perm l : sort_desc key l ≡ₚ l.
Proof.
  induction l as [|d ds IH]; simpl; [done|].
  by rewrite insert_desc_perm, IH.
Qed.

Lemma insert_desc_sorted d l :
  StronglySorted (newer_first key) l -> StronglySorted (newer_first key) (insert_desc key d l).
Proof.
  induction 1 as [|x xs Hs IH Hx]; simpl.
  { constructor; constructor. }
  destruct (Z.leb_spec (key x) (key d)) as [Hle|Hlt].
  - constructor; [by constructor|].
    constructor; [done|].
    eapply Forall_impl; [exact Hx|]. unfold newer_first. intros y Hy. lia.
  - constructor; [exact IH|].
    rewrite insert_desc_perm. constructor; [|done]. unfold newer_first. lia.
Qed.

Lemma sort_desc_sorted l : StronglySorted (newer_first key) (sort_desc key l).
Proof.
  induction l as [|d ds IH]; simpl; [constructor|]. by apply insert_desc_sorted.
Qed.

End History.

Lemma elem_of_filter_bool {A} (p : A -> bool) l x :
  x ∈ List.filter p l <-> x ∈ l /\ p x = true.
Proof. rewrite !list_elem_of_In. apply filter_In. Qed.

(** X19: the history of a caller reads only and returns at most fifty
    interviews, all stored and all the caller's, newest first. Together
    with the ones left out they are exactly the caller's interviews; none
    is left out when the caller has at most fifty, and none left out is
    newer than one returned. *)
Theorem history_is_newest_fifty (user_id : PyVal) (w : World) :
  exists h rest,
    get_interview_history user_id w = (inr h, w)
    /\ length h <= 50
    /\ (forall d, d ∈ h -> d ∈ db_interviews w /\ iv_user_id d = user_id)
    /\ StronglySorted (newer_first iv_created_at) h
    /\ h ++ rest ≡ₚ List.filter (owned_by user_id) (db_interviews w)
    /\ (forall a b, a ∈ h -> b ∈ rest ->
          (iv_created_at b <= iv_created_at a)%Z)
    /\ (length (List.filter (owned_by user_id) (db_interviews w)) <= 50 ->
        rest = []).
Proof.
  set (mine := List.filter (owned_by user_id) (db_interviews w)).
  set (sorted := sort_desc iv_created_at mine).
  assert (take 50 sorted ++ drop 50 sorted ≡ₚ mine) as Hperm
    by (rewrite take_drop; apply sort_desc_perm).
  pose proof (sort_desc_sorted iv_created_at mine) as Hsorted.
  fold sorted in Hsorted. rewrite <- (take_drop 50 sorted) in Hsorted.
  exists (take 50 sorted), (drop 50 sorted).
  split; [reflexivity|]. split; [rewrite length_take; lia|].
  split; [|split; [by eapply StronglySorted_app_1_l|]].
  - intros d Hd.
    assert (d ∈ mine) as Hmine.
    { rewrite <- Hperm. apply elem_of_app. by left. }
    apply elem_of_filter_bool in Hmine as [Hin Hp]. split; [done|].
    unfold owned_by, val_eqb in Hp. by apply bool_decide_eq_true in Hp.
  - split; [exact Hperm|]. split.
    + intros a b Ha Hb.
      by apply (StronglySorted_app_1_elem_of _ _ _ a b Hsorted).
    + intros Hlen. apply drop_ge. unfold sorted.
      by rewrite (Permutation_length (sort_desc_perm iv_created_at mine)).
Qed.

Lemma history_is_newest_fifty_witness :
  let w := Demo.crossed in
  exists h,
    get_interview_history Demo.bob w = (inr h, w)
    /\ length h = 1
    /\ forall d, d ∈ h -> d ∈ db_interviews w /\ iv_user_id d = Demo.bob.
Proof.
  intros w.
  destruct (history_is_newest_fifty Demo.bob w)
    as (h & rest & Hrun & _ & Hmine & _).
  exists h. split; [exact Hrun|]. split; [|exact Hmine].
  assert (fst (get_interview_history Demo.bob w) = inr h) as Hh
    by (by rewrite Hrun).
  vm_compute in Hh. injection Hh as <-. reflexivity.
Defined.

(** ** Which documents a request reads and writes *)

Section Targets.

Context (E : Env).

(** X20: start-interview reads the caller's resume of greatest upload
    time: the questions it answers with are the ones the generator makes
    from the text of a resume that the caller owns and that none of the
    caller's resumes is newer than. *)
Theorem start_reads_latest_resume (request : InterviewRequest)
    (user_id : PyVal) (w w' : World) (r : StartResult) :
  start_interview E request user_id w = (inr r, w') ->
  exists resume,
    resume ∈ db_resumes w /\ rs_user_id resume = user_id
    /\ (forall d, d ∈ db_resumes w -> rs_user_id d = user_id ->
          (rs_uploaded_at d <= rs_uploaded_at resume)%Z)
    /\ fst (generate_interview_questions E (rs_text_content resume)
              (req_job_role request) (req_experience_level request) w)
       = inr (st_questions r).
Proof.
  intros Hstart.
  destruct (start_inv E _ _ _ _ _ Hstart)
    as (resume & qs & w1 & Hf & Hrun & _ & Hqs & _).
  pose proof (find_one_latest_max (owns_resume user_id) rs_uploaded_at
                (db_resumes w)) as Hmax.
  rewrite Hf in Hmax. destruct Hmax as (Hin & Hp & Hmax).
  exists resume. split; [done|]. split; [by apply owns_resume_true|].
  split; [|by rewrite Hrun, Hqs].
  intros d Hd Hu. apply Hmax; [done|]. by apply owns_resume_true.
Qed.

(** X21: a response goes to the caller's most recently created open
    interview and to no other document. With distinct identities, a
    submit-response call that answers has appended the response, as
    given, to one interview that was the caller's, was in_progress and
    was created no earlier than any other open interview of the caller;
    every other stored interview, of this caller or another, is left as
    it was. *)
Theorem response_goes_to_latest_open (response : InterviewResponse)
    (user_id : PyVal) (w w' : World) (r : SubmitResult) :
  NoDup (map iv_id (db_interviews w)) ->
  submit_response E response user_id w = (inr r, w') ->
  exists i iv d',
    db_interviews w !! i = Some iv
    /\ db_interviews w' !! i = Some d'
    /\ iv_user_id iv = user_id /\ iv_status iv = lit "in_progress"
    /\ (forall d, d ∈ db_interviews w -> iv_user_id d = user_id ->
          iv_status d = lit "in_progress" ->
          (iv_created_at d <= iv_created_at iv)%Z)
    /\ iv_responses d' = iv_responses iv ++ [stored E response w]
    /\ length (db_interviews w') = length (db_interviews w)
    /\ forall j d, j <> i -> db_interviews w !! j = Some d ->
                   db_interviews w' !! j = Some d.
Proof.
  intros Hnd Hsub.
  destruct (submit_cases E response user_id w Hnd)
    as [[_ Heq]|(i & iv & r0 & w0 & Hf & Hl & Heq & _ & Hcase)];
    rewrite Heq in Hsub; [done|].
  injection Hsub as <- <-.
  pose proof (find_one_latest_max (open_for user_id) iv_created_at
                (db_interviews w)) as Hmax.
  rewrite Hf in Hmax. destruct Hmax as (_ & Hp & Hmax).
  apply open_for_true in Hp as [Hu Hs].
  assert (i < length (db_interviews w)) as Hi by (by apply lookup_lt_Some with iv).
  assert (exists d', db_interviews w0 !! i = Some d'
            /\ iv_responses d' = iv_responses iv ++ [stored E response w]
            /\ db_interviews w0 = <[i := d']> (db_interviews w))
    as (d' & Hd' & Hresp & Hdocs).
  { destruct Hcase as [(_ & _ & ->)|(_ & _ & fb & t & ->)];
      eexists; rewrite list_lookup_insert_eq by done; by repeat split. }
  exists i, iv, d'. repeat (split; [done|]).
  split; [|split; [done|]].
  - intros d Hd Hdu Hds. apply Hmax; [done|]. by apply open_for_true.
  - split; [by rewrite Hdocs, length_insert|].
    intros j d Hj Hjd. by rewrite Hdocs, list_lookup_insert_ne.
Qed.

Lemma find_one_update_one id f (docs : list InterviewDoc) :
  (forall d, iv_id (f d) = iv_id d) ->
  find_one (has_id id) (update_one (has_id id) f docs)
    = f <$> find_one (has_id id) docs.
Proof.
  intros Hf. induction docs as [|x xs IH]; [done|].
  cbn [update_one find_one]. destruct (has_id id x) eqn:Hx.
  - cbn [find_one].
    assert (has_id id (f x) = true) as ->; [|done].
    apply has_id_true. rewrite Hf. by apply has_id_true.
  - cbn [find_one]. by rewrite Hx.
Qed.

(** X22: submit-response raises nothing but the 404 error. Whatever the
    stored identities, a call that raises has found no in_progress
    interview of the caller, raises that error and has changed nothing;
    in particular the interview read back after the append is always
    there. *)
Theorem submit_raises_only_404 (response : InterviewResponse)
    (user_id : PyVal) (w w' : World) (e : Exc) :
  submit_response E response user_id w = (inl e, w') ->
  e = HTTPException 404 (lit "No active interview found")
  /\ w' = w
  /\ forall d, d ∈ db_interviews w -> iv_user_id d = user_id ->
               iv_status d <> lit "in_progress".
Proof.
  destruct (find_one_latest (open_for user_id) iv_created_at (db_interviews w))
    as [iv|] eqn:Hf.
  - intros Hsub. exfalso. revert Hsub.
    destruct (find_one_latest_Some _ _ _ _ Hf) as [Hin _].
    assert (exists upd,
              find_one (has_id (iv_id iv))
                (update_one (has_id (iv_id iv))
                   (push_response (stored E response w)) (db_interviews w))
              = Some upd) as (upd & Hupd).
    { rewrite find_one_update_one by done.
      destruct (find_one (has_id (iv_id iv)) (db_interviews w)) as [x|] eqn:Hx;
        [by eexists|].
      pose proof (proj1 (find_one_None _ _) Hx iv Hin) as Hno.
      by rewrite (proj2 (has_id_true _ _) eq_refl) in Hno. }
    unfold submit_response, interviews_find_one_latest, interviews_update_one,
      interviews_find_one, utcnow, consult, modify, bind, get_world, ret, raise.
    rewrite Hf. cbn. fold (stored E response w). rewrite Hupd. cbn.
    destruct (length (iv_questions upd) <=? length (iv_responses upd)); [|done].
    match goal with
    | |- context [generate_feedback E ?q ?r ?j ?w0] =>
        destruct (feedback_total E q r j w0) as (fb & w1 & Hrun & _);
        rewrite Hrun
    end.
    done.
  - rewrite (submit_without_open_interview E _ _ _ Hf). intros [= <- <-].
    repeat split. intros d Hd Hu Hs.
    pose proof (proj1 (find_one_latest_None _ _ _) Hf d Hd) as Hno.
    by rewrite (proj2 (open_for_true _ _) (conj Hu Hs)) in Hno.
Qed.

End Targets.

(** ** What no sequence of requests does *)

Lemma same_core_refl d : same_core d d.
Proof. by repeat split. Qed.

Lemma same_core_trans d1 d2 d3 :
  same_core d1 d2 -> same_core d2 d3 -> same_core d1 d3.
Proof.
  intros (? & ? & ? & ? & ? & ? & ? & Hp) (? & ? & ? & ? & ? & ? & ? & Hp').
  repeat split; try congruence. by transitivity (iv_responses d2).
Qed.

Lemma Rewritten_same_core d d' : Rewritten d d' -> same_core d d'.
Proof.
  intros [|rd|fb t|rd fb t]; repeat split; cbn; try done;
    by apply prefix_app_r.
Qed.

Lemma Rewritten_shaped d d' : Rewritten d d' -> shaped d -> shaped d'.
Proof.
  unfold shaped. intros [|rd|fb t|rd fb t] [Hq Hc]; cbn; split; trivial;
    by split.
Qed.

Section Forever.

Context (E : Env) (verify_password : str -> str -> bool).

Lemma serve_interviews_same r w :
  (forall c, r <> Routed c) ->
  db_interviews (serve E verify_password r w) = db_interviews w
  /\ tick w <= tick (serve E verify_password r w).
Proof.
  destruct r as [c|user|u|]; intros Hr; cbn [serve].
  - by destruct (Hr c).
  - destruct (login_frame E verify_password user w) as (_ & _ & ? & ?). done.
  - by cbn.
  - cbn. split; [done|lia].
Qed.

Lemma serve_lookup r w j d :
  db_interviews w !! j = Some d ->
  exists d', db_interviews (serve E verify_password r w) !! j = Some d'
    /\ Rewritten d d'
    /\ (d' <> d -> exists response u, r = Routed (CallSubmitResponse response u)).
Proof.
  intros Hl. destruct r as [c|user|u|].
  - destruct (after_lookup E c w j d Hl) as (d' & Hd' & Hr & Hc).
    exists d'. split; [done|]. split; [done|].
    intros Hne. destruct (Hc Hne) as (response & u & ->). by eexists _, _.
  - rewrite (proj1 (serve_interviews_same (Login user) w ltac:(done))).
    exists d. by repeat constructor.
  - exists d. by repeat constructor.
  - exists d. by repeat constructor.
Qed.

Lemma serve_docs r w j d' :
  db_interviews (serve E verify_password r w) !! j = Some d' ->
  (exists d, db_interviews w !! j = Some d /\ Rewritten d d')
  \/ (iv_status d' = lit "in_progress" /\ iv_responses d' = []
      /\ iv_feedback d' = None /\ iv_completed_at d' = None
      /\ 3 <= length (iv_questions d') <= 7).
Proof.
  intros Hj.
  destruct (db_interviews w !! j) as [d|] eqn:Hl.
  { left. exists d. split; [done|].
    destruct (serve_lookup r w j d Hl) as (d0 & Hd0 & Hr & _).
    rewrite Hj in Hd0. by injection Hd0 as <-. }
  apply lookup_ge_None in Hl. right.
  destruct r as [c|user|u|].
  2: { rewrite (proj1 (serve_interviews_same (Login user) w ltac:(done))) in Hj.
       apply lookup_lt_Some in Hj. lia. }
  2: { rewrite (proj1 (serve_interviews_same (History u) w ltac:(done))) in Hj.
       apply lookup_lt_Some in Hj. lia. }
  2: { rewrite (proj1 (serve_interviews_same Health w ltac:(done))) in Hj.
       apply lookup_lt_Some in Hj. lia. }
  cbn [serve] in Hj.
  destruct (after_docs E c w j d' Hj)
    as [(d & Hd & _)|(_ & (request & u & ->) & _)];
    [apply lookup_lt_Some in Hd; lia|].
  cbn [after] in Hj.
  destruct (start_cases E request u w) as [Heq|(qs & w1 & t & Hlen & _ & Heq)];
    rewrite Heq in Hj; cbn in Hj.
  { apply lookup_lt_Some in Hj. lia. }
  apply lookup_app_Some in Hj as [Hj|[_ Hj]];
    [apply lookup_lt_Some in Hj; lia|].
  destruct (j - length (db_interviews w)) as [|n]; [|done].
  injection Hj as <-. by cbn.
Qed.

(** X23: stored interviews are append-only. Whatever requests are served,
    an interview stays at its position in the collection and keeps its
    identity, owner, job role, level, modality, questions and creation
    time; its list of responses only grows at the end. *)
Theorem interviews_are_append_only (rs : list Request) (w : World) (j : nat)
    (d : InterviewDoc) :
  db_interviews w !! j = Some d ->
  exists d',
    db_interviews (serve_all E verify_password rs w) !! j = Some d'
    /\ iv_id d' = iv_id d /\ iv_user_id d' = iv_user_id d
    /\ iv_job_role d' = iv_job_role d
    /\ iv_experience_level d' = iv_experience_level d
    /\ iv_interview_type d' = iv_interview_type d
    /\ iv_questions d' = iv_questions d
    /\ iv_created_at d' = iv_created_at d
    /\ iv_responses d `prefix_of` iv_responses d'.
Proof.
  revert w d. induction rs as [|r rs IH]; intros w d Hl.
  { exists d. split; [done|]. apply same_core_refl. }
  rewrite serve_all_cons.
  destruct (serve_lookup r w j d Hl) as (d1 & Hd1 & Hr & _).
  destruct (IH _ _ Hd1) as (d' & Hd' & Hcore).
  exists d'. split; [done|].
  apply (same_core_trans d d1 d'); [by apply Rewritten_same_core|done].
Qed.

Lemma shaped_serve r w :
  Forall shaped (db_interviews w) ->
  Forall shaped (db_interviews (serve E verify_password r w)).
Proof.
  intros Hw. apply Forall_lookup. intros j d' Hj.
  destruct (serve_docs r w j d' Hj) as [(d & Hd & Hr)|(Hs & _ & _ & Hc & Hq)].
  - apply (Rewritten_shaped d d' Hr). by apply (Forall_lookup_1 _ _ _ _ Hw Hd).
  - split; [done|]. rewrite Hs, Hc. split; [done|].
    intros Heq. symmetry in Heq. by apply completed_is_not_in_progress in Heq.
Qed.

Lemma shaped_serve_all rs : forall w,
  Forall shaped (db_interviews w) ->
  Forall shaped (db_interviews (serve_all E verify_password rs w)).
Proof.
  induction rs as [|r rs IH]; intros w Hw; [done|].
  rewrite serve_all_cons. apply IH. by apply shaped_serve.
Qed.

(** X24: in every world reached from an empty interview collection,
    every stored interview has between three and seven questions, and a
    completion time exactly when its status is completed. *)
Theorem interviews_stay_shaped (rs : list Request) (w : World)
    (d : InterviewDoc) :
  db_interviews w = [] ->
  d ∈ db_interviews (serve_all E verify_password rs w) ->
  3 <= length (iv_questions d) <= 7
  /\ (iv_completed_at d <> None <-> iv_status d = lit "completed").
Proof.
  intros Hinit Hd.
  assert (Forall shaped (db_interviews w)) as Hw by (rewrite Hinit; constructor).
  pose proof (shaped_serve_all rs w Hw) as Hall.
  rewrite Forall_forall in Hall. by apply Hall.
Qed.

End Forever.

Lemma find_interview_unique (docs : list InterviewDoc) j d :
  NoDup (map iv_id docs) -> docs !! j = Some d ->
  find_one (is_interview_of (iv_id d) (iv_user_id d)) docs = Some d.
Proof.
  revert j. induction docs as [|x xs IH]; intros j Hnd Hl; [done|].
  apply NoDup_cons in Hnd as [Hx Hnd]. cbn [find_one].
  destruct j as [|j]; simpl in Hl.
  - injection Hl as ->.
    by rewrite (proj2 (is_interview_of_true _ _ _) (conj eq_refl eq_refl)).
  - assert (is_interview_of (iv_id d) (iv_user_id d) x = false) as ->;
      [|by apply IH with j].
    unfold is_interview_of. apply andb_false_iff. left.
    apply bool_decide_eq_false. intros Heq.
    by apply (id_not_later xs j d x).
Qed.

Section Frozen.

Context (E : Env) (verify_password : str -> str -> bool).

Lemma well_formed_serve r w :
  uuid4_fresh E -> well_formed E w ->
  well_formed E (serve E verify_password r w).
Proof.
  intros Hfresh Hwf. destruct r as [c|user|u|].
  - by apply well_formed_after.
  - destruct (serve_interviews_same E verify_password (Login user) w
                ltac:(done)). by apply (well_formed_frame E w).
  - destruct (serve_interviews_same E verify_password (History u) w
                ltac:(done)). by apply (well_formed_frame E w).
  - destruct (serve_interviews_same E verify_password Health w ltac:(done)).
    by apply (well_formed_frame E w).
Qed.

Lemma completed_kept_serve r w j d :
  NoDup (map iv_id (db_interviews w)) ->
  db_interviews w !! j = Some d -> iv_status d = lit "completed" ->
  db_interviews (serve E verify_password r w) !! j = Some d.
Proof.
  intros Hnd Hl Hs.
  destruct r as [[user|file u|request u|response u|id u]|user|u|];
    cbn [serve after].
  - by destruct (register_frame E user w) as [_ ->].
  - by destruct (upload_frame E file u w) as [_ ->].
  - destruct (start_cases E request u w) as [->|(qs & w1 & t & _ & _ & ->)];
      [done|]. cbn.
    by rewrite lookup_app_l by (by apply lookup_lt_Some with d).
  - destruct (submit_cases E response u w Hnd)
      as [[_ ->]|(i & iv & r & w' & Hf & Hi & -> & _ & Hcase)];
      cbn [snd]; [done|].
    assert (i <> j) as Hij.
    { intros ->. rewrite Hl in Hi. injection Hi as ->.
      destruct (find_one_latest_Some _ _ _ _ Hf) as [_ Hp].
      apply open_for_true in Hp as [_ Hp]. rewrite Hs in Hp.
      by apply completed_is_not_in_progress. }
    destruct Hcase as [(_ & _ & ->)|(_ & _ & fb & t & ->)];
      by rewrite list_lookup_insert_ne.
  - by rewrite get_interview_frame.
  - by destruct (login_frame E verify_password user w) as (_ & _ & -> & _).
  - done.
  - done.
Qed.

(** X25: a completed interview is never touched again. Taking
    [uuid.uuid4()] never to repeat itself, in a well-formed world a
    completed interview stays as it is whatever requests are served:
    fetching it returns the same document, with the same feedback, every
    time. *)
Theorem completed_is_frozen (rs : list Request) (w : World) (j : nat)
    (d : InterviewDoc) :
  uuid4_fresh E -> well_formed E w ->
  db_interviews w !! j = Some d -> iv_status d = lit "completed" ->
  db_interviews (serve_all E verify_password rs w) !! j = Some d
  /\ get_interview (iv_id d) (iv_user_id d) (serve_all E verify_password rs w)
     = (inr d, serve_all E verify_password rs w).
Proof.
  intros Hfresh. revert w. induction rs as [|r rs IH]; intros w Hwf Hl Hs.
  - split; [done|]. apply get_interview_found.
    destruct Hwf as (Hnd & _). by apply find_interview_unique with j.
  - rewrite serve_all_cons. apply IH; [by apply well_formed_serve| |done].
    destruct Hwf as (Hnd & _). by apply completed_kept_serve.
Qed.

End Frozen.

(** ** Concrete runs *)

Lemma get_interview_is_scoped_witness :
  let w := Demo.started in
  exists d,
    db_interviews w = [d] /\ iv_user_id d = Demo.alice
    /\ get_interview (iv_id d) Demo.bob w
       = (inl (HTTPException 404 (lit "Interview not found")), w).
Proof.
  intros w.
  assert (exists d, db_interviews w = [d] /\ iv_user_id d = Demo.alice)
    as (d & Hw & Hd) by (eexists; split; [vm_compute; reflexivity|reflexivity]).
  exists d. repeat (split; [assumption|]).
  destruct (get_interview_is_scoped (iv_id d) Demo.bob w)
    as [(d' & _ & Hin & _ & Hu)|[H _]]; [|exact H].
  rewrite Hw in Hin. apply list_elem_of_singleton in Hin as ->.
  rewrite Hd in Hu. discriminate.
Defined.

Lemma start_reads_latest_resume_witness :
  let E := Demo.env Demo.down in
  let later := {| file_filename := lit "new.pdf";
                  file_content := lit "Now also Lean." |} in
  let w := after E (CallUploadResume later Demo.alice)
             (after E (CallUploadResume Demo.cv Demo.alice) Demo.empty_world) in
  exists r w' resume,
    start_interview E Demo.sre Demo.alice w = (inr r, w')
    /\ resume ∈ db_resumes w /\ rs_user_id resume = Demo.alice
    /\ (forall d, d ∈ db_resumes w -> rs_user_id d = Demo.alice ->
          (rs_uploaded_at d <= rs_uploaded_at resume)%Z)
    /\ fst (generate_interview_questions E (rs_text_content resume)
              (req_job_role Demo.sre) (req_experience_level Demo.sre) w)
       = inr (st_questions r).
Proof.
  intros E later w.
  assert (exists r w', start_interview E Demo.sre Demo.alice w = (inr r, w'))
    as (r & w' & Hstart) by (eexists _, _; vm_compute; reflexivity).
  destruct (start_reads_latest_resume E Demo.sre Demo.alice w w' r Hstart)
    as (resume & H).
  by exists r, w', resume.
Defined.

Lemma response_goes_to_latest_open_witness :
  let E := Demo.env Demo.down in
  let w := Demo.started in
  let response := Demo.answer "q1" in
  exists r w' i iv d',
    NoDup (map iv_id (db_interviews w))
    /\ submit_response E response Demo.alice w = (inr r, w')
    /\ db_interviews w !! i = Some iv
    /\ db_interviews w' !! i = Some d'
    /\ iv_responses d' = iv_responses iv ++ [stored E response w].
Proof.
  intros E w response.
  assert (NoDup (map iv_id (db_interviews w))) as Hnd
    by (refine (bool_decide_unpack _ _); vm_compute; exact I).
  assert (exists r w', submit_response E response Demo.alice w = (inr r, w'))
    as (r & w' & Hsub) by (eexists _, _; vm_compute; reflexivity).
  destruct (response_goes_to_latest_open E response Demo.alice w w' r Hnd Hsub)
    as (i & iv & d' & Hi & Hi' & _ & _ & _ & Hresp & _).
  by exists r, w', i, iv, d'.
Defined.

Lemma submit_raises_only_404_witness :
  let E := Demo.env Demo.down in
  let w := after E (CallSubmitResponse (Demo.answer "q3") Demo.alice)
             Demo.one_to_go in
  exists e w',
    submit_response E (Demo.answer "q4") Demo.alice w = (inl e, w')
    /\ e = HTTPException 404 (lit "No active interview found") /\ w' = w.
Proof.
  intros E w.
  assert (exists e w',
            submit_response E (Demo.answer "q4") Demo.alice w = (inl e, w'))
    as (e & w' & Hsub) by (eexists _, _; vm_compute; reflexivity).
  destruct (submit_raises_only_404 E (Demo.answer "q4") Demo.alice w w' e Hsub)
    as (He & Hw & _).
  by exists e, w'.
Defined.

Lemma interviews_are_append_only_witness :
  let E := Demo.env Demo.down in
  let w := Demo.started in
  let rs := [Routed (CallSubmitResponse (Demo.answer "q1") Demo.alice);
             History Demo.alice;
             Routed (CallStartInterview Demo.sre Demo.alice);
             Routed (CallSubmitResponse (Demo.answer "x") Demo.alice)] in
  exists d d',
    db_interviews w !! 0 = Some d
    /\ db_interviews (serve_all E Desk.verify rs w) !! 0 = Some d'
    /\ iv_questions d' = iv_questions d
    /\ iv_responses d `prefix_of` iv_responses d'.
Proof.
  intros E w rs.
  assert (exists d, db_interviews w !! 0 = Some d) as (d & Hd)
    by (eexists; vm_compute; reflexivity).
  destruct (interviews_are_append_only E Desk.verify rs w 0 d Hd)
    as (d' & Hd' & _ & _ & _ & _ & _ & Hq & _ & Hp).
  by exists d, d'.
Defined.

Lemma interviews_stay_shaped_witness :
  let E := Demo.env (Demo.says "One?") in
  let rs := [Routed (CallUploadResume Demo.cv Demo.alice);
             Routed (CallStartInterview Demo.sre Demo.alice);
             Routed (CallSubmitResponse (Demo.answer "q1") Demo.alice)] in
  exists d,
    db_interviews Demo.empty_world = []
    /\ d ∈ db_interviews (serve_all E Desk.verify rs Demo.empty_world)
    /\ 3 <= length (iv_questions d) <= 7
    /\ (iv_completed_at d <> None <-> iv_status d = lit "completed").
Proof.
  intros E rs.
  assert (exists d, d ∈ db_interviews (serve_all E Desk.verify rs Demo.empty_world))
    as (d & Hd).
  { assert (exists d, db_interviews (serve_all E Desk.verify rs Demo.empty_world)
                      = [d]) as (d & ->) by (eexists; vm_compute; reflexivity).
    exists d. apply list_elem_of_here. }
  exists d. split; [reflexivity|]. split; [exact Hd|].
  exact (interviews_stay_shaped E Desk.verify rs Demo.empty_world d eq_refl Hd).
Defined.

Lemma completed_is_frozen_witness :
  let E := Demo.env Demo.down in
  let w := after E (CallSubmitResponse (Demo.answer "q3") Demo.alice)
             Demo.one_to_go in
  let rs := [Routed (CallSubmitResponse (Demo.answer "q4") Demo.alice);
             Routed (CallStartInterview Demo.sre Demo.alice);
             Routed (CallSubmitResponse (Demo.answer "q5") Demo.alice);
             Login (Desk.carol_login "s3cret")] in
  exists d,
    uuid4_fresh E /\ well_formed E w
    /\ db_interviews w !! 0 = Some d /\ iv_status d = lit "completed"
    /\ db_interviews (serve_all E Desk.verify rs w) !! 0 = Some d
    /\ get_interview (iv_id d) (iv_user_id d) (serve_all E Desk.verify rs w)
       = (inr d, serve_all E Desk.verify rs w).
Proof.
  intros E w rs.
  assert (uuid4_fresh E) as Hfresh by apply Demo_uuid4_fresh.
  assert (well_formed E w) as Hwf.
  { apply well_formed_reachable; [exact Hfresh|].
    do 3 apply Reachable_call. apply Reachable_started. }
  assert (exists d, db_interviews w !! 0 = Some d
                    /\ iv_status d = lit "completed") as (d & Hd & Hs)
    by (eexists; split; [vm_compute; reflexivity|reflexivity]).
  destruct (completed_is_frozen E Desk.verify rs w 0 d Hfresh Hwf Hd Hs)
    as [Hkept Hget].
  exists d. repeat (split; [assumption|]). exact Hget.
Defined.
